(** * mx5nb-minidash: the Invent EMS telemetry codec

    A shallow embedding of
      - [Source/pico_dashboard/protocol/invent_ems.c]  (serial and CAN decoder),
      - [Source/CarEmu/CarEmu.c]                       (protocol emulator),
      - the two receive ring buffers of [bsp_can.c] and [pico_dashboard.cpp],
    together with the properties of the codec that the specification states.

    Conventions.
      - C integers are [Z] with the wrap-around of every conversion written
        out ([u8], [u16], [u32], [i8], [i16]).
      - Byte arrays are [list Z]; [rd buf i] is [buf[i]].
      - A C [float] of the telemetry record is [NaN] or a finite value; finite
        values are computed in exact rational arithmetic ([Q]), the rounding
        of binary32 is not modelled.
      - A float-to-integer cast whose truncated operand does not fit the
        target type is undefined in C; the model returns [None] there. *)

From Stdlib Require Import ZArith QArith Qround Qabs Lia Lqa Bool.
From stdpp Require Import base tactics option list functions.

Local Open Scope Z_scope.

(* ================================================================== *)
(** ** Machine integers *)
(* ================================================================== *)

(** [(uint8_t) x], [(uint16_t) x], [(uint32_t) x]. *)
Definition u8 (x : Z) : Z := x mod 2 ^ 8.
Definition u16 (x : Z) : Z := x mod 2 ^ 16.
Definition u32 (x : Z) : Z := x mod 2 ^ 32.

(** [(int8_t) x], [(int16_t) x]: two's complement reinterpretation. *)
Definition i8 (x : Z) : Z :=
  let y := u8 x in if y <? 2 ^ 7 then y else y - 2 ^ 8.
Definition i16 (x : Z) : Z :=
  let y := u16 x in if y <? 2 ^ 15 then y else y - 2 ^ 16.

(** [buf[i]] on an array of bytes.  A read outside the array is undefined in
    C; the model returns 0 there. *)
Definition rd (buf : list Z) (i : Z) : Z :=
  if i <? 0 then 0 else default 0 (buf !! Z.to_nat i).

(** [buf[i] = v]; a write outside the array is left out of the model (stdpp's
    insert does nothing there), every caller guards the index. *)
Definition wr (buf : list Z) (i : Z) (v : Z) : list Z :=
  if i <? 0 then buf else <[Z.to_nat i := v]> buf.

Definition is_byte (b : Z) : Prop := 0 <= b < 256.
Definition is_byteb (b : Z) : bool := (0 <=? b) && (b <? 256).

(** [read_i16] and [read_u16] of invent_ems.c, the pointer [p] being
    [&buf[off]]. *)
Definition read_u16 (buf : list Z) (off : Z) : Z :=
  u16 (Z.lor (u16 (rd buf off)) (Z.shiftl (u16 (rd buf (off + 1))) 8)).

Definition read_i16 (buf : list Z) (off : Z) : Z :=
  i16 (Z.lor (u16 (rd buf off)) (Z.shiftl (u16 (rd buf (off + 1))) 8)).

(* ================================================================== *)
(** ** The checksum *)
(* ================================================================== *)

(** Body of the [for] loop of [checksum] in invent_ems.c. *)
Definition crc_round (crc : Z) (b : Z) : Z :=
  let d := b in
  let d := u8 (Z.lxor d (u8 (Z.land crc 0xFF))) in
  let d := u8 (Z.lxor d (u8 (Z.shiftl d 4))) in
  let t := u16 (Z.lor (Z.shiftl (u16 d) 8) (Z.land (Z.shiftr crc 8) 0xFF)) in
  let t := u16 (Z.lxor t (u8 (Z.shiftr d 4))) in
  let t := u16 (Z.lxor t (Z.shiftl (u16 d) 3)) in
  t.

(** [n] more passes of [for (i = ...; i <= len; i++)], the counter being [i]. *)
Fixpoint crc_for (n : nat) (buf : list Z) (i : Z) (crc : Z) : Z :=
  match n with
  | O => crc
  | S n' => crc_for n' buf (i + 1) (crc_round crc (rd buf i))
  end.

Definition MAX_RX_BUF : Z := 64.

(** [checksum] of invent_ems.c.  After the guard [len < MAX_RX_BUF - 2], so
    the 8-bit counter [i] runs from 0 to [len] without wrapping and the loop
    makes [len + 1] passes. *)
Definition checksum (buf : list Z) : Z :=
  let len := u8 (rd buf 0 - 2) in
  if MAX_RX_BUF - 2 <=? len then 0
  else crc_for (Z.to_nat (len + 1)) buf 0 0xFFFF.

(** Body of the loop of [calcChecksum] in CarEmu.c: the same computation
    written with implicit conversions ([data ^= crc & 0xFF] and
    [data ^= data << 4] are evaluated in [int] and truncated on the store). *)
Definition calc_round (crc : Z) (b : Z) : Z :=
  let data := b in
  let data := u8 (Z.lxor data (Z.land crc 0xFF)) in
  let data := u8 (Z.lxor data (Z.shiftl data 4)) in
  let t := u16 (Z.lor (Z.shiftl (u16 data) 8) (Z.land (Z.shiftr crc 8) 0xFF)) in
  let t := u16 (Z.lxor t (u8 (Z.shiftr data 4))) in
  let t := u16 (Z.lxor t (Z.shiftl (u16 data) 3)) in
  t.

(** The loop of [calcChecksum].  There is no guard on [len] here: with
    [len = 255] the test [i <= len] never fails for the 8-bit counter, so the
    loop is run on fuel and [None] is "no result". *)
Fixpoint calc_loop (fuel : nat) (buffer : list Z) (len i crc : Z) : option Z :=
  match fuel with
  | O => None
  | S fuel' =>
      if i <=? len
      then calc_loop fuel' buffer len (u8 (i + 1)) (calc_round crc (rd buffer i))
      else Some crc
  end.

Definition calcChecksum (fuel : nat) (buffer : list Z) : option Z :=
  let len := u8 (rd buffer 0 - 2) in
  calc_loop fuel buffer len 0 0xFFFF.

(** The algorithm in the words of the specification: the accumulator starts
    at 0xFFFF and absorbs the bytes [bytes[0 .. L-2]], [L = bytes[0]].  The
    working value [d] is a byte, so [d] shifted left by 4 is cut to 8 bits
    when it is XORed into [d]; [t] is a 16-bit value. *)
Definition spec_step (acc : Z) (d : Z) : Z :=
  let d := Z.lxor d (Z.land acc 0xFF) in
  let d := Z.land (Z.lxor d (Z.shiftl d 4)) 0xFF in
  let t := Z.lor (Z.shiftl d 8) (Z.shiftr acc 8) in
  let t := Z.lxor t (Z.shiftr d 4) in
  let t := Z.lxor t (Z.shiftl d 3) in
  t.

Definition spec_checksum (bytes : list Z) : Z :=
  fold_left spec_step (take (Z.to_nat (rd bytes 0 - 1)) bytes) 0xFFFF.


(* ================================================================== *)
(** ** The telemetry record: [invent_ems_data_t] *)
(* ================================================================== *)

(** A C [float]: not-a-number, or a finite value. *)
Inductive float : Type :=
| NaN : float
| Fin : Q -> float.

(** [raw * k] and [raw / k] for an integer [raw] converted to [float]. *)
Definition fmul_int (raw : Z) (k : Q) : float := Fin (inject_Z raw * k).
Definition fdiv_int (x : float) (k : Q) : float :=
  match x with NaN => NaN | Fin q => Fin (q / k) end.
(** [(float) raw]. *)
Definition of_int (raw : Z) : float := Fin (inject_Z raw).

(** The [float] members of [invent_ems_data_t], in the order of the header. *)
Inductive ffield : Type :=
| rpm | ign_angle | inj_time_ms | tps | dbw_pos | map_kpa | lambda | speed
| fuel_flow | knock_v
| lambda_target | fuel_pressure_kpa | dwell_ms | voltage | dbw_cmd | lambda2
| idle_pos
| back_pressure_kpa
| pwm3d_target | pwm3d_curr
| trip_fuel_l | trip_path_km | curr_fuel_cons | trip_fuel_cons | fuel_composition
| clt | iat | oil_temp | fuel_temp | egt1 | egt2 | oil_pressure
| pwm_duty (i : nat).

(** The integer members of [invent_ems_data_t] (all but the two counters). *)
Inductive ifield : Type :=
| transient_corr | runlevel | cyl_no
| corr_angle | lambda_corr_fast | lambda_corr_slow | gear
| flag_major | flag_minor | flag_notify | flag_notify2 | flag_protection
| airflow | boost_duty | boost_target
| egr_pos | egr_target | inj_duty | inj_lag_time | inj_end_angle
| fuel_press_coef | air_charge_t | inj_air_charge_corr | speed2
| ign_accel_corr | vvt1_curr | vvt1_target | vvt2_curr | vvt2_target
| vvt1b_curr | vvt2b_curr | tcs_corr
| adc_tps | adc_ct | adc_iat | adc_dbw1 | adc_dbw2 | adc_map | adc_lambda
| adc_an (i : nat)
| input_state | output_state | dbw_driver_status | dbw_system_status
| gas_state | at_temp | at_state | fuel_level.

#[global] Instance ffield_eq_dec : EqDecision ffield.
Proof. solve_decision. Defined.

#[global] Instance ifield_eq_dec : EqDecision ifield.
Proof. solve_decision. Defined.

(** Members that exist in the struct: [pwm_duty[6]] and [adc_an[10]]. *)
Definition ffield_valid (f : ffield) : Prop :=
  match f with pwm_duty i => (i < 6)%nat | _ => True end.
Definition ifield_valid (f : ifield) : Prop :=
  match f with adc_an i => (i < 10)%nat | _ => True end.

(** The struct: the three status members by name, the others as two stores
    indexed by member name. *)
Record invent_ems_data_t : Type := mk_data {
  connected : bool;
  packet_count : Z;      (* uint32_t *)
  error_count : Z;       (* uint32_t *)
  fval : ffield -> float;
  ival : ifield -> Z
}.

(** [ecu_data.f = x] *)
Definition setf (f : ffield) (x : float) (d : invent_ems_data_t) : invent_ems_data_t :=
  let '(mk_data c p e fv iv) := d in mk_data c p e (<[f := x]> fv) iv.
Definition seti (f : ifield) (x : Z) (d : invent_ems_data_t) : invent_ems_data_t :=
  let '(mk_data c p e fv iv) := d in mk_data c p e fv (<[f := x]> iv).
Definition set_connected (b : bool) (d : invent_ems_data_t) : invent_ems_data_t :=
  let '(mk_data _ p e fv iv) := d in mk_data b p e fv iv.
Definition set_packet_count (n : Z) (d : invent_ems_data_t) : invent_ems_data_t :=
  let '(mk_data c _ e fv iv) := d in mk_data c n e fv iv.
Definition set_error_count (n : Z) (d : invent_ems_data_t) : invent_ems_data_t :=
  let '(mk_data c p _ fv iv) := d in mk_data c p n fv iv.

(* ================================================================== *)
(** ** invent_ems.c: the serial decoder *)
(* ================================================================== *)

Definition HEADER_0 : Z := 0x55.
Definition HEADER_1 : Z := 0x00.
Definition HEADER_2 : Z := 0xAA.
Definition HEADER_3 : Z := 0x00.
Definition INVENT_EMS_PROTOCOL_VER : Z := 0x54.
Definition MAX_PACKET_LEN : Z := 48.
Definition MIN_PACKET_LEN : Z := 4.
Definition SLOW_PACKET_OFFSET : Z := 25.
Definition SLOW_PACKET_SIZE : Z := 11.
Definition SLOW_PACKET_COUNT : Z := 10.

(** [parse_fast] *)
Definition parse_fast (buf : list Z) (d : invent_ems_data_t) : invent_ems_data_t :=
  let d := seti runlevel (rd buf 2) d in
  let d := setf ign_angle (fmul_int (read_i16 buf 3) (1 # 4)) d in
  let d := setf fuel_flow (fmul_int (rd buf 5) (1 / 16)) d in
  let period := read_u16 buf 6 in
  let d := setf rpm (if 0 <? period then Fin (10000000 / inject_Z period)
                     else Fin 0) d in
  let d := setf inj_time_ms (fmul_int (read_u16 buf 8) (4 # 1000)) d in
  let d := setf knock_v (fmul_int (rd buf 10) (5 / 256)) d in
  let d := setf tps (fmul_int (rd buf 11) (100 / 255)) d in
  let d := setf dbw_pos (fmul_int (rd buf 12) (100 / 255)) d in
  let d := setf map_kpa (fmul_int (rd buf 13) 2) d in
  let d := setf lambda (fmul_int (rd buf 14) (1 / 128)) d in
  let d := seti cyl_no (rd buf 15) d in
  let d := seti transient_corr (i8 (rd buf 16)) d in
  let d := setf speed (of_int (rd buf 17)) d in
  d.

(** The two [for] loops of [parse_slow]: [for (i = 0; i < n; i++) ...]. *)
Fixpoint for_adc_an (n : nat) (buf : list Z) (off : Z) (d : invent_ems_data_t)
  : invent_ems_data_t :=
  match n with
  | O => d
  | S n' => let d := for_adc_an n' buf off d in
            seti (adc_an n') (rd buf (off + Z.of_nat n')) d
  end.

Fixpoint for_pwm_duty (n : nat) (buf : list Z) (off : Z) (d : invent_ems_data_t)
  : invent_ems_data_t :=
  match n with
  | O => d
  | S n' => let d := for_pwm_duty n' buf off d in
            setf (pwm_duty n') (fmul_int (rd buf (off + Z.of_nat n')) (100 / 256)) d
  end.

(** [parse_slow id s], the pointer [s] being [&buf[off]]. *)
Definition parse_slow (id : Z) (buf : list Z) (off : Z) (d : invent_ems_data_t)
  : invent_ems_data_t :=
  let s k := rd buf (off + k) in
  match id with
  | 0 =>
      let d := seti corr_angle (i8 (s 0)) d in
      let d := setf lambda_target (fmul_int (s 1) (1 / 128)) d in
      let d := seti lambda_corr_fast (i8 (s 2)) d in
      let d := seti lambda_corr_slow (i8 (s 3)) d in
      let d := setf fuel_pressure_kpa (of_int (read_u16 buf (off + 4))) d in
      let d := setf dwell_ms (of_int (s 6)) d in
      let d := setf voltage (fmul_int (s 7) (1 # 10)) d in
      let d := seti gear (i8 (s 8)) d in
      let d := setf dbw_cmd (of_int (s 9)) d in
      let d := setf lambda2 (fmul_int (s 10) (1 / 128)) d in
      d
  | 1 =>
      let d := seti flag_major (s 0) d in
      let d := seti flag_minor (s 1) d in
      let d := seti flag_notify (s 2) d in
      let d := seti flag_notify2 (s 3) d in
      let d := seti flag_protection (s 4) d in
      let d := setf idle_pos (fmul_int (s 5) (100 / 256)) d in
      let d := seti airflow (read_u16 buf (off + 6)) d in
      let d := seti boost_duty (s 8) d in
      let d := seti boost_target (s 9) d in
      d
  | 2 =>
      let d := seti egr_pos (s 0) d in
      let d := seti egr_target (s 1) d in
      let d := seti inj_duty (s 2) d in
      let d := seti inj_lag_time (read_i16 buf (off + 3)) d in
      let d := seti inj_end_angle (i8 (s 5)) d in
      let d := seti fuel_press_coef (s 6) d in
      let d := seti air_charge_t (i8 (s 7)) d in
      let d := seti inj_air_charge_corr (i8 (s 8)) d in
      let d := seti speed2 (s 9) d in
      let d := setf back_pressure_kpa (fmul_int (s 10) 2) d in
      d
  | 3 =>
      let d := seti ign_accel_corr (read_i16 buf (off + 0)) d in
      let d := seti vvt1_curr (i8 (s 2)) d in
      let d := seti vvt1_target (i8 (s 3)) d in
      let d := seti vvt2_curr (i8 (s 4)) d in
      let d := seti vvt2_target (i8 (s 5)) d in
      let d := seti vvt1b_curr (i8 (s 6)) d in
      let d := seti vvt2b_curr (i8 (s 7)) d in
      let d := seti tcs_corr (s 8) d in
      let d := setf pwm3d_target (fmul_int (s 9) (100 / 256)) d in
      let d := setf pwm3d_curr (fmul_int (s 10) (100 / 256)) d in
      d
  | 4 =>
      let d := setf trip_fuel_l (fmul_int (read_u16 buf (off + 0)) (1 # 100)) d in
      let d := setf trip_path_km (fmul_int (read_u16 buf (off + 2)) (1 # 10)) d in
      let d := setf curr_fuel_cons (fmul_int (read_u16 buf (off + 4)) (1 # 10)) d in
      let d := setf trip_fuel_cons (fmul_int (read_u16 buf (off + 6)) (1 # 10)) d in
      let d := setf fuel_composition (fmul_int (s 8) (100 / 256)) d in
      d
  | 5 =>
      let d := seti adc_tps (s 0) d in
      let d := seti adc_ct (s 1) d in
      let d := seti adc_iat (s 2) d in
      let d := seti adc_dbw1 (s 3) d in
      let d := seti adc_dbw2 (s 4) d in
      let d := seti adc_map (s 5) d in
      let d := seti adc_lambda (s 6) d in
      d
  | 6 => for_adc_an 10 buf off d
  | 7 =>
      let d := seti input_state (s 0) d in
      let d := seti output_state (read_u16 buf (off + 1)) d in
      let d := seti dbw_driver_status (s 3) d in
      let d := seti dbw_system_status (s 4) d in
      let d := seti gas_state (s 5) d in
      let d := seti at_temp (i8 (s 6)) d in
      let d := seti at_state (s 7) d in
      let d := seti fuel_level (s 8) d in
      d
  | 8 =>
      let d := setf clt (of_int (i8 (s 0))) d in
      let d := setf iat (of_int (i8 (s 1))) d in
      let d := setf oil_temp (of_int (s 2)) d in
      let d := setf fuel_temp (of_int (i8 (s 3))) d in
      let d := setf egt1 (of_int (read_u16 buf (off + 5))) d in
      let d := setf egt2 (of_int (read_u16 buf (off + 7))) d in
      let d := setf oil_pressure (fmul_int (s 9) (1 # 10)) d in
      d
  | 9 => for_pwm_duty 6 buf off d
  | _ => d
  end.

(** The static variables of invent_ems.c. *)
Record parser : Type := mk_parser {
  rxstate : Z;                    (* uint8_t *)
  rxbuf : list Z;                 (* uint8_t [MAX_RX_BUF] *)
  rxptr : Z;                      (* uint8_t *)
  ecu_data : invent_ems_data_t;
  new_data_flag : bool
}.

Definition set_rxstate (n : Z) (s : parser) : parser :=
  mk_parser n (rxbuf s) (rxptr s) (ecu_data s) (new_data_flag s).
Definition set_rxbuf (b : list Z) (s : parser) : parser :=
  mk_parser (rxstate s) b (rxptr s) (ecu_data s) (new_data_flag s).
Definition set_rxptr (n : Z) (s : parser) : parser :=
  mk_parser (rxstate s) (rxbuf s) n (ecu_data s) (new_data_flag s).
Definition set_ecu_data (d : invent_ems_data_t) (s : parser) : parser :=
  mk_parser (rxstate s) (rxbuf s) (rxptr s) d (new_data_flag s).
Definition set_new_data_flag (b : bool) (s : parser) : parser :=
  mk_parser (rxstate s) (rxbuf s) (rxptr s) (ecu_data s) b.

(** [parse_packet] *)
Definition parse_packet (s : parser) : parser :=
  let d := parse_fast (rxbuf s) (ecu_data s) in
  let slow_id := rd (rxbuf s) 24 in
  let d := if slow_id <? SLOW_PACKET_COUNT
           then parse_slow slow_id (rxbuf s) SLOW_PACKET_OFFSET d
           else d in
  let d := set_connected true d in
  let d := set_packet_count (u32 (packet_count d + 1)) d in
  set_new_data_flag true (set_ecu_data d s).

(** The float members that [invent_ems_init] sets to [NAN], in its order. *)
Definition nan_members : list ffield :=
  [ rpm; ign_angle; inj_time_ms; tps; dbw_pos; map_kpa; lambda; speed;
    fuel_flow; knock_v;
    lambda_target; fuel_pressure_kpa; dwell_ms; voltage; dbw_cmd; lambda2;
    idle_pos; back_pressure_kpa;
    pwm3d_target; pwm3d_curr;
    trip_fuel_l; trip_path_km; curr_fuel_cons; trip_fuel_cons; fuel_composition;
    clt; iat; oil_temp; fuel_temp; egt1; egt2; oil_pressure;
    pwm_duty 0; pwm_duty 1; pwm_duty 2; pwm_duty 3; pwm_duty 4; pwm_duty 5 ].

(** [memset(&ecu_data, 0, sizeof(ecu_data))]: every member is all-zero bits. *)
Definition zero_data : invent_ems_data_t :=
  mk_data false 0 0 (fun _ => Fin 0) (fun _ => 0).

(** [invent_ems_init]; the receive buffer is not touched. *)
Definition invent_ems_init (s : parser) : parser :=
  let d := zero_data in
  let d := fold_left (fun d f => setf f NaN d) nan_members d in
  mk_parser 0 (rxbuf s) 0 d false.

(** The statics at program start (zero-initialised). *)
Definition power_on : parser :=
  mk_parser 0 (replicate 64 0) 0 zero_data false.

(** Case 6 of [invent_ems_feed_byte], in three pieces.  Storing the byte:
    [if (rxptr < MAX_RX_BUF) rxbuf[rxptr] = byte;  rxptr++;] *)
Definition accumulate (s : parser) (byte : Z) : parser :=
  let s := if rxptr s <? MAX_RX_BUF
           then set_rxbuf (wr (rxbuf s) (rxptr s) byte) s
           else s in
  set_rxptr (u8 (rxptr s + 1)) s.

(** The received checksum:
    [(uint16_t)rxbuf[rxptr - 2] | ((uint16_t)rxbuf[rxptr - 1] << 8)] *)
Definition crc_rx (s : parser) : Z :=
  u16 (Z.lor (u16 (rd (rxbuf s) (rxptr s - 2)))
             (Z.shiftl (u16 (rd (rxbuf s) (rxptr s - 1))) 8)).

(** The body of [if (rxptr > rxbuf[0])]: verify, then parse or count an
    error, and go back to state 0. *)
Definition verify (s : parser) : parser :=
  let crc_calc := checksum (rxbuf s) in
  let s := if crc_calc =? crc_rx s
           then parse_packet s
           else set_ecu_data
                  (set_error_count (u32 (error_count (ecu_data s) + 1))
                                   (ecu_data s)) s in
  set_rxstate 0 s.

(** One pass through the [switch] of [invent_ems_feed_byte]; the second
    component is [retry]. *)
Definition feed_switch (s : parser) (byte : Z) : parser * bool :=
  match rxstate s with
  | 0 =>
      if byte =? HEADER_0 then (set_rxstate (u8 (rxstate s + 1)) s, false)
      else (s, false)
  | 1 =>
      if byte =? HEADER_1 then (set_rxstate (u8 (rxstate s + 1)) s, false)
      else (set_rxstate 0 s, true)
  | 2 =>
      if byte =? HEADER_2 then (set_rxstate (u8 (rxstate s + 1)) s, false)
      else (set_rxstate 0 s, true)
  | 3 =>
      if byte =? HEADER_3 then (set_rxstate (u8 (rxstate s + 1)) s, false)
      else (set_rxstate 0 s, true)
  | 4 =>
      if byte =? INVENT_EMS_PROTOCOL_VER
      then (set_rxstate (u8 (rxstate s + 1)) s, false)
      else (set_rxstate 0 s, true)
  | 5 =>
      if (MIN_PACKET_LEN <=? byte) && (byte <=? MAX_PACKET_LEN)
      then
        let s := set_rxbuf (wr (rxbuf s) 0 byte) s in
        let s := set_rxptr 1 s in
        (set_rxstate (u8 (rxstate s + 1)) s, false)
      else (set_rxstate 0 s, false)
  | 6 =>
      let s := accumulate s byte in
      if rd (rxbuf s) 0 <? rxptr s
      then (verify s, false)
      else (s, false)
  | _ => (set_rxstate 0 s, false)
  end.

(** [do { retry = false; switch ... } while (retry);] run on fuel. *)
Fixpoint feed_loop (fuel : nat) (s : parser) (byte : Z) : option parser :=
  match fuel with
  | O => None
  | S fuel' =>
      let '(s', retry) := feed_switch s byte in
      if retry then feed_loop fuel' s' byte else Some s'
  end.

(** [invent_ems_feed_byte].  The loop body runs at most twice ([retry] is
    only set together with [rxstate = 0], and case 0 never sets it), see
    [feed_loop_terminates]; so two units of fuel are all it can use. *)
Definition invent_ems_feed_byte (s : parser) (byte : Z) : parser :=
  default s (feed_loop 2 s byte).

(** Feeding a byte stream, oldest byte first. *)
Definition feed_bytes (s : parser) (bytes : list Z) : parser :=
  fold_left invent_ems_feed_byte bytes s.

(** [invent_ems_get_data] *)
Definition invent_ems_get_data (s : parser) : invent_ems_data_t := ecu_data s.

(** [invent_ems_feed_can_frame id d dlc]; the result is the new state and the
    returned flag. *)
Definition invent_ems_feed_can_frame (s : parser) (id : Z) (d : list Z) (dlc : Z)
  : parser * bool :=
  let e := ecu_data s in
  let recognised :=
    match id with
    | 0x300 =>
        let e := setf rpm (of_int (read_u16 d 0)) e in
        let e := setf tps (fmul_int (read_i16 d 2) (1 # 10)) e in
        let e := setf map_kpa (fmul_int (read_u16 d 4) (1 # 100)) e in
        let e := setf iat (fmul_int (read_i16 d 6) (1 # 10)) e in
        Some e
    | 0x302 =>
        let e := setf ign_angle (fmul_int (read_i16 d 0) (1 # 10)) e in
        let e := setf dwell_ms (fmul_int (read_u16 d 2) (1 # 10)) e in
        let e := setf inj_time_ms (fmul_int (read_u16 d 6) (1 # 1000)) e in
        Some e
    | 0x304 =>
        let e := setf oil_temp (fmul_int (read_i16 d 0) (1 # 10)) e in
        let e := setf oil_pressure
                   (fdiv_int (fmul_int (read_i16 d 2) (1 # 10)) 100) e in
        let e := setf clt (fmul_int (read_i16 d 4) (1 # 10)) e in
        let e := setf voltage (fmul_int (read_i16 d 6) (1 # 10)) e in
        Some e
    | 0x305 =>
        let e := seti gear (i8 (read_i16 d 0)) e in
        let e := setf speed (fmul_int (read_u16 d 4) (1 # 10)) e in
        Some e
    | 0x306 =>
        let e := setf knock_v (fmul_int (read_i16 d 0) (1 # 10)) e in
        let e := setf fuel_pressure_kpa (fmul_int (read_u16 d 4) (1 # 10)) e in
        let e := setf fuel_temp (fmul_int (read_i16 d 6) (1 # 10)) e in
        Some e
    | 0x307 =>
        let e := setf egt1 (fmul_int (read_i16 d 0) (1 # 10)) e in
        let e := setf egt2 (fmul_int (read_i16 d 2) (1 # 10)) e in
        Some e
    | 0x340 =>
        let e := setf speed (fmul_int (read_u16 d 0) (1 # 10)) e in
        Some e
    | _ => None
    end in
  match recognised with
  | None => (s, false)
  | Some e =>
      let e := set_connected true e in
      (set_new_data_flag true (set_ecu_data e s), true)
  end.

(** [invent_ems_has_new_data] *)
Definition invent_ems_has_new_data (s : parser) : parser * bool :=
  if new_data_flag s then (set_new_data_flag false s, true) else (s, false).

(** *** Notions used to state the properties of the decoder *)

(** The byte that advances the state machine in states 0 to 4. *)
Definition expected_byte (st : Z) : Z :=
  match st with
  | 0 => HEADER_0
  | 1 => HEADER_1
  | 2 => HEADER_2
  | 3 => HEADER_3
  | _ => INVENT_EMS_PROTOCOL_VER
  end.

(** The frame identifiers [invent_ems_feed_can_frame] has a case for. *)
Definition can_ids : list Z := [0x300; 0x302; 0x304; 0x305; 0x306; 0x307; 0x340].


(** A float that is a value, not the sentinel. *)
Definition is_fin (x : float) : Prop :=
  match x with NaN => False | Fin _ => True end.

(** [d'] has no not-a-number member that [d] did not have. *)
Definition no_new_nan (d d' : invent_ems_data_t) : Prop :=
  forall f, fval d' f = NaN -> fval d f = NaN.

(** What holds of the statics in every state the decoder can reach: the
    buffer keeps its size, and while a frame is accumulated ([rxstate = 6])
    its length byte is in range and the write position has not passed it. *)
Definition parser_wf (s : parser) : Prop :=
  length (rxbuf s) = 64%nat /\
  0 <= rxstate s <= 6 /\
  (rxstate s = 6 -> 4 <= rd (rxbuf s) 0 <= 48 /\ 1 <= rxptr s <= rd (rxbuf s) 0).

(** A wire frame with length byte [L], the bytes [body] after it and the
    checksum [crc] (low byte first). *)
Definition wire_frame (L : Z) (body : list Z) (crc : Z) : list Z :=
  [HEADER_0; HEADER_1; HEADER_2; HEADER_3; INVENT_EMS_PROTOCOL_VER; L] ++
  body ++ [Z.land crc 0xFF; Z.shiftr crc 8].

(** A complete valid frame: sync bytes, version, a length byte in range,
    [L - 2] bytes, and the checksum of the length byte and those bytes. *)
Definition valid_frame (L : Z) (body : list Z) (frame : list Z) : Prop :=
  4 <= L <= 48 /\
  Z.of_nat (length body) = L - 2 /\
  Forall is_byte body /\
  frame = wire_frame L body (checksum (L :: body)).

(* ================================================================== *)
(** ** CarEmu.c: the protocol emulator *)
(* ================================================================== *)

(** [x < y] on finite floats. *)
Definition Qltb (x y : Q) : bool := negb (Qle_bool y x).

(** Conversion of a finite float to an integer type discards the fractional
    part (truncation toward zero) ... *)
Definition Qtrunc (q : Q) : Z := if Qltb q 0 then Qceiling q else Qfloor q.

(** ... and is undefined when the truncated value does not fit. *)
Definition cast_int (lo hi : Z) (q : Q) : option Z :=
  let z := Qtrunc q in
  if (lo <=? z) && (z <=? hi) then Some z else None.

Definition cast_i16 : Q -> option Z := cast_int (-32768) 32767.
Definition cast_u16 : Q -> option Z := cast_int 0 65535.
Definition cast_u32 : Q -> option Z := cast_int 0 4294967295.

(** A 16-bit member of a packed little-endian struct, as bytes. *)
Definition le16 (x : Z) : list Z := [u8 x; u8 (Z.shiftr (u16 x) 8)].

Module CarEmu.

Definition PROTOCOL_VERSION : Z := 0x54.
Definition SLOW_PACKET_SIZE : Z := 11.
Definition SLOW_PACKETS_COUNT : Z := 4.
Definition VERY_SLOW_PACKETS_COUNT : Z := 6.
Definition TOTAL_SLOW_PACKETS : Z := SLOW_PACKETS_COUNT + VERY_SLOW_PACKETS_COUNT.

Definition HEADER : list Z := [0x55; 0x00; 0xAA; 0x00; PROTOCOL_VERSION].
Definition HEADER_SIZE : Z := 5.

(** [sizeof(TInfoPacket)]: the packed struct has 25 bytes up to and including
    [SlowPacketId], followed by the 11-byte [SlowPacket]. *)
Definition sizeof_TInfoPacket : Z := 36.

(** [EngineState]; floats are finite. *)
Record EngineState : Type := mk_eng {
  (* Fast channels *)
  rpm : Q; angleDeg : Q; tpsPercent : Q; dbwPercent : Q; mapKpa : Q;
  lambdaVal : Q; injTimeMs : Q; rashodLH : Q;
  knockV : Z; cylNo : Z; transCorr : Z; speed : Z; runlevel : Z;
  (* Slow0 *)
  corrAngle : Z; lambdaTarget : Q; lambdaCorrFast : Z; lambdaCorrSlow : Z;
  fuelPKpa : Z; dwellTime : Z; voltageV : Q; gearNo : Z; dbwCmdPos : Z;
  lambda2Val : Q;
  (* Slow1 *)
  flagMajor : Z; flagMinor : Z; flagNotify : Z; flagNotify2 : Z;
  flagProtection : Z; idlePosPercent : Q; airflow : Z; boostDuty : Z;
  boostTarget : Z;
  (* Slow2 *)
  egrCurrPos : Z; egrTargetPos : Z; injDutyCycle : Z; injLagTime : Z;
  injEndAngle4 : Z; fuelPressCoef : Z; airChargeT : Z; injAirChargeCorr : Z;
  speed2 : Z; backPKpa : Q;
  (* Slow3 *)
  ignAccelCorr : Z; vvt1Curr : Z; vvt1Target : Z; vvt2Curr : Z;
  vvt2Target : Z; vvt1bCurr : Z; vvt2bCurr : Z; tcsCorr : Z;
  pwm3dTarget : Q; pwm3dCurr : Q;
  (* Slow4 *)
  tripFuelL : Q; tripPathKm : Q; currFuelCons : Q; tripFuelCons : Q;
  fuelCompPct : Q;
  (* Slow5 *)
  adcTpsV : Q; adcCtV : Q; adcIatV : Q; dbwAdc1V : Q; dbwAdc2V : Q;
  adcMapV : Q; adcLambdaV : Q;
  (* Slow6 *)
  adcAn : list Q;                 (* float [10] *)
  (* Slow7 *)
  inputState : Z; outputState : Z; dbwDriverStatus : Z; dbwSystemStatus : Z;
  gasState : Z; atTemp : Z; atState : Z; fuelLevel : Z;
  (* Slow8 *)
  clt : Z; iat : Z; oilT : Z; fuelT : Z; egt1 : Z; egt2 : Z; oilPBar : Q;
  (* Manual override flags *)
  cltOverride : bool; oilTOverride : bool; oilPOverride : bool;
  (* Slow9 *)
  pwmDuty : list Q;               (* float [6] *)
  (* CAN DBC extra fields *)
  afrTarget : Q; rpmHardLimit : Z; knockEvsCnt : Z; mapTargetKpa : Q
}.

(** [a[i]] on an array of floats. *)
Definition qnth (a : list Q) (i : nat) : Q := default 0%Q (a !! i).

(** [rpmToPeriod] *)
Definition rpmToPeriod (rpm : Q) : option Z :=
  if Qle_bool rpm 0 then Some 0
  else
    p ← cast_u32 (10000000 / rpm);
    Some (if 65535 <? p then 65535 else u16 p).

(** [clampU8]; the operand of the final cast lies in [0.5, 255.5], so the
    cast is always defined. *)
Definition clampU8 (v : Q) : Z :=
  if Qltb v 0 then 0
  else if Qltb 255 v then 255
  else u8 (Qtrunc (v + 1 / 2)).

(** [fillSlow0] .. [fillSlow9]: the 11 bytes of the slow packet, the struct
    members in declaration order. *)
Definition fillSlow0 (eng : EngineState) : list Z :=
  [ u8 (corrAngle eng);
    clampU8 (lambdaTarget eng * 128);
    u8 (lambdaCorrFast eng);
    u8 (lambdaCorrSlow eng) ] ++
  le16 (fuelPKpa eng) ++
  [ u8 (dwellTime eng);
    clampU8 (voltageV eng / (1 # 10));
    u8 (gearNo eng);
    u8 (dbwCmdPos eng);
    clampU8 (lambda2Val eng * 128) ].

Definition fillSlow1 (eng : EngineState) : list Z :=
  [ u8 (flagMajor eng);
    u8 (flagMinor eng);
    u8 (flagNotify eng);
    u8 (flagNotify2 eng);
    u8 (flagProtection eng);
    clampU8 (idlePosPercent eng * 256 / 100) ] ++
  le16 (airflow eng) ++
  [ u8 (boostDuty eng);
    u8 (boostTarget eng);
    0 ].

Definition fillSlow2 (eng : EngineState) : list Z :=
  [ u8 (egrCurrPos eng);
    u8 (egrTargetPos eng);
    u8 (injDutyCycle eng) ] ++
  le16 (injLagTime eng) ++
  [ u8 (injEndAngle4 eng);
    u8 (fuelPressCoef eng);
    u8 (airChargeT eng);
    u8 (injAirChargeCorr eng);
    u8 (speed2 eng);
    clampU8 (backPKpa eng / 2) ].

Definition fillSlow3 (eng : EngineState) : list Z :=
  le16 (ignAccelCorr eng) ++
  [ u8 (vvt1Curr eng);
    u8 (vvt1Target eng);
    u8 (vvt2Curr eng);
    u8 (vvt2Target eng);
    u8 (vvt1bCurr eng);
    u8 (vvt2bCurr eng);
    u8 (tcsCorr eng);
    clampU8 (pwm3dTarget eng * 256 / 100);
    clampU8 (pwm3dCurr eng * 256 / 100) ].

Definition fillSlow4 (eng : EngineState) : option (list Z) :=
  TripFuel ← cast_u16 (tripFuelL eng / (1 # 100));
  TripPath ← cast_u16 (tripPathKm eng / (1 # 10));
  CurrFuelCons ← cast_u16 (currFuelCons eng / (1 # 10));
  TripFuelCons ← cast_u16 (tripFuelCons eng / (1 # 10));
  Some (le16 TripFuel ++ le16 TripPath ++ le16 CurrFuelCons ++ le16 TripFuelCons ++
        [ clampU8 (fuelCompPct eng * 256 / 100); 0; 0 ]).

Definition fillSlow5 (eng : EngineState) : list Z :=
  [ clampU8 (adcTpsV eng * 256 / 5);
    clampU8 (adcCtV eng * 256 / 5);
    clampU8 (adcIatV eng * 256 / 5);
    clampU8 (dbwAdc1V eng * 256 / 5);
    clampU8 (dbwAdc2V eng * 256 / 5);
    clampU8 (adcMapV eng * 256 / 5);
    clampU8 (adcLambdaV eng * 256 / 5);
    0; 0; 0; 0 ].

Definition fillSlow6 (eng : EngineState) : list Z :=
  map (fun i => clampU8 (qnth (adcAn eng) i * 256 / 5)) (seq 0 10) ++ [ 0 ].

Definition fillSlow7 (eng : EngineState) : list Z :=
  [ u8 (inputState eng) ] ++
  le16 (outputState eng) ++
  [ u8 (dbwDriverStatus eng);
    u8 (dbwSystemStatus eng);
    u8 (gasState eng);
    u8 (atTemp eng);
    u8 (atState eng);
    u8 (fuelLevel eng);
    0; 0 ].

Definition fillSlow8 (eng : EngineState) : list Z :=
  [ u8 (clt eng);
    u8 (iat eng);
    u8 (oilT eng);
    u8 (fuelT eng);
    0 ] ++
  le16 (egt1 eng) ++
  le16 (egt2 eng) ++
  [ clampU8 (oilPBar eng / (1 # 10)); 0 ].

Definition fillSlow9 (eng : EngineState) : list Z :=
  [ clampU8 (qnth (pwmDuty eng) 0 * 256 / 100);
    clampU8 (qnth (pwmDuty eng) 1 * 256 / 100);
    clampU8 (qnth (pwmDuty eng) 2 * 256 / 100);
    clampU8 (qnth (pwmDuty eng) 3 * 256 / 100);
    clampU8 (qnth (pwmDuty eng) 4 * 256 / 100);
    clampU8 (qnth (pwmDuty eng) 5 * 256 / 100);
    0; 0; 0; 0; 0 ].

(** The [switch (slowPacketIndex)] of [buildAndSend]; without a matching case
    the slow packet keeps the zeros of the [memset]. *)
Definition fillSlow (slowPacketIndex : Z) (eng : EngineState) : option (list Z) :=
  match slowPacketIndex with
  | 0 => Some (fillSlow0 eng)
  | 1 => Some (fillSlow1 eng)
  | 2 => Some (fillSlow2 eng)
  | 3 => Some (fillSlow3 eng)
  | 4 => fillSlow4 eng
  | 5 => Some (fillSlow5 eng)
  | 6 => Some (fillSlow6 eng)
  | 7 => Some (fillSlow7 eng)
  | 8 => Some (fillSlow8 eng)
  | 9 => Some (fillSlow9 eng)
  | _ => Some (replicate 11 0)
  end.

(** The image of [TInfoPacket] that [buildAndSend] lays down in [txbuf]
    (members in declaration order, packed, little-endian), given the values
    of the three casts and the slow packet. *)
Definition packet_image (eng : EngineState) (Uoz Period InjTime : Z)
           (slowPacketIndex : Z) (SlowPacket : list Z) : list Z :=
  [ u8 (sizeof_TInfoPacket + 1);          (* Length *)
    0x01;                                 (* Type *)
    u8 (runlevel eng) ] ++
  le16 Uoz ++
  [ clampU8 (rashodLH eng * 16) ] ++
  le16 Period ++
  le16 InjTime ++
  [ u8 (knockV eng);
    clampU8 (tpsPercent eng * 255 / 100);
    clampU8 (dbwPercent eng * 255 / 100);
    clampU8 (mapKpa eng / 2);
    clampU8 (lambdaVal eng * 128);
    u8 (cylNo eng);
    u8 (transCorr eng);
    u8 (speed eng);
    0; 0; 0; 0 ] ++                       (* per-cylinder and Debug1 *)
  le16 0 ++                               (* Debug2 *)
  [ u8 slowPacketIndex ] ++
  SlowPacket.

Definition build_packet (eng : EngineState) (slowPacketIndex : Z) : option (list Z) :=
  Uoz ← cast_i16 (angleDeg eng / (1 # 4));
  Period ← rpmToPeriod (rpm eng);
  InjTime ← cast_u16 (injTimeMs eng / (4 # 1000));
  SlowPacket ← fillSlow slowPacketIndex eng;
  Some (packet_image eng Uoz Period InjTime slowPacketIndex SlowPacket).

(** [buildAndSend]: the bytes written to the UART and the new
    [slowPacketIndex].  The checksum loop makes 36 passes. *)
Definition buildAndSend (eng : EngineState) (slowPacketIndex : Z)
  : option (list Z * Z) :=
  pkt ← build_packet eng slowPacketIndex;
  crc ← calcChecksum 64 (pkt ++ [0; 0]);
  let txbuf := pkt ++ [ Z.land crc 0xFF; Z.land (Z.shiftr crc 8) 0xFF ] in
  let next := u8 (slowPacketIndex + 1) in
  let next := if TOTAL_SLOW_PACKETS <=? next then 0 else next in
  Some (HEADER ++ txbuf, next).

End CarEmu.

(* ================================================================== *)
(** ** The receive ring buffers *)
(* ================================================================== *)

(** Both rings ([rx_buf]/[rx_head]/[rx_tail] of bsp_can.c and
    [uart_rx_buf]/[uart_rx_head]/[uart_rx_tail] of pico_dashboard.cpp) have
    the same code up to the capacity and the integer type of the indices. *)
Module Ring.

Section ring.
Context {A : Type} `{Inhabited A}.
(** [CAN_RX_BUF_SIZE] or [UART_RX_BUF_SIZE] *)
Variable SIZE : Z.
(** conversion to the type of the indices: [uint8_t] or [uint16_t] *)
Variable wrap : Z -> Z.

Record ring : Type := mk_ring {
  slots : list A;
  head : Z;      (* written by the producer only *)
  tail : Z       (* written by the consumer only *)
}.

(** The producer:
    [next = (head + 1) % SIZE; if (next != tail) { buf[head] = x; head = next; }] *)
Definition push (x : A) (r : ring) : ring :=
  let next := wrap ((head r + 1) mod SIZE) in
  if negb (next =? tail r)
  then mk_ring (<[Z.to_nat (head r) := x]> (slots r)) next (tail r)
  else r.

(** The consumer:
    [if (tail == head) return false; x = buf[tail]; tail = (tail + 1) % SIZE;] *)
Definition pop (r : ring) : option (A * ring) :=
  if tail r =? head r then None
  else Some (slots r !!! Z.to_nat (tail r),
             mk_ring (slots r) (head r) (wrap ((tail r + 1) mod SIZE))).

(** The buffer is full when the producer would run into the consumer. *)
Definition full (r : ring) : bool := wrap ((head r + 1) mod SIZE) =? tail r.

(** Both indices are inside the array. *)
Definition wf (r : ring) : Prop :=
  Z.of_nat (length (slots r)) = SIZE /\
  0 <= head r < SIZE /\ 0 <= tail r < SIZE.

(** The queued items, oldest first: the slots from [tail] up to [head]. *)
Definition count (r : ring) : Z := (head r - tail r) mod SIZE.
Definition contents (r : ring) : list A :=
  map (fun k => slots r !!! Z.to_nat ((tail r + Z.of_nat k) mod SIZE))
      (seq 0 (Z.to_nat (count r))).

(** An interleaving of the two sides. *)
Inductive op : Type :=
| Push (x : A)
| Pop.

(** Running an interleaving; the second component collects what the
    consumer received, oldest first. *)
Fixpoint run (ops : list op) (r : ring) : ring * list A :=
  match ops with
  | [] => (r, [])
  | Push x :: ops' => run ops' (push x r)
  | Pop :: ops' =>
      match pop r with
      | None => run ops' r
      | Some (x, r') => let '(r'', out) := run ops' r' in (r'', x :: out)
      end
  end.

End ring.

Arguments ring A : clear implicits.
Arguments op A : clear implicits.

End Ring.

(** *** bsp_can.c *)

Record bsp_can_frame_t : Type := mk_frame {
  frame_id : Z;            (* uint32_t id *)
  frame_data : list Z;     (* uint8_t data[8] *)
  frame_dlc : Z            (* uint8_t dlc *)
}.

#[global] Instance bsp_can_frame_inhabited : Inhabited bsp_can_frame_t :=
  populate (mk_frame 0 (replicate 8 0) 0).

Definition CAN_RX_BUF_SIZE : Z := 32.

(** [struct can2040_msg] as far as the callback reads it. *)
Record can2040_msg : Type := mk_msg {
  msg_id : Z;
  msg_dlc : Z;
  msg_data : list Z
}.

Section can_ring.
(** [CAN2040_NOTIFY_RX] comes from can2040.h, which is not part of the
    repository. *)
Variable CAN2040_NOTIFY_RX : Z.

(** [can_rx_cb] *)
Definition can_rx_cb (notify : Z) (msg : can2040_msg)
           (r : Ring.ring bsp_can_frame_t) : Ring.ring bsp_can_frame_t :=
  if notify =? CAN2040_NOTIFY_RX
  then Ring.push CAN_RX_BUF_SIZE u8
         (mk_frame (msg_id msg) (take 8 (msg_data msg)) (u8 (msg_dlc msg))) r
  else r.
End can_ring.

(** [bsp_can_recv] *)
Definition bsp_can_recv (r : Ring.ring bsp_can_frame_t)
  : option (bsp_can_frame_t * Ring.ring bsp_can_frame_t) :=
  Ring.pop CAN_RX_BUF_SIZE u8 r.

(** *** pico_dashboard.cpp *)

Definition UART_RX_BUF_SIZE : Z := 256.

(** [uart0_irq_handler]; [fifo] is what the UART has readable, oldest byte
    first. *)
Definition uart0_irq_handler (fifo : list Z) (r : Ring.ring Z) : Ring.ring Z :=
  fold_left (fun r ch => Ring.push UART_RX_BUF_SIZE u16 (u8 ch) r) fifo r.

(** One pass of the drain loop of [main]:
    [byte = uart_rx_buf[uart_rx_tail]; uart_rx_tail = ...; invent_ems_feed_byte(byte);] *)
Definition uart_drain_step (r : Ring.ring Z) (s : parser)
  : option (Ring.ring Z * parser) :=
  '(byte, r') ← Ring.pop UART_RX_BUF_SIZE u16 r;
  Some (r', invent_ems_feed_byte s byte).

(* ================================================================== *)
(** ** Concrete inputs used by the examples *)
(* ================================================================== *)

(** A short buffer with length byte 4. *)
Definition c1_buffer : list Z := [4; 1; 2; 3; 0; 0].

(** A header followed by the length byte 48: the start of a frame that
    never comes. *)
Definition c3_prefix : list Z := [0x55; 0x00; 0xAA; 0x00; 0x54; 48].

(** The shortest valid frame: length byte 4, two bytes, checksum. *)
Definition c3_frame : list Z := wire_frame 4 [1; 2] (checksum [4; 1; 2]).

(** [initEngineState] of CarEmu.c. *)
Definition initEngineState : CarEmu.EngineState :=
  {| CarEmu.rpm := 850; CarEmu.angleDeg := 10; CarEmu.tpsPercent := 5;
     CarEmu.dbwPercent := 5; CarEmu.mapKpa := 35; CarEmu.lambdaVal := 1;
     CarEmu.injTimeMs := 25 # 10; CarEmu.rashodLH := 15 # 10;
     CarEmu.knockV := 10; CarEmu.cylNo := 0; CarEmu.transCorr := 0;
     CarEmu.speed := 0; CarEmu.runlevel := 2;
     CarEmu.corrAngle := -2; CarEmu.lambdaTarget := 1;
     CarEmu.lambdaCorrFast := 3; CarEmu.lambdaCorrSlow := -1;
     CarEmu.fuelPKpa := 300; CarEmu.dwellTime := 35;
     CarEmu.voltageV := 141 # 10; CarEmu.gearNo := 0; CarEmu.dbwCmdPos := 12;
     CarEmu.lambda2Val := 102 # 100;
     CarEmu.flagMajor := 0; CarEmu.flagMinor := 0; CarEmu.flagNotify := 0x10;
     CarEmu.flagNotify2 := 0; CarEmu.flagProtection := 0;
     CarEmu.idlePosPercent := 30; CarEmu.airflow := 120; CarEmu.boostDuty := 0;
     CarEmu.boostTarget := 50;
     CarEmu.egrCurrPos := 0; CarEmu.egrTargetPos := 0; CarEmu.injDutyCycle := 15;
     CarEmu.injLagTime := 120; CarEmu.injEndAngle4 := -20;
     CarEmu.fuelPressCoef := 100; CarEmu.airChargeT := 25;
     CarEmu.injAirChargeCorr := 0; CarEmu.speed2 := 0; CarEmu.backPKpa := 101;
     CarEmu.ignAccelCorr := 0; CarEmu.vvt1Curr := 5; CarEmu.vvt1Target := 10;
     CarEmu.vvt2Curr := 0; CarEmu.vvt2Target := 0; CarEmu.vvt1bCurr := 0;
     CarEmu.vvt2bCurr := 0; CarEmu.tcsCorr := 0; CarEmu.pwm3dTarget := 0;
     CarEmu.pwm3dCurr := 0;
     CarEmu.tripFuelL := 325 # 100; CarEmu.tripPathKm := 425 # 10;
     CarEmu.currFuelCons := 76 # 10; CarEmu.tripFuelCons := 76 # 10;
     CarEmu.fuelCompPct := 0;
     CarEmu.adcTpsV := 8 # 10; CarEmu.adcCtV := 21 # 10; CarEmu.adcIatV := 25 # 10;
     CarEmu.dbwAdc1V := 8 # 10; CarEmu.dbwAdc2V := 32 # 10; CarEmu.adcMapV := 1;
     CarEmu.adcLambdaV := 45 # 100;
     CarEmu.adcAn := replicate 10 1%Q;
     CarEmu.inputState := 0; CarEmu.outputState := 0;
     CarEmu.dbwDriverStatus := 0; CarEmu.dbwSystemStatus := 0;
     CarEmu.gasState := 0; CarEmu.atTemp := 60; CarEmu.atState := 0;
     CarEmu.fuelLevel := 128;
     CarEmu.clt := 85; CarEmu.iat := 30; CarEmu.oilT := 95; CarEmu.fuelT := 35;
     CarEmu.egt1 := 650; CarEmu.egt2 := 640; CarEmu.oilPBar := 35 # 10;
     CarEmu.cltOverride := false; CarEmu.oilTOverride := false;
     CarEmu.oilPOverride := false;
     CarEmu.pwmDuty := [50; 0; 0; 0; 0; 0]%Q;
     CarEmu.afrTarget := 147 # 10; CarEmu.rpmHardLimit := 8000;
     CarEmu.knockEvsCnt := 0; CarEmu.mapTargetKpa := 100 |}.

(** An engine state that is all zero (as after the [memset]) except for the
    ignition angle. *)
Definition engine_with_angle (angle : Q) : CarEmu.EngineState :=
  {| CarEmu.rpm := 0; CarEmu.angleDeg := angle; CarEmu.tpsPercent := 0;
     CarEmu.dbwPercent := 0; CarEmu.mapKpa := 0; CarEmu.lambdaVal := 0;
     CarEmu.injTimeMs := 0; CarEmu.rashodLH := 0;
     CarEmu.knockV := 0; CarEmu.cylNo := 0; CarEmu.transCorr := 0;
     CarEmu.speed := 0; CarEmu.runlevel := 0;
     CarEmu.corrAngle := 0; CarEmu.lambdaTarget := 0;
     CarEmu.lambdaCorrFast := 0; CarEmu.lambdaCorrSlow := 0;
     CarEmu.fuelPKpa := 0; CarEmu.dwellTime := 0;
     CarEmu.voltageV := 0; CarEmu.gearNo := 0; CarEmu.dbwCmdPos := 0;
     CarEmu.lambda2Val := 0;
     CarEmu.flagMajor := 0; CarEmu.flagMinor := 0; CarEmu.flagNotify := 0;
     CarEmu.flagNotify2 := 0; CarEmu.flagProtection := 0;
     CarEmu.idlePosPercent := 0; CarEmu.airflow := 0; CarEmu.boostDuty := 0;
     CarEmu.boostTarget := 0;
     CarEmu.egrCurrPos := 0; CarEmu.egrTargetPos := 0; CarEmu.injDutyCycle := 0;
     CarEmu.injLagTime := 0; CarEmu.injEndAngle4 := 0;
     CarEmu.fuelPressCoef := 0; CarEmu.airChargeT := 0;
     CarEmu.injAirChargeCorr := 0; CarEmu.speed2 := 0; CarEmu.backPKpa := 0;
     CarEmu.ignAccelCorr := 0; CarEmu.vvt1Curr := 0; CarEmu.vvt1Target := 0;
     CarEmu.vvt2Curr := 0; CarEmu.vvt2Target := 0; CarEmu.vvt1bCurr := 0;
     CarEmu.vvt2bCurr := 0; CarEmu.tcsCorr := 0; CarEmu.pwm3dTarget := 0;
     CarEmu.pwm3dCurr := 0;
     CarEmu.tripFuelL := 0; CarEmu.tripPathKm := 0;
     CarEmu.currFuelCons := 0; CarEmu.tripFuelCons := 0;
     CarEmu.fuelCompPct := 0;
     CarEmu.adcTpsV := 0; CarEmu.adcCtV := 0; CarEmu.adcIatV := 0;
     CarEmu.dbwAdc1V := 0; CarEmu.dbwAdc2V := 0; CarEmu.adcMapV := 0;
     CarEmu.adcLambdaV := 0;
     CarEmu.adcAn := replicate 10 0%Q;
     CarEmu.inputState := 0; CarEmu.outputState := 0;
     CarEmu.dbwDriverStatus := 0; CarEmu.dbwSystemStatus := 0;
     CarEmu.gasState := 0; CarEmu.atTemp := 0; CarEmu.atState := 0;
     CarEmu.fuelLevel := 0;
     CarEmu.clt := 0; CarEmu.iat := 0; CarEmu.oilT := 0; CarEmu.fuelT := 0;
     CarEmu.egt1 := 0; CarEmu.egt2 := 0; CarEmu.oilPBar := 0;
     CarEmu.cltOverride := false; CarEmu.oilTOverride := false;
     CarEmu.oilPOverride := false;
     CarEmu.pwmDuty := replicate 6 0%Q;
     CarEmu.afrTarget := 0; CarEmu.rpmHardLimit := 0;
     CarEmu.knockEvsCnt := 0; CarEmu.mapTargetKpa := 0 |}.

(** The frame the emulator sends for the all-zero engine state and slow
    packet 0: header, length byte 37, 35 bytes, checksum 0x8C4C. *)
Definition c6_frame : list Z :=
  [0x55; 0x00; 0xAA; 0x00; 0x54; 37; 1] ++ replicate 34 0 ++ [76; 140].

(** The parser after the header, the length byte 4, two bytes and a first
    checksum byte; the frame is complete with the next byte. *)
Definition c4_state : parser :=
  feed_bytes (invent_ems_init power_on) [0x55; 0x00; 0xAA; 0x00; 0x54; 4; 1; 2; 152].

(** The parser in the version state. *)
Definition c5_state : parser := set_rxstate 4 (invent_ems_init power_on).


(** The two rings at program start: [rx_head = rx_tail = 0]. *)
Definition can_ring_init : Ring.ring bsp_can_frame_t :=
  Ring.mk_ring (replicate 32 inhabitant) 0 0.
Definition uart_ring_init : Ring.ring Z :=
  Ring.mk_ring (replicate 256 0) 0 0.

(* ================================================================== *)
(** ** Notions used to state the round trip *)
(* ================================================================== *)



(** The tables below list, for the fast block and for each slow variant, the
    members the decoder fills together with the engine value the emulator
    encodes there. *)
















(** The frame the emulator sends for [initEngineState] and slow packet 0. *)
Definition c2_frame : list Z :=
  [ 0x55; 0x00; 0xAA; 0x00; 0x54; 37; 1; 2; 40; 0; 24; 244; 45; 113; 2; 10;
    13; 13; 18; 128; 0; 0; 0; 0; 0; 0; 0; 0; 0; 0; 254; 128; 3; 255; 44; 1;
    35; 141; 0; 12; 131; 216; 101 ].

(* ================================================================== *)
(** ** The callers of the decoder, the screen and the emulator's CAN side *)
(* ================================================================== *)

(** *** invent_ems.c: notions for the properties of the checksum *)

(** One round of the checksum on the byte 0, undone: the high byte of the
    result determines the working byte [d], and the low byte then gives the
    old high byte.  Used to show that a round loses no information. *)
Definition crc_unround (t : Z) : Z :=
  let th := Z.shiftr t 8 in
  let tl := Z.land t 0xFF in
  let d := Z.lxor th (Z.shiftr th 5) in
  let lo := Z.land (Z.lxor d (Z.shiftl d 4)) 0xFF in
  let hi := Z.lxor tl (Z.lxor (Z.shiftr d 4) (Z.land (Z.shiftl d 3) 0xFF)) in
  Z.lor (Z.shiftl hi 8) lo.

(** [P] holds of the [n] integers from [z] on. *)
Fixpoint all_from (n : nat) (z : Z) (P : Z -> bool) : bool :=
  match n with
  | O => true
  | S n' => P z && all_from n' (z + 1) P
  end.

(** Two parser states with the same framing state and the same counters;
    the telemetry members and the flag may differ. *)
Definition same_framing (s t : parser) : Prop :=
  rxstate s = rxstate t /\ rxbuf s = rxbuf t /\ rxptr s = rxptr t /\
  packet_count (ecu_data s) = packet_count (ecu_data t) /\
  error_count (ecu_data s) = error_count (ecu_data t).

(** Feeding a sequence of bus frames, oldest first. *)
Definition feed_can_frames (s : parser) (frames : list bsp_can_frame_t) : parser :=
  fold_left (fun s f =>
               (invent_ems_feed_can_frame s (frame_id f) (frame_data f) (frame_dlc f)).1)
            frames s.

(** *** pico_dashboard.cpp: the main loop *)

Definition LVGL_TICK_PERIOD_MS : Z := 1.

(** The drain loop of [main], compiled in the build with
    [ECU_PROTOCOL == ECU_INVENT_EMS]:
    [head = uart_rx_head; while (uart_rx_tail != head) { byte = ...; }],
    run on fuel; [head] is the snapshot taken before the loop. *)
Fixpoint uart_drain_loop (fuel : nat) (head : Z) (r : Ring.ring Z) (s : parser)
  : option (Ring.ring Z * parser) :=
  match fuel with
  | O => None
  | S fuel' =>
      if negb (Ring.tail r =? head)
      then
        let byte := Ring.slots r !!! Z.to_nat (Ring.tail r) in
        let r := Ring.mk_ring (Ring.slots r) (Ring.head r)
                   (u16 ((Ring.tail r + 1) mod UART_RX_BUF_SIZE)) in
        uart_drain_loop fuel' head r (invent_ems_feed_byte s byte)
      else Some (r, s)
  end.

(** The serial part of one pass of the super-loop: drain the ring, then
    [if (invent_ems_has_new_data()) ecu_data_ready = true;]. *)
Definition main_loop_poll (fuel : nat) (r : Ring.ring Z) (s : parser)
           (ecu_data_ready : bool) : option (Ring.ring Z * parser * bool) :=
  '(r, s) ← uart_drain_loop fuel (Ring.head r) r s;
  let '(s, fresh) := invent_ems_has_new_data s in
  Some (r, s, if fresh then true else ecu_data_ready).

(** The end of a pass: [sleep_ms_val = lv_timer_handler();] (a 32-bit value
    stored in a [uint16_t]) and the two clamps. *)
Definition next_sleep_ms (handler_result : Z) : Z :=
  let sleep_ms_val := u16 handler_result in
  let sleep_ms_val := if 500 <? sleep_ms_val then 500 else sleep_ms_val in
  let sleep_ms_val := if sleep_ms_val <? LVGL_TICK_PERIOD_MS
                      then LVGL_TICK_PERIOD_MS else sleep_ms_val in
  sleep_ms_val.

(** The inner loop of [core1_entry], compiled in the build with
    [ECU_PROTOCOL == ECU_ME442] (the default of config.h):
    [while (bsp_can_recv(&frame)) invent_ems_feed_can_frame(...);] on fuel. *)
Fixpoint can_drain_loop (fuel : nat) (r : Ring.ring bsp_can_frame_t) (s : parser)
  : option (Ring.ring bsp_can_frame_t * parser) :=
  match fuel with
  | O => None
  | S fuel' =>
      match bsp_can_recv r with
      | Some (frame, r') =>
          can_drain_loop fuel' r'
            (invent_ems_feed_can_frame s (frame_id frame) (frame_data frame)
                                       (frame_dlc frame)).1
      | None => Some (r, s)
      end
  end.

(** *** ui_dashboard.c: the three arc gauges *)

Definition OIL_PRESSURE_MIN : Q := 0.
Definition OIL_PRESSURE_MAX : Q := 10.
Definition COOLANT_TEMP_MIN : Q := 40.
Definition COOLANT_TEMP_MAX : Q := 120.
Definition OIL_TEMP_MIN : Q := 40.
Definition OIL_TEMP_MAX : Q := 150.

(** [(int32_t)] of a finite float. *)
Definition cast_i32 : Q -> option Z := cast_int (- 2 ^ 31) (2 ^ 31 - 1).

(** [value_to_arc_angle].  With a not-a-number both comparisons are false
    and the cast is undefined; the three callers test [isnan] first. *)
Definition value_to_arc_angle (value : float) (min max : Q) : option Z :=
  match value with
  | NaN => None
  | Fin v =>
      let normalized := ((v - min) / (max - min))%Q in
      let normalized := if Qltb normalized 0 then 0%Q else normalized in
      let normalized := if Qltb 1 normalized then 1%Q else normalized in
      cast_i32 (normalized * 270)
  end.

(** What a value label shows: the two dashes, or the text that [snprintf]
    formats from the value with ["%.1f bar"] or ["%.0f C"]. *)
Inductive label_text : Type :=
| text_dashes
| text_bar (bar : float)
| text_celsius (celsius : float).

(** A gauge: the value given to [lv_arc_set_value] and the text given to
    [lv_label_set_text_static]. *)
Record gauge : Type := mk_gauge {
  arc_value : Z;
  label : label_text
}.

(** [ui_dashboard_set_oil_pressure] *)
Definition ui_dashboard_set_oil_pressure (bar : float) : option gauge :=
  match bar with
  | NaN => Some (mk_gauge 0 text_dashes)
  | Fin _ =>
      a ← value_to_arc_angle bar OIL_PRESSURE_MIN OIL_PRESSURE_MAX;
      Some (mk_gauge a (text_bar bar))
  end.

(** [ui_dashboard_set_coolant_temp] *)
Definition ui_dashboard_set_coolant_temp (celsius : float) : option gauge :=
  match celsius with
  | NaN => Some (mk_gauge 0 text_dashes)
  | Fin _ =>
      a ← value_to_arc_angle celsius COOLANT_TEMP_MIN COOLANT_TEMP_MAX;
      Some (mk_gauge a (text_celsius celsius))
  end.

(** [ui_dashboard_set_oil_temp] *)
Definition ui_dashboard_set_oil_temp (celsius : float) : option gauge :=
  match celsius with
  | NaN => Some (mk_gauge 0 text_dashes)
  | Fin _ =>
      a ← value_to_arc_angle celsius OIL_TEMP_MIN OIL_TEMP_MAX;
      Some (mk_gauge a (text_celsius celsius))
  end.

(** The three gauges of the screen. *)
Record dashboard : Type := mk_dashboard {
  gauge_oil_pressure : gauge;
  gauge_coolant_temp : gauge;
  gauge_oil_temp : gauge
}.

(** [dashboard_update_cb] of pico_dashboard.cpp: the new flag
    [ecu_data_ready] and the screen. *)
Definition dashboard_update_cb (ecu_data_ready : bool) (ecu : invent_ems_data_t)
           (ui : dashboard) : option (bool * dashboard) :=
  if negb ecu_data_ready then Some (ecu_data_ready, ui)
  else
    g1 ← ui_dashboard_set_oil_pressure (fval ecu oil_pressure);
    g2 ← ui_dashboard_set_coolant_temp (fval ecu clt);
    g3 ← ui_dashboard_set_oil_temp (fval ecu oil_temp);
    Some (false, mk_dashboard g1 g2 g3).

(** A gauge shows a value of the given float: dashes and an empty arc for
    not-a-number, otherwise the value as text and an arc inside the sweep of
    270 degrees. *)
Definition gauge_shows (g : gauge) (x : float) (text : float -> label_text) : Prop :=
  match x with
  | NaN => g = mk_gauge 0 text_dashes
  | Fin _ => label g = text x /\ 0 <= arc_value g <= 270
  end.

(** *** CarEmu.c: the transmit callback of the CAN library *)

Record can_status : Type := mk_can_status {
  canRunning : bool;
  canTxOk : Z;        (* uint32_t *)
  canErrors : Z       (* uint32_t *)
}.

Section can2040_cb.
(** [CAN2040_NOTIFY_TX] and [CAN2040_NOTIFY_ERROR] come from can2040.h, which
    is not part of the repository. *)
Variable CAN2040_NOTIFY_TX : Z.
Variable CAN2040_NOTIFY_ERROR : Z.

(** [can2040_cb]; stopping the library with [can2040_stop] shows in
    [canRunning] only. *)
Definition can2040_cb (notify : Z) (c : can_status) : can_status :=
  let c := if negb (Z.land notify CAN2040_NOTIFY_TX =? 0)
           then mk_can_status (canRunning c) (u32 (canTxOk c + 1)) 0
           else c in
  if negb (Z.land notify CAN2040_NOTIFY_ERROR =? 0)
  then
    let c := mk_can_status (canRunning c) (canTxOk c) (u32 (canErrors c + 1)) in
    if 50 <? canErrors c
    then mk_can_status false (canTxOk c) (canErrors c)
    else c
  else c.
End can2040_cb.

(** *** CarEmu.c: the command line *)

Definition CMD_BUF_SIZE : Z := 64.

(** [cmdBuf] and [cmdPos]. *)
Record cmdline : Type := mk_cmdline {
  cmdBuf : list Z;      (* char [CMD_BUF_SIZE] *)
  cmdPos : Z            (* int *)
}.

(** The string a [const char *] argument denotes: the characters before the
    first NUL. *)
Fixpoint c_string (buf : list Z) : list Z :=
  match buf with
  | [] => []
  | c :: buf' => if c =? 0 then [] else c :: c_string buf'
  end.

(** The body of the loop of [processSerialCommands] for one character [ch]
    that [getchar_timeout_us] returned.  The calls of [parseCommand] are
    recorded: the second component lists the command strings in the order of
    the calls.  [(char)ch] keeps the low 8 bits. *)
Definition serial_char (st : cmdline * list (list Z)) (ch : Z)
  : cmdline * list (list Z) :=
  let '(c, calls) := st in
  if (ch =? 10) || (ch =? 13)
  then
    if 0 <? cmdPos c
    then
      let buf := wr (cmdBuf c) (cmdPos c) 0 in
      (mk_cmdline buf 0, calls ++ [c_string buf])
    else (c, calls)
  else
    if cmdPos c <? CMD_BUF_SIZE - 1
    then (mk_cmdline (wr (cmdBuf c) (cmdPos c) (u8 ch)) (cmdPos c + 1), calls)
    else (c, calls).

(** [processSerialCommands] on the characters that are waiting (everything
    [getchar_timeout_us] returns before [PICO_ERROR_TIMEOUT]). *)
Definition processSerialCommands (chars : list Z) (c : cmdline)
  : cmdline * list (list Z) :=
  fold_left serial_char chars (c, []).

(** An ASCII character that does not end a line. *)
Definition line_char (ch : Z) : Prop := 0 < ch < 128 /\ ch <> 10 /\ ch <> 13.

(** *** CarEmu.c: the CAN frames *)

(** An 8-byte message made of four 16-bit values, each copied with [memcpy]
    (little-endian). *)
Definition can_msg_4x16 (id w0 w1 w2 w3 : Z) : can2040_msg :=
  mk_msg id 8 (le16 w0 ++ le16 w1 ++ le16 w2 ++ le16 w3).

(** [(float) n / 0.1f] and the like for an integer member [n]. *)
Definition fdiv_of_int (n : Z) (k : Q) : Q := (inject_Z n / k)%Q.

Definition buildCAN_ME1_1 (eng : CarEmu.EngineState) : option can2040_msg :=
  rpm ← cast_u16 (CarEmu.rpm eng);
  tps ← cast_i16 (CarEmu.tpsPercent eng / (1 # 10));
  map ← cast_u16 (CarEmu.mapKpa eng / (1 # 100));
  iat ← cast_i16 (fdiv_of_int (CarEmu.iat eng) (1 # 10));
  Some (can_msg_4x16 0x300 rpm tps map iat).

Definition buildCAN_ME1_2 (eng : CarEmu.EngineState) : option can2040_msg :=
  let rpmLimit := u16 (CarEmu.rpmHardLimit eng) in
  afr1 ← cast_i16 (CarEmu.lambdaVal eng * (147 # 10) / (1 # 100));
  afr2 ← cast_i16 (CarEmu.lambda2Val eng * (147 # 10) / (1 # 100));
  lambdaTrim ← cast_i16 (fdiv_of_int (CarEmu.lambdaCorrFast eng) (1 # 10));
  Some (can_msg_4x16 0x301 rpmLimit afr1 afr2 lambdaTrim).

Definition buildCAN_ME1_3 (eng : CarEmu.EngineState) : option can2040_msg :=
  ignAdv ← cast_i16 (CarEmu.angleDeg eng / (1 # 10));
  let dwell := u16 (CarEmu.dwellTime eng * 10) in
  injAng ← cast_i16 (fdiv_of_int (CarEmu.injEndAngle4 eng) (1 # 10));
  injPw ← cast_u16 (CarEmu.injTimeMs eng / (1 # 1000));
  Some (can_msg_4x16 0x302 ignAdv dwell injAng injPw).

Definition buildCAN_ME1_4 (eng : CarEmu.EngineState) : option can2040_msg :=
  priDuty ← cast_u16 (fdiv_of_int (CarEmu.injDutyCycle eng) (1 # 10));
  boostD ← cast_u16 (fdiv_of_int (CarEmu.boostDuty eng) (1 # 10));
  Some (can_msg_4x16 0x303 priDuty 0 0 boostD).

Definition buildCAN_ME1_5 (eng : CarEmu.EngineState) : option can2040_msg :=
  oilT ← cast_i16 (fdiv_of_int (CarEmu.oilT eng) (1 # 10));
  oilP ← cast_i16 (CarEmu.oilPBar eng * 100 / (1 # 10));
  clt ← cast_i16 (fdiv_of_int (CarEmu.clt eng) (1 # 10));
  vbat ← cast_i16 (CarEmu.voltageV eng / (1 # 10));
  Some (can_msg_4x16 0x304 oilT oilP clt vbat).

Definition buildCAN_ME1_6 (eng : CarEmu.EngineState) : option can2040_msg :=
  let gear := i16 (CarEmu.gearNo eng) in
  mapTgt ← cast_u16 (CarEmu.mapTargetKpa eng / (1 # 100));
  speed ← cast_u16 (fdiv_of_int (CarEmu.speed eng) (1 # 10));
  Some (can_msg_4x16 0x305 gear mapTgt speed 0).

Definition buildCAN_ME1_7 (eng : CarEmu.EngineState) : option can2040_msg :=
  knock1 ← cast_i16 (fdiv_of_int (CarEmu.knockV eng) (1 # 10));
  let knock2 := knock1 in
  fuelP ← cast_u16 (fdiv_of_int (CarEmu.fuelPKpa eng) (1 # 10));
  fuelT ← cast_i16 (fdiv_of_int (CarEmu.fuelT eng) (1 # 10));
  Some (can_msg_4x16 0x306 knock1 knock2 fuelP fuelT).

Definition buildCAN_ME1_8 (eng : CarEmu.EngineState) : option can2040_msg :=
  egt1 ← cast_i16 (fdiv_of_int (CarEmu.egt1 eng) (1 # 10));
  egt2 ← cast_i16 (fdiv_of_int (CarEmu.egt2 eng) (1 # 10));
  Some (can_msg_4x16 0x307 egt1 egt2 0 0).

(** Only the first two bytes are written after the [memset]. *)
Definition buildCAN_ME1_In1 (eng : CarEmu.EngineState) : option can2040_msg :=
  vspeed ← cast_u16 (fdiv_of_int (CarEmu.speed eng) (1 # 10));
  Some (mk_msg 0x340 8 (le16 vspeed ++ replicate 6 0)).

Definition canBuilders : list (CarEmu.EngineState -> option can2040_msg) :=
  [ buildCAN_ME1_1; buildCAN_ME1_2; buildCAN_ME1_3;
    buildCAN_ME1_4; buildCAN_ME1_5; buildCAN_ME1_6;
    buildCAN_ME1_7; buildCAN_ME1_8; buildCAN_ME1_In1 ].

(** [sendAllCAN]: the messages given to [can2040_transmit], in order (each
    call is repeated until the library takes the message). *)
Definition sendAllCAN (running : bool) (eng : CarEmu.EngineState)
  : option (list can2040_msg) :=
  if negb running then Some []
  else mapM (fun build => build eng) canBuilders.

(** The decoder's answer to a message of the emulator. *)
Definition feed_can_msg (s : parser) (m : can2040_msg) : parser * bool :=
  invent_ems_feed_can_frame s (msg_id m) (msg_data m) (msg_dlc m).

(** The integer members of the engine state hold values of their C types. *)
Definition engine_typed (eng : CarEmu.EngineState) : Prop :=
  -128 <= CarEmu.iat eng <= 127 /\
  -128 <= CarEmu.clt eng <= 127 /\
  -128 <= CarEmu.fuelT eng <= 127 /\
  -128 <= CarEmu.gearNo eng <= 127 /\
  0 <= CarEmu.oilT eng <= 255 /\
  0 <= CarEmu.speed eng <= 255 /\
  0 <= CarEmu.knockV eng <= 255 /\
  0 <= CarEmu.dwellTime eng <= 255 /\
  0 <= CarEmu.fuelPKpa eng <= 65535 /\
  0 <= CarEmu.egt1 eng <= 65535 /\
  0 <= CarEmu.egt2 eng <= 65535.

(** *** CarEmu.c: a run of [buildAndSend] *)

(** [buildAndSend] called once for each engine state of the list (the
    simulation changes the state between the calls): the frames sent and the
    final [slowPacketIndex]. *)
Fixpoint send_frames (engs : list CarEmu.EngineState) (slowPacketIndex : Z)
  : option (list (list Z) * Z) :=
  match engs with
  | [] => Some ([], slowPacketIndex)
  | eng :: engs' =>
      '(frame, next) ← CarEmu.buildAndSend eng slowPacketIndex;
      '(frames, last) ← send_frames engs' next;
      Some (frame :: frames, last)
  end.

(** The command buffer has its 64 characters and the write position leaves
    room for the final NUL. *)
Definition cmdline_wf (c : cmdline) : Prop :=
  length (cmdBuf c) = 64%nat /\ 0 <= cmdPos c <= CMD_BUF_SIZE - 1.

(** The slow packet that carries a float member: [None] for the members of
    the fast block, which every frame carries. *)
Definition float_group (f : ffield) : option Z :=
  match f with
  | rpm | ign_angle | inj_time_ms | tps | dbw_pos | map_kpa | lambda | speed
  | fuel_flow | knock_v => None
  | lambda_target | fuel_pressure_kpa | dwell_ms | voltage | dbw_cmd | lambda2 => Some 0
  | idle_pos => Some 1
  | back_pressure_kpa => Some 2
  | pwm3d_target | pwm3d_curr => Some 3
  | trip_fuel_l | trip_path_km | curr_fuel_cons | trip_fuel_cons
  | fuel_composition => Some 4
  | clt | iat | oil_temp | fuel_temp | egt1 | egt2 | oil_pressure => Some 8
  | pwm_duty _ => Some 9
  end.

(** The decoded float is exactly the integer [n]. *)
Definition shows_int (x : float) (n : Z) : Prop :=
  match x with
  | NaN => False
  | Fin q => (q == inject_Z n)%Q
  end.

(** The engine state [eng] with other exhaust temperatures. *)
Definition with_exhaust (eng : CarEmu.EngineState) (egt1 egt2 : Z)
  : CarEmu.EngineState :=
  {| CarEmu.rpm := CarEmu.rpm eng; CarEmu.angleDeg := CarEmu.angleDeg eng;
     CarEmu.tpsPercent := CarEmu.tpsPercent eng;
     CarEmu.dbwPercent := CarEmu.dbwPercent eng; CarEmu.mapKpa := CarEmu.mapKpa eng;
     CarEmu.lambdaVal := CarEmu.lambdaVal eng; CarEmu.injTimeMs := CarEmu.injTimeMs eng;
     CarEmu.rashodLH := CarEmu.rashodLH eng; CarEmu.knockV := CarEmu.knockV eng;
     CarEmu.cylNo := CarEmu.cylNo eng; CarEmu.transCorr := CarEmu.transCorr eng;
     CarEmu.speed := CarEmu.speed eng; CarEmu.runlevel := CarEmu.runlevel eng;
     CarEmu.corrAngle := CarEmu.corrAngle eng;
     CarEmu.lambdaTarget := CarEmu.lambdaTarget eng;
     CarEmu.lambdaCorrFast := CarEmu.lambdaCorrFast eng;
     CarEmu.lambdaCorrSlow := CarEmu.lambdaCorrSlow eng;
     CarEmu.fuelPKpa := CarEmu.fuelPKpa eng; CarEmu.dwellTime := CarEmu.dwellTime eng;
     CarEmu.voltageV := CarEmu.voltageV eng; CarEmu.gearNo := CarEmu.gearNo eng;
     CarEmu.dbwCmdPos := CarEmu.dbwCmdPos eng;
     CarEmu.lambda2Val := CarEmu.lambda2Val eng;
     CarEmu.flagMajor := CarEmu.flagMajor eng; CarEmu.flagMinor := CarEmu.flagMinor eng;
     CarEmu.flagNotify := CarEmu.flagNotify eng;
     CarEmu.flagNotify2 := CarEmu.flagNotify2 eng;
     CarEmu.flagProtection := CarEmu.flagProtection eng;
     CarEmu.idlePosPercent := CarEmu.idlePosPercent eng;
     CarEmu.airflow := CarEmu.airflow eng; CarEmu.boostDuty := CarEmu.boostDuty eng;
     CarEmu.boostTarget := CarEmu.boostTarget eng;
     CarEmu.egrCurrPos := CarEmu.egrCurrPos eng;
     CarEmu.egrTargetPos := CarEmu.egrTargetPos eng;
     CarEmu.injDutyCycle := CarEmu.injDutyCycle eng;
     CarEmu.injLagTime := CarEmu.injLagTime eng;
     CarEmu.injEndAngle4 := CarEmu.injEndAngle4 eng;
     CarEmu.fuelPressCoef := CarEmu.fuelPressCoef eng;
     CarEmu.airChargeT := CarEmu.airChargeT eng;
     CarEmu.injAirChargeCorr := CarEmu.injAirChargeCorr eng;
     CarEmu.speed2 := CarEmu.speed2 eng; CarEmu.backPKpa := CarEmu.backPKpa eng;
     CarEmu.ignAccelCorr := CarEmu.ignAccelCorr eng;
     CarEmu.vvt1Curr := CarEmu.vvt1Curr eng; CarEmu.vvt1Target := CarEmu.vvt1Target eng;
     CarEmu.vvt2Curr := CarEmu.vvt2Curr eng; CarEmu.vvt2Target := CarEmu.vvt2Target eng;
     CarEmu.vvt1bCurr := CarEmu.vvt1bCurr eng; CarEmu.vvt2bCurr := CarEmu.vvt2bCurr eng;
     CarEmu.tcsCorr := CarEmu.tcsCorr eng; CarEmu.pwm3dTarget := CarEmu.pwm3dTarget eng;
     CarEmu.pwm3dCurr := CarEmu.pwm3dCurr eng; CarEmu.tripFuelL := CarEmu.tripFuelL eng;
     CarEmu.tripPathKm := CarEmu.tripPathKm eng;
     CarEmu.currFuelCons := CarEmu.currFuelCons eng;
     CarEmu.tripFuelCons := CarEmu.tripFuelCons eng;
     CarEmu.fuelCompPct := CarEmu.fuelCompPct eng; CarEmu.adcTpsV := CarEmu.adcTpsV eng;
     CarEmu.adcCtV := CarEmu.adcCtV eng; CarEmu.adcIatV := CarEmu.adcIatV eng;
     CarEmu.dbwAdc1V := CarEmu.dbwAdc1V eng; CarEmu.dbwAdc2V := CarEmu.dbwAdc2V eng;
     CarEmu.adcMapV := CarEmu.adcMapV eng; CarEmu.adcLambdaV := CarEmu.adcLambdaV eng;
     CarEmu.adcAn := CarEmu.adcAn eng; CarEmu.inputState := CarEmu.inputState eng;
     CarEmu.outputState := CarEmu.outputState eng;
     CarEmu.dbwDriverStatus := CarEmu.dbwDriverStatus eng;
     CarEmu.dbwSystemStatus := CarEmu.dbwSystemStatus eng;
     CarEmu.gasState := CarEmu.gasState eng; CarEmu.atTemp := CarEmu.atTemp eng;
     CarEmu.atState := CarEmu.atState eng; CarEmu.fuelLevel := CarEmu.fuelLevel eng;
     CarEmu.clt := CarEmu.clt eng; CarEmu.iat := CarEmu.iat eng;
     CarEmu.oilT := CarEmu.oilT eng; CarEmu.fuelT := CarEmu.fuelT eng;
     CarEmu.egt1 := egt1; CarEmu.egt2 := egt2; CarEmu.oilPBar := CarEmu.oilPBar eng;
     CarEmu.cltOverride := CarEmu.cltOverride eng;
     CarEmu.oilTOverride := CarEmu.oilTOverride eng;
     CarEmu.oilPOverride := CarEmu.oilPOverride eng;
     CarEmu.pwmDuty := CarEmu.pwmDuty eng; CarEmu.afrTarget := CarEmu.afrTarget eng;
     CarEmu.rpmHardLimit := CarEmu.rpmHardLimit eng;
     CarEmu.knockEvsCnt := CarEmu.knockEvsCnt eng;
     CarEmu.mapTargetKpa := CarEmu.mapTargetKpa eng |}.

(** The same for the integer members. *)
Definition int_group (g : ifield) : option Z :=
  match g with
  | transient_corr | runlevel | cyl_no => None
  | corr_angle | lambda_corr_fast | lambda_corr_slow | gear => Some 0
  | flag_major | flag_minor | flag_notify | flag_notify2 | flag_protection
  | airflow | boost_duty | boost_target => Some 1
  | egr_pos | egr_target | inj_duty | inj_lag_time | inj_end_angle
  | fuel_press_coef | air_charge_t | inj_air_charge_corr | speed2 => Some 2
  | ign_accel_corr | vvt1_curr | vvt1_target | vvt2_curr | vvt2_target
  | vvt1b_curr | vvt2b_curr | tcs_corr => Some 3
  | adc_tps | adc_ct | adc_iat | adc_dbw1 | adc_dbw2 | adc_map | adc_lambda => Some 5
  | adc_an _ => Some 6
  | input_state | output_state | dbw_driver_status | dbw_system_status
  | gas_state | at_temp | at_state | fuel_level => Some 7
  end.

(** *** ui_debug_console.c: the statistics overlay *)

(** [bsp_can_stats_t] of bsp_can.h. *)
Record bsp_can_stats_t : Type := mk_stats {
  rx_total : Z;          (* uint32_t *)
  tx_total : Z;
  tx_attempt : Z;
  parse_error : Z;
  sys_clk_hz : Z;
  irq_count : Z;
  stats_connected : bool;
  rx_pin_raw : Z;        (* uint8_t *)
  err_state : Z
}.

(** The arguments of the [snprintf] of [ui_debug_console_update_stats], in
    their order. *)
Record stats_text : Type := mk_stats_text {
  shown_uart_ok : bool;
  shown_uart_pkts : Z;
  shown_uart_rate : Z;
  shown_uart_errs : Z;
  shown_can_ok : bool;
  shown_can_rx : Z;
  shown_can_tx : Z;
  shown_can_attempt : Z;
  shown_can_rate : Z;
  shown_can_parse_error : Z;
  shown_irq_count : Z;
  shown_clk_mhz : Z;
  shown_rx_pin : Z;
  shown_err_state : Z
}.

(** The statics of ui_debug_console.c; [console_label] is [None] while the
    label still has its first text. *)
Record console : Type := mk_console {
  console_visible : bool;
  prev_uart_pkts : Z;     (* uint32_t *)
  prev_can_rx : Z;        (* uint32_t *)
  console_label : option stats_text
}.

(** [dashboard_click_cb] and [panel_click_cb] *)
Definition dashboard_click_cb (c : console) : console :=
  if negb (console_visible c)
  then mk_console true (prev_uart_pkts c) (prev_can_rx c) (console_label c)
  else c.

Definition panel_click_cb (c : console) : console :=
  if console_visible c
  then mk_console false (prev_uart_pkts c) (prev_can_rx c) (console_label c)
  else c.

(** [ui_debug_console_update_stats] *)
Definition ui_debug_console_update_stats (uart_pkts uart_errs : Z)
           (uart_connected : bool) (can : bsp_can_stats_t) (c : console) : console :=
  if negb (console_visible c) then c
  else
    let uart_rate := u32 (u32 (uart_pkts - prev_uart_pkts c) * 5) in
    let can_rate := u32 (u32 (rx_total can - prev_can_rx c) * 5) in
    mk_console (console_visible c) uart_pkts (rx_total can)
      (Some (mk_stats_text uart_connected uart_pkts uart_rate uart_errs
               (stats_connected can) (rx_total can) (tx_total can) (tx_attempt can)
               can_rate (parse_error can) (irq_count can)
               (sys_clk_hz can / 1000000) (rx_pin_raw can) (err_state can))).

(* ================================================================== *)
(** * Properties *)
(* ================================================================== *)

(** ** Machine integers *)

Lemma u8_range x : 0 <= u8 x < 256.
Proof. unfold u8. apply Z.mod_pos_bound. lia. Qed.

Lemma u16_range x : 0 <= u16 x < 65536.
Proof. unfold u16. apply Z.mod_pos_bound. lia. Qed.

Lemma u32_range x : 0 <= u32 x < 4294967296.
Proof. unfold u32. apply Z.mod_pos_bound. lia. Qed.

Lemma u8_small x : 0 <= x < 256 -> u8 x = x.
Proof. intros. unfold u8. apply Z.mod_small. lia. Qed.

Lemma u16_small x : 0 <= x < 65536 -> u16 x = x.
Proof. intros. unfold u16. apply Z.mod_small. lia. Qed.

Lemma u8_land x : u8 x = Z.land x 255.
Proof. unfold u8. symmetry. apply (Z.land_ones x 8). lia. Qed.

Lemma land_255_range x : 0 <= Z.land x 255 < 256.
Proof. rewrite <- u8_land. apply u8_range. Qed.

(** Bitwise operations stay below the power of two that bounds their
    operands. *)
Lemma below_pow2_bits n a :
  0 <= n -> 0 <= a ->
  (a < 2 ^ n <-> forall i, n <= i -> Z.testbit a i = false).
Proof.
  intros Hn Ha. split.
  - intros Hlt i Hi. destruct (Z.eq_dec a 0) as [-> | Hne].
    + apply Z.bits_0.
    + apply Z.bits_above_log2; [lia|].
      assert (Z.log2 a < n) by (apply Z.log2_lt_pow2; lia). lia.
  - intros Hbits. destruct (Z.eq_dec a 0) as [-> | Hne]; [apply Z.pow_pos_nonneg; lia|].
    apply Z.log2_lt_pow2; [lia|].
    destruct (Z_lt_le_dec (Z.log2 a) n) as [|Hge]; [assumption|].
    specialize (Hbits (Z.log2 a) Hge).
    rewrite Z.bit_log2 in Hbits by lia. discriminate.
Qed.

Lemma lxor_range n a b :
  0 <= n -> 0 <= a < 2 ^ n -> 0 <= b < 2 ^ n -> 0 <= Z.lxor a b < 2 ^ n.
Proof.
  intros Hn [Ha Ha'] [Hb Hb'].
  assert (H0 : 0 <= Z.lxor a b) by (apply Z.lxor_nonneg; lia).
  split; [assumption|].
  apply below_pow2_bits; [lia..|]. intros i Hi.
  rewrite Z.lxor_spec.
  rewrite (proj1 (below_pow2_bits n a Hn Ha) Ha' i Hi).
  rewrite (proj1 (below_pow2_bits n b Hn Hb) Hb' i Hi). reflexivity.
Qed.

Lemma lor_range n a b :
  0 <= n -> 0 <= a < 2 ^ n -> 0 <= b < 2 ^ n -> 0 <= Z.lor a b < 2 ^ n.
Proof.
  intros Hn [Ha Ha'] [Hb Hb'].
  assert (H0 : 0 <= Z.lor a b) by (apply Z.lor_nonneg; lia).
  split; [assumption|].
  apply below_pow2_bits; [lia..|]. intros i Hi.
  rewrite Z.lor_spec.
  rewrite (proj1 (below_pow2_bits n a Hn Ha) Ha' i Hi).
  rewrite (proj1 (below_pow2_bits n b Hn Hb) Hb' i Hi). reflexivity.
Qed.

Lemma shiftl_range a k m :
  0 <= k -> 0 <= a < m -> 0 <= Z.shiftl a k < m * 2 ^ k.
Proof.
  intros Hk [Ha Ha']. rewrite Z.shiftl_mul_pow2 by lia.
  assert (0 < 2 ^ k) by (apply Z.pow_pos_nonneg; lia). nia.
Qed.

Lemma shiftr_range a k m :
  0 <= k -> 0 <= a < m * 2 ^ k -> 0 <= Z.shiftr a k < m.
Proof.
  intros Hk [Ha Ha']. rewrite Z.shiftr_div_pow2 by lia.
  assert (0 < 2 ^ k) by (apply Z.pow_pos_nonneg; lia).
  split; [apply Z.div_pos; lia|]. apply Z.div_lt_upper_bound; lia.
Qed.

(** Truncating an operand of an exclusive or before truncating the result
    changes nothing. *)
Lemma u8_lxor_u8_r a c : u8 (Z.lxor a (u8 c)) = u8 (Z.lxor a c).
Proof.
  rewrite !u8_land. apply Z.bits_inj'. intros i Hi.
  rewrite !Z.land_spec, !Z.lxor_spec, !Z.land_spec.
  destruct (Z.testbit 255 i); [rewrite !andb_true_r | rewrite !andb_false_r]; reflexivity.
Qed.

(** ** C1: the checksum *)

Lemma calc_round_crc_round crc b : calc_round crc b = crc_round crc b.
Proof.
  unfold calc_round, crc_round. cbv zeta.
  rewrite (u8_small (Z.land crc 255)) by apply land_255_range.
  rewrite u8_lxor_u8_r. reflexivity.
Qed.

Lemma crc_round_range crc b : 0 <= crc_round crc b < 65536.
Proof. unfold crc_round. cbv zeta. apply u16_range. Qed.

Lemma crc_round_spec_step crc b :
  is_byte b -> 0 <= crc < 65536 -> crc_round crc b = spec_step crc b.
Proof.
  intros Hb Hc. unfold crc_round, spec_step. cbv zeta.
  rewrite (u8_small (Z.land crc 255)) by apply land_255_range.
  assert (H1 : 0 <= Z.lxor b (Z.land crc 255) < 256).
  { apply (lxor_range 8); [lia | exact Hb | apply land_255_range]. }
  rewrite (u8_small (Z.lxor b (Z.land crc 255))) by exact H1.
  set (d1 := Z.lxor b (Z.land crc 255)) in *.
  rewrite u8_lxor_u8_r, u8_land.
  set (d2 := Z.land (Z.lxor d1 (Z.shiftl d1 4)) 255).
  assert (H2 : 0 <= d2 < 256) by apply land_255_range.
  rewrite (u16_small d2) by lia.
  assert (Hhi : 0 <= Z.shiftr crc 8 < 256) by (apply shiftr_range; lia).
  assert (Hland : Z.land (Z.shiftr crc 8) 255 = Z.shiftr crc 8).
  { rewrite <- u8_land. apply u8_small. exact Hhi. }
  rewrite Hland.
  assert (Hsl : 0 <= Z.shiftl d2 8 < 65536).
  { pose proof (shiftl_range d2 8 256). lia. }
  assert (Ht1 : 0 <= Z.lor (Z.shiftl d2 8) (Z.shiftr crc 8) < 65536).
  { apply (lor_range 16); lia. }
  rewrite (u16_small _ Ht1).
  assert (Hlo : 0 <= Z.shiftr d2 4 < 16) by (apply shiftr_range; lia).
  rewrite (u8_small (Z.shiftr d2 4)) by lia.
  assert (Ht2 : 0 <= Z.lxor (Z.lor (Z.shiftl d2 8) (Z.shiftr crc 8)) (Z.shiftr d2 4) < 65536).
  { apply (lxor_range 16); lia. }
  rewrite (u16_small _ Ht2).
  assert (Hs3 : 0 <= Z.shiftl d2 3 < 2048).
  { pose proof (shiftl_range d2 3 256). lia. }
  apply u16_small. apply (lxor_range 16); lia.
Qed.

Lemma rd_lookup (buf : list Z) (n : nat) x :
  buf !! n = Some x -> rd buf (Z.of_nat n) = x.
Proof.
  intros H. unfold rd.
  destruct (Z.ltb_spec (Z.of_nat n) 0); [lia|].
  rewrite Nat2Z.id, H. reflexivity.
Qed.

Lemma rd_byte (buf : list Z) i : Forall is_byte buf -> is_byte (rd buf i).
Proof.
  intros Hb. unfold rd. destruct (i <? 0); [red; lia|].
  destruct (buf !! Z.to_nat i) as [x|] eqn:E; simpl; [|red; lia].
  eapply Forall_lookup_1; eassumption.
Qed.

Lemma crc_for_S n buf i crc :
  crc_for (S n) buf i crc = crc_for n buf (i + 1) (crc_round crc (rd buf i)).
Proof. unfold crc_for at 1. fold crc_for. reflexivity. Qed.

Lemma calc_loop_S fuel buffer len i crc :
  calc_loop (S fuel) buffer len i crc =
    if i <=? len
    then calc_loop fuel buffer len (u8 (i + 1)) (calc_round crc (rd buffer i))
    else Some crc.
Proof. unfold calc_loop at 1. fold calc_loop. reflexivity. Qed.

(** The decoder's loop is the left fold of the specification's step over the
    bytes it visits. *)
Lemma crc_for_fold (buf : list Z) :
  Forall is_byte buf ->
  forall (n i : nat) crc,
    (i + n <= length buf)%nat -> 0 <= crc < 65536 ->
    crc_for n buf (Z.of_nat i) crc = fold_left spec_step (take n (drop i buf)) crc.
Proof.
  intros Hb. induction n as [|n IH]; intros i crc Hlen Hc; [reflexivity|].
  destruct (lookup_lt_is_Some_2 buf i) as [x Hx]; [lia|].
  rewrite (drop_S _ _ _ Hx), crc_for_S, firstn_cons. cbn [fold_left].
  rewrite (rd_lookup _ _ _ Hx).
  assert (Hxb : is_byte x) by (eapply Forall_lookup_1; eassumption).
  rewrite <- (crc_round_spec_step crc x Hxb Hc).
  replace (Z.of_nat i + 1) with (Z.of_nat (S i)) by lia.
  apply IH; [lia | apply crc_round_range].
Qed.

(** The emulator's loop returns, on enough fuel, what the decoder's loop
    computes, as long as the 8-bit counter cannot wrap. *)
Lemma calc_loop_crc_for (buf : list Z) len :
  0 <= len < 255 ->
  forall (n fuel : nat) i crc,
    0 <= i -> i + Z.of_nat n = len + 1 -> (n < fuel)%nat ->
    calc_loop fuel buf len i crc = Some (crc_for n buf i crc).
Proof.
  intros Hlen. induction n as [|n IH]; intros fuel i crc Hi Hn Hf.
  - destruct fuel as [|fuel]; [lia|]. rewrite calc_loop_S.
    destruct (Z.leb_spec i len); [lia | reflexivity].
  - destruct fuel as [|fuel]; [lia|]. rewrite calc_loop_S, crc_for_S.
    destruct (Z.leb_spec i len); [|lia].
    rewrite (u8_small (i + 1)) by lia.
    rewrite calc_round_crc_round. apply IH; lia.
Qed.

(** C1.  For every byte buffer whose length byte [L = buf[0]] lies in
    [4, 48] (and which holds the [L - 1] bytes the checksum covers), the
    decoder's [checksum] and the emulator's [calcChecksum] both return the
    value the specification's algorithm computes over [buf[0 .. L-2]]; in
    particular they agree. *)
Theorem checksum_matches_spec (buf : list Z) :
  Forall is_byte buf ->
  4 <= rd buf 0 <= 48 ->
  rd buf 0 - 1 <= Z.of_nat (length buf) ->
  checksum buf = spec_checksum buf /\
  (forall fuel, (48 <= fuel)%nat -> calcChecksum fuel buf = Some (spec_checksum buf)) /\
  (forall fuel, (48 <= fuel)%nat -> calcChecksum fuel buf = Some (checksum buf)).
Proof.
  intros Hb HL Hlen.
  assert (Hu : u8 (rd buf 0 - 2) = rd buf 0 - 2) by (apply u8_small; lia).
  assert (Hfold : crc_for (Z.to_nat (rd buf 0 - 2 + 1)) buf 0 65535 = spec_checksum buf).
  { unfold spec_checksum.
    rewrite (crc_for_fold buf Hb _ 0%nat 65535); [|lia|lia].
    rewrite drop_0. do 2 f_equal. lia. }
  assert (Hdec : checksum buf = spec_checksum buf).
  { unfold checksum. cbv zeta. rewrite Hu. unfold MAX_RX_BUF.
    destruct (Z.leb_spec (64 - 2) (rd buf 0 - 2)); [lia | exact Hfold]. }
  assert (Hemu : forall fuel, (48 <= fuel)%nat ->
                   calcChecksum fuel buf = Some (spec_checksum buf)).
  { intros fuel Hf. unfold calcChecksum. cbv zeta. rewrite Hu.
    rewrite (calc_loop_crc_for buf (rd buf 0 - 2) ltac:(lia)
               (Z.to_nat (rd buf 0 - 2 + 1)) fuel 0 65535); [|lia..].
    f_equal. exact Hfold. }
  split; [exact Hdec|]. split; [exact Hemu|].
  intros fuel Hf. rewrite Hdec. apply Hemu, Hf.
Qed.

Lemma checksum_matches_spec_witness :
  checksum c1_buffer = spec_checksum c1_buffer /\
  calcChecksum 48 c1_buffer = Some (checksum c1_buffer).
Proof.
  assert (Hb : Forall is_byte c1_buffer).
  { unfold c1_buffer. repeat constructor; unfold is_byte; lia. }
  assert (HL : 4 <= rd c1_buffer 0 <= 48) by (vm_compute; split; discriminate).
  assert (Hlen : rd c1_buffer 0 - 1 <= Z.of_nat (length c1_buffer)) by (vm_compute; discriminate).
  destruct (checksum_matches_spec c1_buffer Hb HL Hlen) as (H1 & _ & H3).
  split; [exact H1 | apply H3; lia].
Defined.

(** ** The state machine of [invent_ems_feed_byte] *)

(** [retry] is only set together with a reset to state 0. *)
Lemma feed_switch_retry s b s' :
  feed_switch s b = (s', true) -> s' = set_rxstate 0 s.
Proof.
  unfold feed_switch. intros Hsw.
  repeat case_match; simplify_eq; reflexivity.
Qed.

(** Case 0 never asks for another pass. *)
Lemma feed_switch_state0 s b :
  rxstate s = 0 ->
  feed_switch s b = (if b =? HEADER_0 then set_rxstate 1 s else s, false).
Proof.
  intros H0. unfold feed_switch. rewrite H0.
  destruct (b =? HEADER_0); reflexivity.
Qed.

(** The [do ... while (retry)] loop stops after at most two passes, whatever
    the state and the byte. *)
Lemma feed_loop_terminates s b n :
  feed_loop (S (S n)) s b = Some (invent_ems_feed_byte s b).
Proof.
  unfold invent_ems_feed_byte. cbn [feed_loop].
  destruct (feed_switch s b) as [s1 [|]] eqn:E1; [|reflexivity].
  apply feed_switch_retry in E1. subst s1.
  rewrite (feed_switch_state0 (set_rxstate 0 s) b eq_refl). reflexivity.
Qed.

Lemma feed_byte_no_retry s b s' :
  feed_switch s b = (s', false) -> invent_ems_feed_byte s b = s'.
Proof. intros E. unfold invent_ems_feed_byte. cbn [feed_loop]. rewrite E. reflexivity. Qed.

Lemma feed_byte_retry s b :
  feed_switch s b = (set_rxstate 0 s, true) ->
  invent_ems_feed_byte s b = invent_ems_feed_byte (set_rxstate 0 s) b.
Proof.
  intros E. unfold invent_ems_feed_byte at 1. cbn [feed_loop]. rewrite E.
  rewrite (feed_switch_state0 (set_rxstate 0 s) b eq_refl).
  symmetry. apply feed_byte_no_retry. apply feed_switch_state0. reflexivity.
Qed.

(** In the states 1 to 4 a byte other than the expected one asks for a
    second pass in state 0. *)
Lemma feed_switch_resync (s : parser) (b : Z) :
  1 <= rxstate s <= 4 ->
  b <> expected_byte (rxstate s) ->
  feed_switch s b = (set_rxstate 0 s, true).
Proof.
  intros Hst Hb. unfold feed_switch.
  assert (Hcases : rxstate s = 1 \/ rxstate s = 2 \/ rxstate s = 3 \/ rxstate s = 4) by lia.
  destruct Hcases as [E|[E|[E|E]]]; rewrite E in Hb |- *; cbn in Hb |- *;
    (match goal with |- context [b =? ?h] =>
       destruct (Z.eqb_spec b h) as [Heq|_]; [contradiction | reflexivity] end).
Qed.

Lemma feed_byte_state0 s b :
  rxstate s = 0 ->
  invent_ems_feed_byte s b = if b =? HEADER_0 then set_rxstate 1 s else s.
Proof. intros H0. apply feed_byte_no_retry, feed_switch_state0, H0. Qed.

Lemma feed_byte_resync (s : parser) (b : Z) :
  1 <= rxstate s <= 4 ->
  b <> expected_byte (rxstate s) ->
  invent_ems_feed_byte s b = set_rxstate (if b =? HEADER_0 then 1 else 0) s.
Proof.
  intros Hst Hb.
  rewrite (feed_byte_retry _ _ (feed_switch_resync s b Hst Hb)).
  rewrite (feed_byte_state0 (set_rxstate 0 s) b eq_refl).
  destruct (b =? HEADER_0); reflexivity.
Qed.

(** C5.  In the sync states 1 to 3 and in the version state 4, a byte that
    is not the expected one resets the state machine to state 0 and is looked
    at again, in the same call, as a possible first sync byte: the call does
    what a call in state 0 does with that byte, so the byte starts a new
    frame when it is 0x55 and nothing else of the parser changes. *)
Theorem mismatch_reevaluates_byte (s : parser) (b : Z) :
  1 <= rxstate s <= 4 ->
  b <> expected_byte (rxstate s) ->
  feed_switch s b = (set_rxstate 0 s, true) /\
  invent_ems_feed_byte s b = invent_ems_feed_byte (set_rxstate 0 s) b /\
  invent_ems_feed_byte s b = set_rxstate (if b =? HEADER_0 then 1 else 0) s.
Proof.
  intros Hst Hb.
  pose proof (feed_switch_resync s b Hst Hb) as Hsw.
  split; [exact Hsw|]. split.
  - apply feed_byte_retry, Hsw.
  - unfold invent_ems_feed_byte. cbn [feed_loop]. rewrite Hsw.
    rewrite (feed_switch_state0 (set_rxstate 0 s) b eq_refl).
    destruct (b =? HEADER_0); reflexivity.
Qed.

Lemma feed_byte_state6 s b :
  rxstate s = 6 ->
  invent_ems_feed_byte s b =
    let a := accumulate s b in
    if rd (rxbuf a) 0 <? rxptr a then verify a else a.
Proof.
  intros H6. apply feed_byte_no_retry. unfold feed_switch. rewrite H6.
  cbv zeta. destruct (rd (rxbuf (accumulate s b)) 0 <? rxptr (accumulate s b)); reflexivity.
Qed.

Lemma accumulate_ecu_data s b : ecu_data (accumulate s b) = ecu_data s.
Proof. unfold accumulate. destruct (rxptr s <? MAX_RX_BUF); reflexivity. Qed.

Lemma accumulate_new_data_flag s b : new_data_flag (accumulate s b) = new_data_flag s.
Proof. unfold accumulate. destruct (rxptr s <? MAX_RX_BUF); reflexivity. Qed.

(** ** What the decoders write *)

Lemma verify_match a :
  checksum (rxbuf a) = crc_rx a -> verify a = set_rxstate 0 (parse_packet a).
Proof.
  intros E. unfold verify. cbv zeta.
  destruct (Z.eqb_spec (checksum (rxbuf a)) (crc_rx a)); [reflexivity | contradiction].
Qed.

Lemma verify_mismatch a :
  checksum (rxbuf a) <> crc_rx a ->
  verify a = set_rxstate 0 (set_ecu_data
               (set_error_count (u32 (error_count (ecu_data a) + 1)) (ecu_data a)) a).
Proof.
  intros E. unfold verify. cbv zeta.
  destruct (Z.eqb_spec (checksum (rxbuf a)) (crc_rx a)); [contradiction | reflexivity].
Qed.

Lemma feed_byte_complete s b :
  rxstate s = 6 ->
  rd (rxbuf (accumulate s b)) 0 < rxptr (accumulate s b) ->
  invent_ems_feed_byte s b = verify (accumulate s b).
Proof.
  intros H6 Hfull. rewrite (feed_byte_state6 s b H6). cbv zeta.
  destruct (Z.ltb_spec (rd (rxbuf (accumulate s b)) 0) (rxptr (accumulate s b)));
    [reflexivity | lia].
Qed.

Lemma feed_byte_incomplete s b :
  rxstate s = 6 ->
  rxptr (accumulate s b) <= rd (rxbuf (accumulate s b)) 0 ->
  invent_ems_feed_byte s b = accumulate s b.
Proof.
  intros H6 Hfull. rewrite (feed_byte_state6 s b H6). cbv zeta.
  destruct (Z.ltb_spec (rd (rxbuf (accumulate s b)) 0) (rxptr (accumulate s b)));
    [lia | reflexivity].
Qed.




Lemma parse_fast_status buf d :
  connected (parse_fast buf d) = connected d /\
  packet_count (parse_fast buf d) = packet_count d /\
  error_count (parse_fast buf d) = error_count d.
Proof. destruct d. repeat split. Qed.

(** C4.  When the byte that completes a frame arrives ([rxptr] passes the
    length byte) and the two trailing bytes, read little-endian, differ from
    the computed checksum, then [error_count] goes up by one (as a
    [uint32_t]), no other member of the telemetry record changes, the
    new-data flag keeps its value and the parser is back in state 0. *)
Theorem checksum_mismatch_counts_one_error (s : parser) (b : Z) :
  rxstate s = 6 ->
  rd (rxbuf (accumulate s b)) 0 < rxptr (accumulate s b) ->
  checksum (rxbuf (accumulate s b)) <> crc_rx (accumulate s b) ->
  let s' := invent_ems_feed_byte s b in
  error_count (ecu_data s') = u32 (error_count (ecu_data s) + 1) /\
  (0 <= error_count (ecu_data s) < 2 ^ 32 - 1 ->
   error_count (ecu_data s') = error_count (ecu_data s) + 1) /\
  connected (ecu_data s') = connected (ecu_data s) /\
  packet_count (ecu_data s') = packet_count (ecu_data s) /\
  fval (ecu_data s') = fval (ecu_data s) /\
  ival (ecu_data s') = ival (ecu_data s) /\
  new_data_flag s' = new_data_flag s /\
  rxstate s' = 0.
Proof.
  intros H6 Hfull Hcrc s'.
  assert (E : s' = set_rxstate 0 (set_ecu_data
               (set_error_count (u32 (error_count (ecu_data s) + 1)) (ecu_data s))
               (accumulate s b))).
  { subst s'. rewrite (feed_byte_complete s b H6 Hfull), (verify_mismatch _ Hcrc).
    rewrite accumulate_ecu_data. reflexivity. }
  clearbody s'. subst s'.
  cbn [set_rxstate set_ecu_data ecu_data new_data_flag rxstate].
  rewrite accumulate_new_data_flag.
  destruct (ecu_data s) as [c p e fv iv].
  cbn [set_error_count error_count connected packet_count fval ival].
  split_and!; try reflexivity.
  intros Hrange. unfold u32. apply Z.mod_small. lia.
Qed.

(** C7.  A bus frame whose identifier has no case in the decoder is answered
    with [false] and changes nothing: neither a member of the telemetry
    record (the status members included) nor the new-data flag nor the
    serial parser. *)
Theorem unknown_can_id_is_noop (s : parser) (id : Z) (d : list Z) (dlc : Z) :
  ~ In id can_ids ->
  invent_ems_feed_can_frame s id d dlc = (s, false).
Proof.
  intros Hid. unfold invent_ems_feed_can_frame. cbv zeta.
  repeat case_match; try reflexivity; try discriminate;
    exfalso; apply Hid; subst id; cbn; auto 10.
Qed.


(** ** Receiving a frame *)

Lemma feed_bytes_cons s b bs :
  feed_bytes s (b :: bs) = feed_bytes (invent_ems_feed_byte s b) bs.
Proof. reflexivity. Qed.

Lemma feed_bytes_app s bs1 bs2 :
  feed_bytes s (bs1 ++ bs2) = feed_bytes (feed_bytes s bs1) bs2.
Proof. unfold feed_bytes. apply fold_left_app. Qed.

(** The first sync byte is taken in every state from 0 to 4. *)
Lemma feed_sync0 st buf p d fl :
  0 <= st <= 4 ->
  invent_ems_feed_byte (mk_parser st buf p d fl) HEADER_0 = mk_parser 1 buf p d fl.
Proof.
  intros Hst. destruct (Z.eq_dec st 0) as [-> | Hne]; [reflexivity|].
  rewrite feed_byte_resync.
  - reflexivity.
  - cbn [rxstate]. lia.
  - cbn [rxstate].
    assert (Hc : st = 1 \/ st = 2 \/ st = 3 \/ st = 4) by lia.
    destruct Hc as [-> | [-> | [-> | ->]]]; discriminate.
Qed.

(** The header takes the parser from any of the states 0 to 4 to state 5. *)
Lemma feed_header st buf p d fl :
  0 <= st <= 4 ->
  feed_bytes (mk_parser st buf p d fl)
    [HEADER_0; HEADER_1; HEADER_2; HEADER_3; INVENT_EMS_PROTOCOL_VER]
  = mk_parser 5 buf p d fl.
Proof.
  intros Hst. rewrite feed_bytes_cons, (feed_sync0 st buf p d fl Hst). reflexivity.
Qed.

(** A length byte in range starts the accumulation. *)
Lemma feed_length b0 rest p d fl L :
  4 <= L <= 48 ->
  invent_ems_feed_byte (mk_parser 5 (b0 :: rest) p d fl) L = mk_parser 6 (L :: rest) 1 d fl.
Proof.
  intros HL. apply feed_byte_no_retry. unfold feed_switch. cbn [rxstate].
  unfold MIN_PACKET_LEN, MAX_PACKET_LEN.
  destruct (Z.leb_spec 4 L); [|lia]. destruct (Z.leb_spec L 48); [|lia].
  reflexivity.
Qed.

Lemma rd_0 x l : rd (x :: l) 0 = x.
Proof. reflexivity. Qed.

Lemma rd_app_l (l1 l2 : list Z) i :
  0 <= i < Z.of_nat (length l1) -> rd (l1 ++ l2) i = rd l1 i.
Proof.
  intros Hi. unfold rd. destruct (Z.ltb_spec i 0); [lia|].
  rewrite lookup_app_l by lia. reflexivity.
Qed.

Lemma rd_app_r (l1 l2 : list Z) i :
  Z.of_nat (length l1) <= i -> rd (l1 ++ l2) i = rd l2 (i - Z.of_nat (length l1)).
Proof.
  intros Hi. unfold rd.
  destruct (Z.ltb_spec i 0); [lia|].
  destruct (Z.ltb_spec (i - Z.of_nat (length l1)) 0); [lia|].
  rewrite lookup_app_r by lia. do 2 f_equal. lia.
Qed.

Lemma rd_cons_pos x (l : list Z) i : 0 < i -> rd (x :: l) i = rd l (i - 1).
Proof. intros Hi. apply (rd_app_r [x] l i). cbn. lia. Qed.

(** One more byte of an incomplete frame. *)
Lemma accumulate_step L pre r rest d fl b :
  4 <= L <= 48 ->
  1 + Z.of_nat (length pre) < 64 ->
  accumulate (mk_parser 6 (L :: pre ++ r :: rest) (1 + Z.of_nat (length pre)) d fl) b
  = mk_parser 6 (L :: (pre ++ [b]) ++ rest) (1 + Z.of_nat (length (pre ++ [b]))) d fl.
Proof.
  intros HL Hp. unfold accumulate. cbn [rxptr rxbuf].
  unfold MAX_RX_BUF. destruct (Z.ltb_spec (1 + Z.of_nat (length pre)) 64); [|lia].
  unfold set_rxptr, set_rxbuf. cbn [rxstate rxbuf rxptr ecu_data new_data_flag].
  f_equal.
  - unfold wr. destruct (Z.ltb_spec (1 + Z.of_nat (length pre)) 0); [lia|].
    replace (Z.to_nat (1 + Z.of_nat (length pre))) with (S (length pre)) by lia.
    change (<[S (length pre) := b]> (L :: pre ++ r :: rest))
      with (L :: <[length pre := b]> (pre ++ r :: rest)).
    rewrite insert_app_r_alt by lia. rewrite Nat.sub_diag.
    rewrite <- app_assoc. reflexivity.
  - rewrite length_app. cbn [length]. rewrite u8_small by lia. lia.
Qed.

Lemma accumulate_many L d fl bs :
  forall pre rest,
    4 <= L <= 48 ->
    1 + Z.of_nat (length pre) + Z.of_nat (length bs) <= L ->
    (length bs <= length rest)%nat ->
    feed_bytes (mk_parser 6 (L :: pre ++ rest) (1 + Z.of_nat (length pre)) d fl) bs
    = mk_parser 6 (L :: (pre ++ bs) ++ drop (length bs) rest)
                (1 + Z.of_nat (length (pre ++ bs))) d fl.
Proof.
  induction bs as [|b bs IH]; intros pre rest HL Hlen Hrest.
  - cbn [length drop feed_bytes fold_left]. rewrite app_nil_r. reflexivity.
  - destruct rest as [|r rest]; [cbn in Hrest; lia|].
    cbn [length] in Hlen, Hrest.
    rewrite feed_bytes_cons.
    assert (Hstep : invent_ems_feed_byte
              (mk_parser 6 (L :: pre ++ r :: rest) (1 + Z.of_nat (length pre)) d fl) b
            = mk_parser 6 (L :: (pre ++ [b]) ++ rest)
                (1 + Z.of_nat (length (pre ++ [b]))) d fl).
    { rewrite feed_byte_incomplete; [apply accumulate_step; lia | reflexivity |].
      rewrite accumulate_step by lia. cbn [rxptr rxbuf]. rewrite rd_0.
      rewrite length_app. cbn [length]. lia. }
    rewrite Hstep, IH.
    + cbn [drop length]. rewrite <- !app_assoc. reflexivity.
    + lia.
    + rewrite length_app. cbn [length]. lia.
    + lia.
Qed.

(** The checksum only looks at the bytes the length byte announces. *)
Lemma crc_for_app (l1 l2 : list Z) :
  forall (n : nat) i crc,
    0 <= i -> i + Z.of_nat n <= Z.of_nat (length l1) ->
    crc_for n (l1 ++ l2) i crc = crc_for n l1 i crc.
Proof.
  induction n as [|n IH]; intros i crc Hi Hn; [reflexivity|].
  rewrite !crc_for_S, rd_app_l by lia. apply IH; lia.
Qed.

Lemma checksum_app L body (l2 : list Z) :
  4 <= L <= 48 -> Z.of_nat (length body) = L - 2 ->
  checksum ((L :: body) ++ l2) = checksum (L :: body).
Proof.
  intros HL Hlen. unfold checksum. cbv zeta.
  rewrite <- app_comm_cons, !rd_0.
  destruct (MAX_RX_BUF - 2 <=? u8 (L - 2)); [reflexivity|].
  rewrite app_comm_cons. apply crc_for_app; [lia|].
  rewrite (u8_small (L - 2)) by lia. cbn [length]. lia.
Qed.

Lemma crc_for_range buf : forall n i crc, 0 <= crc < 65536 -> 0 <= crc_for n buf i crc < 65536.
Proof.
  induction n as [|n IH]; intros i crc Hc; [exact Hc|].
  rewrite crc_for_S. apply IH, crc_round_range.
Qed.

Lemma checksum_range buf : 0 <= checksum buf < 65536.
Proof.
  unfold checksum. cbv zeta. destruct (MAX_RX_BUF - 2 <=? u8 (rd buf 0 - 2)); [lia|].
  apply crc_for_range. lia.
Qed.

(** Splitting a 16-bit value into its two bytes and putting them together
    again, as the emulator and the decoder do with the checksum. *)
Lemma join_split_u16 c :
  0 <= c < 65536 ->
  u16 (Z.lor (u16 (Z.land c 0xFF)) (Z.shiftl (u16 (Z.shiftr c 8)) 8)) = c.
Proof.
  intros Hc.
  assert (Hlo : 0 <= Z.land c 255 < 256) by apply land_255_range.
  assert (Hhi : 0 <= Z.shiftr c 8 < 256) by (apply shiftr_range; lia).
  rewrite (u16_small (Z.land c 255)), (u16_small (Z.shiftr c 8)) by lia.
  assert (E : Z.lor (Z.land c 255) (Z.shiftl (Z.shiftr c 8) 8) = c).
  { apply Z.bits_inj'. intros n Hn.
    rewrite Z.lor_spec, Z.land_spec, Z.shiftl_spec by lia.
    change 255 with (Z.ones 8). rewrite Z.testbit_ones_nonneg by lia.
    destruct (Z.ltb_spec n 8).
    - rewrite (Z.testbit_neg_r _ (n - 8)) by lia.
      rewrite andb_true_r, orb_false_r. reflexivity.
    - rewrite Z.shiftr_spec by lia. rewrite andb_false_r. cbn [orb].
      f_equal. lia. }
  rewrite E. apply u16_small, Hc.
Qed.

(** A complete frame, received in any of the states 0 to 4, ends in the
    verification of the buffer that holds it. *)
Lemma feed_frame_bytes st b0 rest p d fl L body lo hi :
  0 <= st <= 4 ->
  4 <= L <= 48 ->
  Z.of_nat (length body) = L - 2 ->
  length rest = 63%nat ->
  feed_bytes (mk_parser st (b0 :: rest) p d fl)
    ([HEADER_0; HEADER_1; HEADER_2; HEADER_3; INVENT_EMS_PROTOCOL_VER; L] ++
     body ++ [lo; hi])
  = verify (mk_parser 6 ((L :: body) ++ [lo; hi] ++ drop (Z.to_nat L) rest) (L + 1) d fl).
Proof.
  intros Hst HL Hlen Hrest.
  change ([HEADER_0; HEADER_1; HEADER_2; HEADER_3; INVENT_EMS_PROTOCOL_VER; L] ++
          body ++ [lo; hi])
    with ([HEADER_0; HEADER_1; HEADER_2; HEADER_3; INVENT_EMS_PROTOCOL_VER] ++
          L :: (body ++ [lo; hi])).
  rewrite feed_bytes_app, (feed_header st _ p d fl Hst), feed_bytes_cons.
  rewrite (feed_length b0 rest p d fl L HL).
  replace (body ++ [lo; hi]) with ((body ++ [lo]) ++ [hi])
    by (rewrite <- app_assoc; reflexivity).
  rewrite feed_bytes_app.
  assert (Hbl : length (body ++ [lo]) = Z.to_nat (L - 1))
    by (rewrite length_app; cbn [length]; lia).
  change (mk_parser 6 (L :: rest) 1 d fl)
    with (mk_parser 6 (L :: [] ++ rest) (1 + Z.of_nat (length (@nil Z))) d fl).
  rewrite (accumulate_many L d fl (body ++ [lo]) [] rest HL) by (cbn [length]; lia).
  cbn [app].
  destruct (drop (length (body ++ [lo])) rest) as [|r rest'] eqn:Hdrop.
  { apply (f_equal length) in Hdrop. rewrite length_drop in Hdrop. cbn in Hdrop. lia. }
  assert (Hrest' : rest' = drop (Z.to_nat L) rest).
  { replace (Z.to_nat L) with (length (body ++ [lo]) + 1)%nat by lia.
    rewrite <- drop_drop, Hdrop. reflexivity. }
  cbn [feed_bytes fold_left].
  assert (Hp : 1 + Z.of_nat (length (body ++ [lo])) < 64) by lia.
  pose proof (accumulate_step L (body ++ [lo]) r rest' d fl hi HL Hp) as Hstep.
  rewrite feed_byte_complete.
  - rewrite Hstep. f_equal. f_equal.
    + rewrite <- !app_assoc, Hrest'. reflexivity.
    + rewrite length_app. cbn [length]. lia.
  - reflexivity.
  - rewrite Hstep. cbn [rxbuf rxptr]. rewrite rd_0, length_app. cbn [length]. lia.
Qed.

Lemma crc_rx_frame L body lo hi (tl : list Z) d fl :
  Z.of_nat (length body) = L - 2 -> 4 <= L <= 48 ->
  crc_rx (mk_parser 6 ((L :: body) ++ [lo; hi] ++ tl) (L + 1) d fl)
  = u16 (Z.lor (u16 lo) (Z.shiftl (u16 hi) 8)).
Proof.
  intros Hlen HL. unfold crc_rx. cbn [rxbuf rxptr].
  rewrite !(rd_app_r (L :: body)) by (cbn [length]; lia).
  cbn [length].
  replace (L + 1 - 2 - Z.of_nat (S (length body))) with 0 by lia.
  replace (L + 1 - 1 - Z.of_nat (S (length body))) with 1 by lia.
  reflexivity.
Qed.

(** A valid frame, received in any of the states 0 to 4, is parsed. *)
Lemma feed_valid_frame st b0 rest p d fl L body frame :
  0 <= st <= 4 ->
  length rest = 63%nat ->
  valid_frame L body frame ->
  feed_bytes (mk_parser st (b0 :: rest) p d fl) frame
  = set_rxstate 0
      (parse_packet
         (mk_parser 6
            ((L :: body) ++
             [Z.land (checksum (L :: body)) 0xFF; Z.shiftr (checksum (L :: body)) 8] ++
             drop (Z.to_nat L) rest)
            (L + 1) d fl)).
Proof.
  intros Hst Hrest (HL & Hlen & _ & ->). unfold wire_frame.
  rewrite (feed_frame_bytes st b0 rest p d fl L body _ _ Hst HL Hlen Hrest).
  apply verify_match. cbn [rxbuf].
  rewrite (checksum_app L body _ HL Hlen), (crc_rx_frame L body _ _ _ d fl Hlen HL).
  symmetry. apply join_split_u16, checksum_range.
Qed.

(** ** What a parsed packet does to the status members *)

Lemma parse_slow_status id buf off d :
  connected (parse_slow id buf off d) = connected d /\
  packet_count (parse_slow id buf off d) = packet_count d /\
  error_count (parse_slow id buf off d) = error_count d.
Proof.
  destruct d as [c p e fv iv]. unfold parse_slow.
  repeat case_match; repeat split.
Qed.

Lemma parse_packet_status a :
  connected (ecu_data (parse_packet a)) = true /\
  packet_count (ecu_data (parse_packet a)) = u32 (packet_count (ecu_data a) + 1) /\
  error_count (ecu_data (parse_packet a)) = error_count (ecu_data a) /\
  new_data_flag (parse_packet a) = true /\
  rxbuf (parse_packet a) = rxbuf a /\
  rxptr (parse_packet a) = rxptr a /\
  rxstate (parse_packet a) = rxstate a.
Proof.
  unfold parse_packet. cbv zeta.
  set (d1 := parse_fast (rxbuf a) (ecu_data a)).
  destruct (parse_fast_status (rxbuf a) (ecu_data a)) as (_ & Hp1 & He1).
  fold d1 in Hp1, He1.
  set (d2 := if rd (rxbuf a) 24 <? SLOW_PACKET_COUNT
             then parse_slow (rd (rxbuf a) 24) (rxbuf a) SLOW_PACKET_OFFSET d1
             else d1).
  assert (H2 : packet_count d2 = packet_count d1 /\ error_count d2 = error_count d1).
  { subst d2. destruct (rd (rxbuf a) 24 <? SLOW_PACKET_COUNT); [|split; reflexivity].
    destruct (parse_slow_status (rd (rxbuf a) 24) (rxbuf a) SLOW_PACKET_OFFSET d1)
      as (_ & Hp & He). split; assumption. }
  destruct H2 as [Hp2 He2]. clearbody d2. clearbody d1.
  destruct d2 as [c p e fv iv]. cbn in Hp2, He2 |- *. subst.
  rewrite Hp1, He1. repeat split.
Qed.

(** ** The invariant of the parser *)

Lemma length_wr buf i v : length (wr buf i v) = length buf.
Proof. unfold wr. destruct (i <? 0); [reflexivity | apply length_insert]. Qed.

Lemma rd_wr_same (buf : list Z) i v :
  0 <= i < Z.of_nat (length buf) -> rd (wr buf i v) i = v.
Proof.
  intros Hi. unfold rd, wr. destruct (Z.ltb_spec i 0); [lia|].
  rewrite list_lookup_insert_eq by lia. reflexivity.
Qed.

Lemma rd_wr_other (buf : list Z) i j v :
  0 <= i -> 0 <= j -> i <> j -> rd (wr buf i v) j = rd buf j.
Proof.
  intros Hi Hj Hne. unfold rd, wr.
  destruct (Z.ltb_spec i 0); [lia|]. destruct (Z.ltb_spec j 0); [lia|].
  rewrite list_lookup_insert_ne by lia. reflexivity.
Qed.

Lemma verify_shape a :
  rxstate (verify a) = 0 /\ rxbuf (verify a) = rxbuf a.
Proof.
  unfold verify. cbv zeta.
  destruct (checksum (rxbuf a) =? crc_rx a).
  - destruct (parse_packet_status a) as (_ & _ & _ & _ & Hb & _). split; [reflexivity | exact Hb].
  - split; reflexivity.
Qed.

Lemma parser_wf_init s : length (rxbuf s) = 64%nat -> parser_wf (invent_ems_init s).
Proof. intros Hlen. unfold parser_wf, invent_ems_init. cbn [rxbuf rxstate rxptr]. split_and!; [assumption | lia | lia | discriminate]. Qed.

Lemma parser_wf_power_on : parser_wf (invent_ems_init power_on).
Proof. apply parser_wf_init. reflexivity. Qed.

(** Whatever byte arrives, the parser stays well formed: in particular
    [rxptr] never leaves the buffer, and the guard [rxptr < MAX_RX_BUF] of
    case 6 never fails. *)
Lemma parser_wf_feed_byte s b : parser_wf s -> parser_wf (invent_ems_feed_byte s b).
Proof.
  intros (Hlen & Hst & H6).
  assert (Hc : rxstate s = 0 \/ 1 <= rxstate s <= 4 \/ rxstate s = 5 \/ rxstate s = 6) by lia.
  destruct Hc as [E | [E | [E | E]]].
  - rewrite (feed_byte_no_retry _ _ _ (feed_switch_state0 s b E)).
    destruct (b =? HEADER_0); unfold parser_wf; cbn [set_rxstate rxstate rxbuf rxptr];
      split_and!; try assumption; try lia.
  - destruct (Z.eq_dec b (expected_byte (rxstate s))) as [Hb | Hb].
    + assert (Hsw : feed_switch s b = (set_rxstate (u8 (rxstate s + 1)) s, false)).
      { unfold feed_switch.
        assert (Hcases : rxstate s = 1 \/ rxstate s = 2 \/ rxstate s = 3 \/ rxstate s = 4) by lia.
        destruct Hcases as [E1|[E1|[E1|E1]]]; rewrite E1 in Hb |- *; subst b; reflexivity. }
      rewrite (feed_byte_no_retry _ _ _ Hsw).
      unfold parser_wf. cbn [set_rxstate rxstate rxbuf rxptr].
      rewrite u8_small by lia. split_and!; try assumption; try lia.
    + rewrite (feed_byte_resync s b E Hb).
      unfold parser_wf. cbn [set_rxstate rxstate rxbuf rxptr].
      destruct (b =? HEADER_0); split_and!; try assumption; try lia.
  - assert (Hsw : feed_switch s b =
        if (MIN_PACKET_LEN <=? b) && (b <=? MAX_PACKET_LEN)
        then (mk_parser 6 (wr (rxbuf s) 0 b) 1 (ecu_data s) (new_data_flag s), false)
        else (set_rxstate 0 s, false)).
    { unfold feed_switch. rewrite E. cbv zeta.
      destruct ((MIN_PACKET_LEN <=? b) && (b <=? MAX_PACKET_LEN)); [|reflexivity].
      unfold set_rxstate, set_rxptr, set_rxbuf. cbn [rxstate rxbuf rxptr ecu_data new_data_flag].
      rewrite E. reflexivity. }
    destruct ((MIN_PACKET_LEN <=? b) && (b <=? MAX_PACKET_LEN)) eqn:Hrange.
    + rewrite (feed_byte_no_retry _ _ _ Hsw).
      apply andb_true_iff in Hrange. destruct Hrange as [Hlo Hhi].
      apply Z.leb_le in Hlo, Hhi. unfold MIN_PACKET_LEN, MAX_PACKET_LEN in *.
      unfold parser_wf. cbn [rxstate rxbuf rxptr].
      rewrite length_wr, rd_wr_same by lia. split_and!; try assumption; try lia.
    + rewrite (feed_byte_no_retry _ _ _ Hsw).
      unfold parser_wf. cbn [set_rxstate rxstate rxbuf rxptr].
      split_and!; try assumption; try lia.
  - destruct (H6 E) as (HL & Hp).
    assert (Hacc : accumulate s b =
              mk_parser 6 (wr (rxbuf s) (rxptr s) b) (rxptr s + 1) (ecu_data s) (new_data_flag s)).
    { unfold accumulate, MAX_RX_BUF. destruct (Z.ltb_spec (rxptr s) 64); [|lia].
      unfold set_rxptr, set_rxbuf. cbn [rxstate rxbuf rxptr ecu_data new_data_flag].
      rewrite E, u8_small by lia. reflexivity. }
    rewrite (feed_byte_state6 s b E). cbv zeta. rewrite Hacc. cbn [rxbuf rxptr].
    rewrite rd_wr_other by lia.
    destruct (Z.ltb_spec (rd (rxbuf s) 0) (rxptr s + 1)).
    + destruct (verify_shape (mk_parser 6 (wr (rxbuf s) (rxptr s) b) (rxptr s + 1)
                                (ecu_data s) (new_data_flag s))) as [Hv1 Hv2].
      unfold parser_wf. rewrite Hv1, Hv2. cbn [rxbuf]. rewrite length_wr.
      split_and!; try assumption; try lia.
    + unfold parser_wf. cbn [rxstate rxbuf rxptr].
      rewrite length_wr, rd_wr_other by lia.
      split_and!; try assumption; try lia.
Qed.

Lemma parser_wf_feed_bytes bytes : forall s, parser_wf s -> parser_wf (feed_bytes s bytes).
Proof.
  induction bytes as [|b bytes IH]; intros s Hwf; [exact Hwf|].
  rewrite feed_bytes_cons. apply IH, parser_wf_feed_byte, Hwf.
Qed.

(** ** C3: resynchronisation *)

(** Bytes other than the first sync byte leave the parser in state 0 as it
    is. *)
Lemma feed_bytes_no_sync bytes :
  forall s, rxstate s = 0 -> Forall (fun b => b <> HEADER_0) bytes ->
            feed_bytes s bytes = s.
Proof.
  induction bytes as [|b bytes IH]; intros s H0 Hall; [reflexivity|].
  inversion Hall as [|? ? Hb Hall']; subst.
  rewrite feed_bytes_cons.
  rewrite (feed_byte_no_retry _ _ _ (feed_switch_state0 s b H0)).
  destruct (Z.eqb_spec b HEADER_0); [contradiction|]. apply IH; assumption.
Qed.

Lemma feed_valid_frame_counts s L body frame :
  parser_wf s -> 0 <= rxstate s <= 4 -> valid_frame L body frame ->
  packet_count (ecu_data (feed_bytes s frame)) = u32 (packet_count (ecu_data s) + 1) /\
  error_count (ecu_data (feed_bytes s frame)) = error_count (ecu_data s) /\
  connected (ecu_data (feed_bytes s frame)) = true /\
  new_data_flag (feed_bytes s frame) = true /\
  rxstate (feed_bytes s frame) = 0.
Proof.
  intros (Hlen & _ & _) Hst Hv.
  destruct s as [st buf p d fl]. cbn [rxstate rxbuf ecu_data] in *.
  destruct buf as [|b0 rest]; [discriminate Hlen|].
  assert (Hrest : length rest = 63%nat) by (cbn [length] in Hlen; lia).
  rewrite (feed_valid_frame st b0 rest p d fl L body frame Hst Hrest Hv).
  match goal with |- context [parse_packet ?a] =>
    destruct (parse_packet_status a) as (Hc & Hp & He & Hn & _) end.
  cbn [set_rxstate ecu_data new_data_flag rxstate].
  cbn [ecu_data] in Hp, He.
  split_and!; try assumption; reflexivity.
Qed.

(** C3 (amended).  Let a byte sequence of any length and content be fed to
    the freshly initialised parser and leave it in one of the states 0 to 4
    (waiting for a sync byte or for the version byte).  Then a complete valid
    frame that follows is decoded exactly once: [packet_count] goes up by one,
    [error_count] does not move, and the parser is back in state 0.  A prefix
    that does not contain the byte 0x55 is such a sequence and decodes
    nothing itself, so that one frame is decoded in all. *)
Theorem frame_after_prefix_decoded_once (prefix : list Z) (L : Z) (body frame : list Z) :
  valid_frame L body frame ->
  rxstate (feed_bytes (invent_ems_init power_on) prefix) <= 4 ->
  let s := feed_bytes (invent_ems_init power_on) prefix in
  let s' := feed_bytes (invent_ems_init power_on) (prefix ++ frame) in
  packet_count (ecu_data s') = u32 (packet_count (ecu_data s) + 1) /\
  error_count (ecu_data s') = error_count (ecu_data s) /\
  connected (ecu_data s') = true /\
  new_data_flag s' = true /\
  rxstate s' = 0 /\
  (Forall (fun b => b <> HEADER_0) prefix -> packet_count (ecu_data s') = 1).
Proof.
  intros Hv Hst s s'.
  assert (Hwf : parser_wf s) by apply parser_wf_feed_bytes, parser_wf_power_on.
  assert (Hst' : 0 <= rxstate s <= 4) by (destruct Hwf as (_ & ? & _); subst s; lia).
  assert (E : s' = feed_bytes s frame) by (subst s s'; apply feed_bytes_app).
  destruct (feed_valid_frame_counts s L body frame Hwf Hst' Hv) as (Hp & He & Hc & Hn & H0).
  rewrite E. split_and!; try assumption.
  intros Hno. rewrite Hp. subst s.
  rewrite (feed_bytes_no_sync prefix (invent_ems_init power_on) eq_refl Hno).
  reflexivity.
Qed.

Lemma c3_frame_valid : valid_frame 4 [1; 2] c3_frame.
Proof.
  unfold valid_frame. split_and!; [lia | lia | reflexivity | | reflexivity].
  repeat constructor; unfold is_byte; lia.
Qed.

Lemma frame_after_prefix_decoded_once_witness :
  packet_count (ecu_data (feed_bytes (invent_ems_init power_on) ([1; 2; 3] ++ c3_frame))) = 1.
Proof.
  refine (proj2 (proj2 (proj2 (proj2 (proj2
    (frame_after_prefix_decoded_once [1; 2; 3] 4 [1; 2] c3_frame c3_frame_valid _))))) _).
  - vm_compute. discriminate.
  - repeat constructor; discriminate.
Defined.

(** C3 as stated fails: after the prefix 55 00 AA 00 54 30 the parser is
    accumulating a 48-byte frame and takes the whole valid frame that
    follows as payload; nothing is decoded. *)
Lemma resync_counterexample :
  valid_frame 4 [1; 2] c3_frame /\
  Forall is_byte c3_prefix /\
  packet_count (ecu_data (feed_bytes (invent_ems_init power_on) (c3_prefix ++ c3_frame))) = 0 /\
  packet_count (ecu_data (feed_bytes (invent_ems_init power_on) (c3_prefix ++ c3_frame))) <> 1.
Proof.
  split; [exact c3_frame_valid|]. split.
  - repeat constructor; unfold is_byte; lia.
  - assert (E : packet_count (ecu_data (feed_bytes (invent_ems_init power_on)
                  (c3_prefix ++ c3_frame))) = 0) by (vm_compute; reflexivity).
    rewrite E. split; [reflexivity | discriminate].
Qed.

(** ** The emulator's frame *)

Lemma calcChecksum_checksum fuel buf :
  4 <= rd buf 0 <= 48 -> (48 <= fuel)%nat ->
  calcChecksum fuel buf = Some (checksum buf).
Proof.
  intros HL Hf. unfold calcChecksum, checksum. cbv zeta.
  rewrite (u8_small (rd buf 0 - 2)) by lia. unfold MAX_RX_BUF.
  destruct (Z.leb_spec (64 - 2) (rd buf 0 - 2)); [lia|].
  apply calc_loop_crc_for; lia.
Qed.

Lemma Qltb_spec x y : reflect (x < y)%Q (Qltb x y).
Proof.
  unfold Qltb. destruct (Qle_bool y x) eqn:E; constructor.
  - apply Qle_bool_iff in E. apply Qle_not_lt, E.
  - apply Qnot_le_lt. intros Hle. apply Qle_bool_iff in Hle. congruence.
Qed.

Lemma Qtrunc_nonneg q : (0 <= q)%Q -> Qtrunc q = Qfloor q.
Proof.
  intros Hq. unfold Qtrunc. destruct (Qltb_spec q 0) as [Hlt|_]; [|reflexivity].
  exfalso. apply (Qlt_not_le _ _ Hlt), Hq.
Qed.

Lemma clampU8_range v : 0 <= CarEmu.clampU8 v < 256.
Proof.
  unfold CarEmu.clampU8.
  destruct (Qltb v 0); [lia|]. destruct (Qltb 255 v); [lia|]. apply u8_range.
Qed.

Lemma le16_bytes x : Forall is_byte (le16 x).
Proof. unfold le16. repeat constructor; apply u8_range. Qed.

Ltac bytes_tac :=
  repeat first
    [ apply Forall_nil_2
    | apply Forall_cons_2;
      [ first [ apply u8_range | apply clampU8_range | (unfold is_byte; lia) ] | ]
    | apply Forall_app_2; [apply le16_bytes|] ].

Lemma fillSlow_shape idx eng sp :
  CarEmu.fillSlow idx eng = Some sp -> length sp = 11%nat /\ Forall is_byte sp.
Proof.
  destruct (Z.eq_dec idx 4) as [-> | Hne].
  - change (CarEmu.fillSlow 4 eng) with (CarEmu.fillSlow4 eng). unfold CarEmu.fillSlow4.
    intros Hsp.
    apply bind_Some in Hsp as (a & _ & Hsp). apply bind_Some in Hsp as (b & _ & Hsp).
    apply bind_Some in Hsp as (c & _ & Hsp). apply bind_Some in Hsp as (e & _ & Hsp).
    injection Hsp as <-. split; [reflexivity | bytes_tac].
  - unfold CarEmu.fillSlow. intros Hsp.
    repeat case_match; try (exfalso; apply Hne; reflexivity);
      injection Hsp as <-; (split; [reflexivity | bytes_tac]).
Qed.

Lemma packet_image_shape eng Uoz Period InjTime idx sp :
  length sp = 11%nat -> Forall is_byte sp ->
  exists body,
    CarEmu.packet_image eng Uoz Period InjTime idx sp = 37 :: body /\
    length body = 35%nat /\ Forall is_byte body.
Proof.
  intros Hlen Hb. unfold CarEmu.packet_image, le16. cbn [app].
  change (u8 (CarEmu.sizeof_TInfoPacket + 1)) with 37.
  eexists. split; [reflexivity|]. split.
  - cbn [length]. rewrite Hlen. reflexivity.
  - bytes_tac. exact Hb.
Qed.

(** What [buildAndSend] writes: a wire frame with length byte 37 around the
    packet image, and the slow-packet index of the next frame. *)
Lemma buildAndSend_inv eng idx frame next :
  CarEmu.buildAndSend eng idx = Some (frame, next) ->
  exists Uoz Period InjTime sp body,
    cast_i16 (CarEmu.angleDeg eng / (1 # 4)) = Some Uoz /\
    CarEmu.rpmToPeriod (CarEmu.rpm eng) = Some Period /\
    cast_u16 (CarEmu.injTimeMs eng / (4 # 1000)) = Some InjTime /\
    CarEmu.fillSlow idx eng = Some sp /\
    CarEmu.packet_image eng Uoz Period InjTime idx sp = 37 :: body /\
    length body = 35%nat /\ Forall is_byte body /\
    frame = wire_frame 37 body (checksum (37 :: body)) /\
    next = (if CarEmu.TOTAL_SLOW_PACKETS <=? u8 (idx + 1) then 0 else u8 (idx + 1)).
Proof.
  unfold CarEmu.buildAndSend, CarEmu.build_packet. intros H.
  apply bind_Some in H as (pkt & Hpkt & H).
  apply bind_Some in Hpkt as (Uoz & HU & Hpkt).
  apply bind_Some in Hpkt as (Period & HP & Hpkt).
  apply bind_Some in Hpkt as (InjTime & HI & Hpkt).
  apply bind_Some in Hpkt as (sp & Hsp & Hpkt).
  injection Hpkt as <-.
  destruct (fillSlow_shape idx eng sp Hsp) as [Hlen Hb].
  destruct (packet_image_shape eng Uoz Period InjTime idx sp Hlen Hb) as (body & Himg & Hbl & Hbb).
  rewrite Himg in H.
  apply bind_Some in H as (crc & Hcrc & H).
  rewrite (calcChecksum_checksum 64 ((37 :: body) ++ [0; 0])) in Hcrc;
    [| rewrite <- app_comm_cons, rd_0; lia | lia].
  injection Hcrc as <-. injection H as <- <-.
  exists Uoz, Period, InjTime, sp, body.
  split_and!; try assumption; try reflexivity.
  change (37 :: body ++ [0; 0]) with ((37 :: body) ++ [0; 0]).
  rewrite (checksum_app 37 body [0; 0]) by lia.
  unfold wire_frame, CarEmu.HEADER.
  pose proof (checksum_range (37 :: body)) as Hr.
  assert (Hhi : Z.land (Z.shiftr (checksum (37 :: body)) 8) 255
                = Z.shiftr (checksum (37 :: body)) 8).
  { rewrite <- u8_land. apply u8_small. apply shiftr_range; lia. }
  rewrite Hhi. reflexivity.
Qed.

(** ** C6: the length byte *)

(** The bytes of a frame up to, but not including, its last byte leave the
    parser accumulating. *)
Lemma feed_frame_partial st b0 rest p d fl L bs :
  0 <= st <= 4 ->
  4 <= L <= 48 ->
  Z.of_nat (length bs) <= L - 1 ->
  length rest = 63%nat ->
  feed_bytes (mk_parser st (b0 :: rest) p d fl)
    ([HEADER_0; HEADER_1; HEADER_2; HEADER_3; INVENT_EMS_PROTOCOL_VER; L] ++ bs)
  = mk_parser 6 (L :: bs ++ drop (length bs) rest) (1 + Z.of_nat (length bs)) d fl.
Proof.
  intros Hst HL Hlen Hrest.
  change ([HEADER_0; HEADER_1; HEADER_2; HEADER_3; INVENT_EMS_PROTOCOL_VER; L] ++ bs)
    with ([HEADER_0; HEADER_1; HEADER_2; HEADER_3; INVENT_EMS_PROTOCOL_VER] ++ L :: bs).
  rewrite feed_bytes_app, (feed_header st _ p d fl Hst), feed_bytes_cons.
  rewrite (feed_length b0 rest p d fl L HL).
  change (mk_parser 6 (L :: rest) 1 d fl)
    with (mk_parser 6 (L :: [] ++ rest) (1 + Z.of_nat (length (@nil Z))) d fl).
  rewrite (accumulate_many L d fl bs [] rest HL) by (cbn [length]; lia).
  reflexivity.
Qed.

Lemma verify_counts a :
  (checksum (rxbuf a) = crc_rx a ->
   packet_count (ecu_data (verify a)) = u32 (packet_count (ecu_data a) + 1) /\
   error_count (ecu_data (verify a)) = error_count (ecu_data a)) /\
  (checksum (rxbuf a) <> crc_rx a ->
   packet_count (ecu_data (verify a)) = packet_count (ecu_data a) /\
   error_count (ecu_data (verify a)) = u32 (error_count (ecu_data a) + 1)).
Proof.
  split; intros Hc.
  - rewrite (verify_match a Hc).
    destruct (parse_packet_status a) as (_ & Hp & He & _).
    cbn [set_rxstate ecu_data]. split; assumption.
  - rewrite (verify_mismatch a Hc). cbn [set_rxstate set_ecu_data ecu_data].
    destruct (ecu_data a); split; reflexivity.
Qed.

(** C6 (amended).  A wire frame with length byte [L] carries [L - 2] bytes
    between the length byte and the two checksum bytes: [L] counts the length
    byte itself, those bytes, and one more.  The emulator emits frames of
    this shape with [L = 37] (35 bytes, 43 bytes on the wire); the decoder,
    having seen the header and [L], is still accumulating after [L - 1]
    further bytes and verifies the frame on the next one, comparing the
    checksum of the length byte and the [L - 2] bytes with the last two bytes
    read low byte first. *)
Theorem frame_carries_length_minus_two (eng : CarEmu.EngineState) (idx : Z)
        (frame : list Z) (next : Z) (s : parser) (L : Z) (body : list Z) (lo hi : Z) :
  CarEmu.buildAndSend eng idx = Some (frame, next) ->
  parser_wf s -> rxstate s <= 4 ->
  4 <= L <= 48 -> Z.of_nat (length body) = L - 2 ->
  let hdr := [HEADER_0; HEADER_1; HEADER_2; HEADER_3; INVENT_EMS_PROTOCOL_VER; L] in
  let crc := u16 (Z.lor (u16 lo) (Z.shiftl (u16 hi) 8)) in
  (exists body', valid_frame 37 body' frame /\
                 Z.of_nat (length body') = 37 - 2 /\
                 Z.of_nat (length frame) = 37 + 6) /\
  rxstate (feed_bytes s (hdr ++ body ++ [lo])) = 6 /\
  rxstate (feed_bytes s (hdr ++ body ++ [lo; hi])) = 0 /\
  (checksum (L :: body) = crc ->
   packet_count (ecu_data (feed_bytes s (hdr ++ body ++ [lo; hi])))
     = u32 (packet_count (ecu_data s) + 1) /\
   error_count (ecu_data (feed_bytes s (hdr ++ body ++ [lo; hi])))
     = error_count (ecu_data s)) /\
  (checksum (L :: body) <> crc ->
   packet_count (ecu_data (feed_bytes s (hdr ++ body ++ [lo; hi])))
     = packet_count (ecu_data s) /\
   error_count (ecu_data (feed_bytes s (hdr ++ body ++ [lo; hi])))
     = u32 (error_count (ecu_data s) + 1)).
Proof.
  intros Hemu (Hlen & Hst0 & _) Hst HL Hbody hdr crc.
  split.
  { destruct (buildAndSend_inv eng idx frame next Hemu)
      as (Uoz & Period & InjTime & sp & body' & _ & _ & _ & _ & _ & Hbl & Hbb & Hf & _).
    exists body'. split; [|split].
    - unfold valid_frame. split_and!; try assumption; lia.
    - lia.
    - rewrite Hf. unfold wire_frame. rewrite !length_app. cbn [length]. lia. }
  destruct s as [st buf p d fl]. cbn [rxstate rxbuf ecu_data] in *.
  destruct buf as [|b0 rest]; [discriminate Hlen|].
  assert (Hrest : length rest = 63%nat) by (cbn [length] in Hlen; lia).
  assert (Hst' : 0 <= st <= 4) by lia.
  subst hdr.
  rewrite (feed_frame_partial st b0 rest p d fl L (body ++ [lo]) Hst' HL)
    by (try rewrite length_app; cbn [length]; lia).
  rewrite (feed_frame_bytes st b0 rest p d fl L body lo hi Hst' HL Hbody Hrest).
  set (a := mk_parser 6 ((L :: body) ++ [lo; hi] ++ drop (Z.to_nat L) rest) (L + 1) d fl).
  assert (Hcs : checksum (rxbuf a) = checksum (L :: body))
    by (apply checksum_app; assumption).
  assert (Hrx : crc_rx a = crc) by (apply crc_rx_frame; assumption).
  destruct (verify_counts a) as [Hok Hbad]. rewrite Hcs, Hrx in Hok, Hbad.
  split; [reflexivity|]. split; [apply verify_shape|]. split; assumption.
Qed.

Lemma frame_carries_length_minus_two_witness :
  rxstate (feed_bytes (invent_ems_init power_on)
             ([HEADER_0; HEADER_1; HEADER_2; HEADER_3; INVENT_EMS_PROTOCOL_VER; 4] ++
              [1; 2] ++ [7])) = 6 /\
  rxstate (feed_bytes (invent_ems_init power_on)
             ([HEADER_0; HEADER_1; HEADER_2; HEADER_3; INVENT_EMS_PROTOCOL_VER; 4] ++
              [1; 2] ++ [7; 9])) = 0.
Proof.
  assert (Hemu : CarEmu.buildAndSend (engine_with_angle 0) 0 = Some (c6_frame, 1))
    by (vm_compute; reflexivity).
  assert (Hst : rxstate (invent_ems_init power_on) <= 4) by (vm_compute; discriminate).
  assert (HL : 4 <= 4 <= 48) by lia.
  assert (Hbody : Z.of_nat (length [1; 2]) = 4 - 2) by reflexivity.
  destruct (frame_carries_length_minus_two (engine_with_angle 0) 0 c6_frame 1
              (invent_ems_init power_on) 4 [1; 2] 7 9
              Hemu parser_wf_power_on Hst HL Hbody) as (_ & H1 & H2 & _).
  split; assumption.
Defined.

(** C6 as stated fails on the frame the emulator sends for the all-zero
    engine state: its length byte is 37, it has 43 bytes and not
    6 + (37 - 1) + 2, and the decoder takes it as one complete frame. *)
Lemma payload_size_counterexample :
  CarEmu.buildAndSend (engine_with_angle 0) 0 = Some (c6_frame, 1) /\
  rd c6_frame 5 = 37 /\
  Z.of_nat (length c6_frame) = 43 /\
  Z.of_nat (length c6_frame) <> 6 + (rd c6_frame 5 - 1) + 2 /\
  packet_count (ecu_data (feed_bytes (invent_ems_init power_on) c6_frame)) = 1 /\
  rxstate (feed_bytes (invent_ems_init power_on) c6_frame) = 0.
Proof.
  split; [vm_compute; reflexivity|].
  split; [reflexivity|]. split; [reflexivity|].
  split; [vm_compute; discriminate|].
  split; vm_compute; reflexivity.
Qed.

(** ** Instances *)

Lemma checksum_mismatch_counts_one_error_witness :
  error_count (ecu_data (invent_ems_feed_byte c4_state 0))
    = u32 (error_count (ecu_data c4_state) + 1) /\
  rxstate (invent_ems_feed_byte c4_state 0) = 0.
Proof.
  assert (H6 : rxstate c4_state = 6) by (vm_compute; reflexivity).
  assert (Hfull : rd (rxbuf (accumulate c4_state 0)) 0 < rxptr (accumulate c4_state 0))
    by (vm_compute; reflexivity).
  assert (Hcrc : checksum (rxbuf (accumulate c4_state 0)) <> crc_rx (accumulate c4_state 0))
    by (vm_compute; discriminate).
  destruct (checksum_mismatch_counts_one_error c4_state 0 H6 Hfull Hcrc)
    as (He & _ & _ & _ & _ & _ & _ & Hst).
  split; assumption.
Defined.

Lemma mismatch_reevaluates_byte_witness :
  invent_ems_feed_byte c5_state 0x55 = set_rxstate 1 c5_state.
Proof.
  assert (Hst : 1 <= rxstate c5_state <= 4) by (vm_compute; split; discriminate).
  assert (Hb : 0x55 <> expected_byte (rxstate c5_state)) by (vm_compute; discriminate).
  exact (proj2 (proj2 (mismatch_reevaluates_byte c5_state 0x55 Hst Hb))).
Defined.

Lemma unknown_can_id_is_noop_witness :
  invent_ems_feed_can_frame (invent_ems_init power_on) 0x301 (replicate 8 0xFF) 8
  = (invent_ems_init power_on, false).
Proof.
  apply unknown_can_id_is_noop. cbn. intros H.
  repeat (destruct H as [H | H]; [discriminate H|]). exact H.
Defined.


(** ** C9: the sentinel *)

Lemma no_new_nan_refl d : no_new_nan d d.
Proof. intros f Hf. exact Hf. Qed.

Lemma no_new_nan_setf d d' f x :
  is_fin x -> no_new_nan d d' -> no_new_nan d (setf f x d').
Proof.
  intros Hx Hd g. destruct d' as [c p e fv iv]. cbn [setf fval].
  unfold insert, fn_insert. destruct (decide (f = g)).
  - destruct x; [contradiction | discriminate].
  - apply Hd.
Qed.

Lemma no_new_nan_seti d d' f x : no_new_nan d d' -> no_new_nan d (seti f x d').
Proof. intros Hd g. destruct d' as [c p e fv iv]. apply Hd. Qed.

Lemma no_new_nan_status d d' c p :
  no_new_nan d d' -> no_new_nan d (set_packet_count p (set_connected c d')).
Proof. intros Hd g. destruct d' as [c' p' e fv iv]. apply Hd. Qed.

Lemma no_new_nan_error d d' e : no_new_nan d d' -> no_new_nan d (set_error_count e d').
Proof. intros Hd g. destruct d' as [c' p' e' fv iv]. apply Hd. Qed.

Ltac fin_tac :=
  lazymatch goal with
  | |- is_fin (if ?c then _ else _) => destruct c; exact I
  | |- is_fin (fdiv_int (fmul_int _ _) _) => exact I
  | |- is_fin _ => exact I
  end.

Ltac no_new_nan_tac :=
  repeat first
    [ assumption
    | apply no_new_nan_refl
    | apply no_new_nan_seti
    | apply no_new_nan_setf; [fin_tac|] ].

Lemma parse_fast_no_new_nan d0 buf d : no_new_nan d0 d -> no_new_nan d0 (parse_fast buf d).
Proof. intros Hd. unfold parse_fast. cbv zeta. no_new_nan_tac. Qed.

Lemma parse_slow_no_new_nan d0 id buf off d :
  no_new_nan d0 d -> no_new_nan d0 (parse_slow id buf off d).
Proof.
  intros Hd. unfold parse_slow. cbv zeta.
  repeat case_match; cbn [for_adc_an for_pwm_duty]; no_new_nan_tac.
Qed.

Lemma parse_packet_no_new_nan a : no_new_nan (ecu_data a) (ecu_data (parse_packet a)).
Proof.
  unfold parse_packet. cbv zeta. cbn [set_new_data_flag set_ecu_data ecu_data].
  set (d1 := parse_fast (rxbuf a) (ecu_data a)).
  assert (H1 : no_new_nan (ecu_data a) d1) by apply parse_fast_no_new_nan, no_new_nan_refl.
  set (d2 := if rd (rxbuf a) 24 <? SLOW_PACKET_COUNT
             then parse_slow (rd (rxbuf a) 24) (rxbuf a) SLOW_PACKET_OFFSET d1 else d1).
  assert (H2 : no_new_nan (ecu_data a) d2).
  { subst d2. destruct (rd (rxbuf a) 24 <? SLOW_PACKET_COUNT); [|exact H1].
    apply parse_slow_no_new_nan, H1. }
  clearbody d2. clearbody d1.
  intros f. destruct d2 as [c p e fv iv]. apply H2.
Qed.

Lemma verify_no_new_nan a : no_new_nan (ecu_data a) (ecu_data (verify a)).
Proof.
  unfold verify. cbv zeta. destruct (checksum (rxbuf a) =? crc_rx a).
  - cbn [set_rxstate ecu_data]. apply parse_packet_no_new_nan.
  - cbn [set_rxstate set_ecu_data ecu_data]. apply no_new_nan_error, no_new_nan_refl.
Qed.

Lemma feed_switch_no_new_nan s b :
  no_new_nan (ecu_data s) (ecu_data (fst (feed_switch s b))).
Proof.
  destruct (Z.eq_dec (rxstate s) 6) as [E | Hne].
  - unfold feed_switch. rewrite E. cbv zeta.
    destruct (rd (rxbuf (accumulate s b)) 0 <? rxptr (accumulate s b)); cbn [fst].
    + rewrite <- (accumulate_ecu_data s b) at 1. apply verify_no_new_nan.
    + rewrite accumulate_ecu_data. apply no_new_nan_refl.
  - assert (E : ecu_data (fst (feed_switch s b)) = ecu_data s).
    { unfold feed_switch. repeat case_match; try reflexivity; congruence. }
    rewrite E. apply no_new_nan_refl.
Qed.

Lemma feed_byte_no_new_nan s b :
  no_new_nan (ecu_data s) (ecu_data (invent_ems_feed_byte s b)).
Proof.
  unfold invent_ems_feed_byte. cbn [feed_loop].
  pose proof (feed_switch_no_new_nan s b) as H1.
  destruct (feed_switch s b) as [s1 [|]] eqn:E1; cbn [fst] in H1; [|exact H1].
  apply feed_switch_retry in E1. subst s1.
  rewrite (feed_switch_state0 (set_rxstate 0 s) b eq_refl). cbn [default].
  destruct (b =? HEADER_0); apply no_new_nan_refl.
Qed.

Lemma feed_can_frame_no_new_nan s id d dlc :
  no_new_nan (ecu_data s) (ecu_data (fst (invent_ems_feed_can_frame s id d dlc))).
Proof.
  unfold invent_ems_feed_can_frame. cbv zeta.
  repeat case_match; simplify_eq; cbn [fst set_new_data_flag set_ecu_data ecu_data];
    try apply no_new_nan_refl;
    (intros f; match goal with |- fval (set_connected _ ?e) _ = _ -> _ =>
       assert (Hn : no_new_nan (ecu_data s) e) by no_new_nan_tac;
       specialize (Hn f); destruct e; exact Hn end).
Qed.

Lemma init_floats_nan s f :
  ffield_valid f -> fval (ecu_data (invent_ems_init s)) f = NaN.
Proof.
  intros Hf. destruct f; try reflexivity.
  cbn in Hf. do 6 (destruct i as [|i]; [reflexivity|]). lia.
Qed.

(** C9 (amended).  After [invent_ems_init] every [float] member of the
    telemetry record, the six [pwm_duty] slots included, is not-a-number, and
    neither decoder ever stores not-a-number: a [float] member that is
    not-a-number after a call of [invent_ems_feed_byte] or
    [invent_ems_feed_can_frame] was so before the call.  The integer members
    have no sentinel: they start at 0. *)
Theorem init_sentinels (s : parser) (f : ffield) (g : ifield) (b id dlc : Z) (d : list Z) :
  ffield_valid f ->
  fval (ecu_data (invent_ems_init s)) f = NaN /\
  ival (ecu_data (invent_ems_init s)) g = 0 /\
  (fval (ecu_data (invent_ems_feed_byte s b)) f = NaN -> fval (ecu_data s) f = NaN) /\
  (fval (ecu_data (fst (invent_ems_feed_can_frame s id d dlc))) f = NaN ->
   fval (ecu_data s) f = NaN).
Proof.
  intros Hf. split; [apply init_floats_nan, Hf|]. split; [reflexivity|]. split.
  - apply feed_byte_no_new_nan.
  - apply feed_can_frame_no_new_nan.
Qed.

Lemma init_sentinels_witness :
  fval (ecu_data (invent_ems_init power_on)) (pwm_duty 5) = NaN /\
  ival (ecu_data (invent_ems_init power_on)) runlevel = 0.
Proof.
  assert (Hf : ffield_valid (pwm_duty 5)) by (cbn; lia).
  destruct (init_sentinels power_on (pwm_duty 5) runlevel 0 0 8 [] Hf) as (H1 & H2 & _).
  split; assumption.
Defined.

(** C9 as stated fails on the integer members: [runlevel] is 0 after
    [invent_ems_init], and it is 0 again after the frame of the all-zero
    engine state has been verified and parsed; the value before the first
    frame cannot be told from a received one. *)
Lemma sentinel_counterexample :
  ival (ecu_data (invent_ems_init power_on)) runlevel = 0 /\
  packet_count (ecu_data (feed_bytes (invent_ems_init power_on) c6_frame)) = 1 /\
  ival (ecu_data (feed_bytes (invent_ems_init power_on) c6_frame)) runlevel
  = ival (ecu_data (invent_ems_init power_on)) runlevel.
Proof. split; [reflexivity|]. split; vm_compute; reflexivity. Qed.

(* ================================================================== *)
(** ** C8: the ring buffers *)
(* ================================================================== *)

(** Reduction modulo the capacity for the values that occur: an index plus
    or minus an index. *)
Lemma mod_range3 x n :
  0 < n -> - n <= x < 2 * n ->
  x mod n = if x <? 0 then x + n else if x <? n then x else x - n.
Proof.
  intros Hn Hx. destruct (Z.ltb_spec x 0); [|destruct (Z.ltb_spec x n)].
  - symmetry. apply (Z.mod_unique_pos x n (-1)); lia.
  - apply Z.mod_small. lia.
  - symmetry. apply (Z.mod_unique_pos x n 1); lia.
Qed.

Section ring_facts.
Context {A : Type} `{Inhabited A}.
Variable SIZE : Z.
Variable wrap : Z -> Z.
Hypothesis SIZE_gt_1 : 1 < SIZE.
Hypothesis wrap_index : forall x, 0 <= x < SIZE -> wrap x = x.

Local Abbreviation ring := (Ring.ring A).
Local Abbreviation wf := (Ring.wf SIZE).
Local Abbreviation push := (Ring.push SIZE wrap).
Local Abbreviation pop := (Ring.pop SIZE wrap).
Local Abbreviation full := (Ring.full SIZE wrap).
Local Abbreviation count := (Ring.count SIZE).
Local Abbreviation contents := (Ring.contents SIZE).

Ltac mod_tac :=
  repeat match goal with
         | |- context [?x mod SIZE] => rewrite (mod_range3 x SIZE) by lia
         | H : context [?x mod SIZE] |- _ => rewrite (mod_range3 x SIZE) in H by lia
         | |- context [?a <? ?b] => destruct (Z.ltb_spec a b)
         | H : context [?a <? ?b] |- _ => destruct (Z.ltb_spec a b)
         end.

Lemma next_index i : 0 <= i < SIZE -> wrap ((i + 1) mod SIZE) = (i + 1) mod SIZE.
Proof. intros Hi. apply wrap_index. apply Z.mod_pos_bound. lia. Qed.

Lemma count_range (r : ring) : wf r -> 0 <= count r < SIZE.
Proof. intros _. unfold Ring.count. apply Z.mod_pos_bound. lia. Qed.

Lemma length_contents (r : ring) : Z.of_nat (length (contents r)) = count r.
Proof.
  unfold Ring.contents. rewrite length_map, length_seq.
  apply Z2Nat.id. unfold Ring.count. apply Z.mod_pos_bound. lia.
Qed.

Lemma full_count (r : ring) : wf r -> (full r = true <-> count r = SIZE - 1).
Proof.
  intros (_ & Hh & Ht). unfold Ring.full, Ring.count.
  rewrite next_index by lia. rewrite Z.eqb_eq.
  split; intros E; mod_tac; lia.
Qed.

Lemma push_full (r : ring) x : full r = true -> push x r = r.
Proof. unfold Ring.full, Ring.push. cbv zeta. intros ->. reflexivity. Qed.

Lemma push_not_full (r : ring) x :
  wf r -> full r = false ->
  push x r = Ring.mk_ring (<[Z.to_nat (Ring.head r) := x]> (Ring.slots r))
                          ((Ring.head r + 1) mod SIZE) (Ring.tail r).
Proof.
  intros (_ & Hh & _). unfold Ring.full, Ring.push. cbv zeta. intros ->.
  cbn [negb]. rewrite next_index by lia. reflexivity.
Qed.

Lemma push_wf (r : ring) x : wf r -> wf (push x r).
Proof.
  intros Hwf. destruct (full r) eqn:Hfull.
  - rewrite push_full; assumption.
  - rewrite push_not_full by assumption. destruct Hwf as (Hl & Hh & Ht).
    unfold Ring.wf. cbn [Ring.slots Ring.head Ring.tail].
    rewrite length_insert. split_and!; try assumption; try lia;
      apply Z.mod_pos_bound; lia.
Qed.

Lemma contents_push (r : ring) x :
  wf r -> full r = false -> contents (push x r) = contents r ++ [x].
Proof.
  intros Hwf Hfull. pose proof (count_range r Hwf) as Hc.
  assert (Hnf : count r <> SIZE - 1).
  { intros E. apply (full_count r Hwf) in E. congruence. }
  rewrite push_not_full by assumption. destruct Hwf as (Hl & Hh & Ht).
  unfold Ring.contents, Ring.count in *. cbn [Ring.slots Ring.head Ring.tail].
  set (c := (Ring.head r - Ring.tail r) mod SIZE) in *.
  assert (Hc1 : ((Ring.head r + 1) mod SIZE - Ring.tail r) mod SIZE = c + 1).
  { subst c. mod_tac; lia. }
  rewrite Hc1. replace (Z.to_nat (c + 1)) with (Z.to_nat c + 1)%nat by lia.
  rewrite seq_app, map_app. cbn [seq map Nat.add]. f_equal.
  - apply map_ext_in. intros k Hk. apply in_seq in Hk.
    assert (Hne : (Ring.tail r + Z.of_nat k) mod SIZE <> Ring.head r).
    { subst c. mod_tac; lia. }
    rewrite list_lookup_total_insert_ne; [reflexivity|].
    assert (0 <= (Ring.tail r + Z.of_nat k) mod SIZE) by (apply Z.mod_pos_bound; lia).
    lia.
  - f_equal.
    assert (E : (Ring.tail r + Z.of_nat (Z.to_nat c)) mod SIZE = Ring.head r).
    { subst c. mod_tac; lia. }
    rewrite E. rewrite list_lookup_total_insert_eq by lia. reflexivity.
Qed.

Lemma pop_empty (r : ring) : wf r -> (pop r = None <-> contents r = []).
Proof.
  intros (Hl & Hh & Ht). unfold Ring.pop.
  destruct (Z.eqb_spec (Ring.tail r) (Ring.head r)) as [E | Hne].
  - split; [intros _ | reflexivity].
    unfold Ring.contents, Ring.count. rewrite E, Z.sub_diag, Z.mod_0_l by lia.
    reflexivity.
  - split; [discriminate|]. intros E. exfalso.
    apply (f_equal (fun l => Z.of_nat (length l))) in E.
    rewrite length_contents in E. unfold Ring.count in E. cbn in E.
    mod_tac; lia.
Qed.

Lemma pop_some (r : ring) x r' :
  wf r -> pop r = Some (x, r') ->
  wf r' /\ contents r = x :: contents r' /\
  Ring.head r' = Ring.head r /\ Ring.slots r' = Ring.slots r /\
  Ring.tail r' = (Ring.tail r + 1) mod SIZE.
Proof.
  intros (Hl & Hh & Ht). unfold Ring.pop.
  destruct (Z.eqb_spec (Ring.tail r) (Ring.head r)) as [E | Hne]; [discriminate|].
  rewrite next_index by lia. intros [= <- <-].
  cbn [Ring.slots Ring.head Ring.tail].
  assert (Hb : 0 <= (Ring.tail r + 1) mod SIZE < SIZE) by (apply Z.mod_pos_bound; lia).
  split; [unfold Ring.wf; cbn [Ring.slots Ring.head Ring.tail]; split_and!; assumption || lia|].
  split; [|split_and!; reflexivity].
  unfold Ring.contents, Ring.count. cbn [Ring.slots Ring.head Ring.tail].
  set (c := (Ring.head r - Ring.tail r) mod SIZE).
  assert (Hc : 0 < c < SIZE) by (subst c; mod_tac; lia).
  assert (Hc1 : (Ring.head r - (Ring.tail r + 1) mod SIZE) mod SIZE = c - 1)
    by (subst c; mod_tac; lia).
  rewrite Hc1. replace (Z.to_nat c) with (S (Z.to_nat (c - 1))) by lia.
  cbn [seq map]. f_equal.
  - do 2 f_equal. mod_tac; lia.
  - rewrite <- seq_shift, map_map. apply map_ext_in. intros k Hk. apply in_seq in Hk.
    do 2 f_equal. mod_tac; lia.
Qed.


End ring_facts.

(** The functions of the sources are the generic producer and consumer. *)
Lemma can_rx_cb_push NOTIFY_RX msg r :
  can_rx_cb NOTIFY_RX NOTIFY_RX msg r
  = Ring.push CAN_RX_BUF_SIZE u8
      (mk_frame (msg_id msg) (take 8 (msg_data msg)) (u8 (msg_dlc msg))) r.
Proof. unfold can_rx_cb. rewrite Z.eqb_refl. reflexivity. Qed.

Lemma uart0_irq_handler_run fifo r :
  uart0_irq_handler fifo r
  = (Ring.run UART_RX_BUF_SIZE u16 (map (fun ch => Ring.Push (u8 ch)) fifo) r).1.
Proof.
  revert r. induction fifo as [|ch fifo IH]; intros r; [reflexivity|].
  cbn [map Ring.run]. rewrite <- IH. reflexivity.
Qed.



(* ================================================================== *)
(** ** C2: the round trip through the wire *)
(* ================================================================== *)

(** ** Quantisation *)

Lemma cast_int_inv lo hi q z :
  cast_int lo hi q = Some z -> z = Qtrunc q /\ lo <= z <= hi.
Proof.
  unfold cast_int. cbv zeta.
  destruct (Z.leb_spec lo (Qtrunc q)); [|discriminate].
  destruct (Z.leb_spec (Qtrunc q) hi); [|discriminate].
  intros [= <-]. split; [reflexivity | lia].
Qed.

Lemma Qtrunc_bounds q :
  ((0 <= q -> inject_Z (Qtrunc q) <= q /\ q < inject_Z (Qtrunc q) + 1 /\ 0 <= inject_Z (Qtrunc q)) /\
   (q < 0 -> q <= inject_Z (Qtrunc q) /\ inject_Z (Qtrunc q) - 1 < q /\ inject_Z (Qtrunc q) <= 0))%Q.
Proof.
  unfold Qtrunc. split; intros Hq.
  - destruct (Qltb_spec q 0) as [Hlt | _]; [exfalso; apply (Qlt_not_le _ _ Hlt), Hq|].
    split; [apply Qfloor_le|]. split.
    + pose proof (Qlt_floor q) as Hf. rewrite inject_Z_plus in Hf. exact Hf.
    + change 0%Q with (inject_Z 0). rewrite <- Zle_Qle.
      change 0 with (Qfloor 0). apply Qfloor_resp_le, Hq.
  - destruct (Qltb_spec q 0) as [_ | Hge]; [|contradiction].
    split; [apply Qle_ceiling|]. split.
    + pose proof (Qceiling_lt q) as Hc. unfold Z.sub in Hc.
      rewrite inject_Z_plus in Hc. exact Hc.
    + change 0%Q with (inject_Z 0). rewrite <- Zle_Qle.
      change 0 with (Qceiling 0). apply Qceiling_resp_le, Qlt_le_weak, Hq.
Qed.

Lemma Qle_bool_comp a b a' b' :
  (a == a')%Q -> (b == b')%Q -> Qle_bool a b = Qle_bool a' b'.
Proof.
  intros Ha Hb. apply eq_true_iff_eq. rewrite !Qle_bool_iff, Ha, Hb. reflexivity.
Qed.

Lemma Qtrunc_comp q q' : (q == q')%Q -> Qtrunc q = Qtrunc q'.
Proof.
  intros E. unfold Qtrunc, Qltb.
  rewrite (Qle_bool_comp 0 q 0 q' (Qeq_refl 0) E).
  rewrite (Qfloor_comp q q' E), (Qceiling_comp q q' E). reflexivity.
Qed.





(** ** Bytes on the wire *)

Lemma rd_at (buf : list Z) i x :
  0 <= i -> buf !! Z.to_nat i = Some x -> rd buf i = x.
Proof.
  intros Hi Hx. unfold rd. destruct (Z.ltb_spec i 0); [lia|]. rewrite Hx. reflexivity.
Qed.

Lemma split_join_16 z :
  Z.lor (u16 (u8 z)) (Z.shiftl (u16 (u8 (Z.shiftr (u16 z) 8))) 8) = u16 z.
Proof.
  pose proof (u16_range z) as Hz. pose proof (u8_range z) as Hlo.
  assert (Hhi : 0 <= Z.shiftr (u16 z) 8 < 256) by (apply shiftr_range; lia).
  rewrite (u8_small (Z.shiftr (u16 z) 8)) by lia.
  rewrite (u16_small (u8 z)), (u16_small (Z.shiftr (u16 z) 8)) by lia.
  assert (E : u8 z = Z.land (u16 z) 255).
  { rewrite <- u8_land. unfold u8, u16.
    symmetry. apply Z.mod_mod_divide. exists 256. reflexivity. }
  rewrite E.
  pose proof (join_split_u16 (u16 z) Hz) as J.
  assert (Hl : 0 <= Z.land (u16 z) 255 < 256) by apply land_255_range.
  rewrite (u16_small (Z.land (u16 z) 255)), (u16_small (Z.shiftr (u16 z) 8)) in J by lia.
  rewrite u16_small in J; [exact J|].
  apply (lor_range 16); [lia | lia |].
  pose proof (shiftl_range (Z.shiftr (u16 z) 8) 8 256). lia.
Qed.

Lemma read_u16_at (buf : list Z) i z :
  0 <= i ->
  buf !! Z.to_nat i = Some (u8 z) ->
  buf !! Z.to_nat (i + 1) = Some (u8 (Z.shiftr (u16 z) 8)) ->
  read_u16 buf i = u16 z.
Proof.
  intros Hi H0 H1. unfold read_u16.
  rewrite (rd_at buf i _ Hi H0), (rd_at buf (i + 1) _ ltac:(lia) H1).
  rewrite split_join_16. apply u16_small, u16_range.
Qed.

Lemma i16_small z : -32768 <= z <= 32767 -> i16 z = z.
Proof.
  intros Hz. unfold i16, u16. cbv zeta.
  rewrite (mod_range3 z (2 ^ 16)) by lia.
  destruct (Z.ltb_spec z 0); [|destruct (Z.ltb_spec z (2 ^ 16)); [|lia]].
  - destruct (Z.ltb_spec (z + 2 ^ 16) (2 ^ 15)); lia.
  - destruct (Z.ltb_spec z (2 ^ 15)); lia.
Qed.

Lemma i16_u16 z : i16 (u16 z) = i16 z.
Proof. unfold i16. cbv zeta. rewrite (u16_small (u16 z)) by apply u16_range. reflexivity. Qed.

Lemma read_i16_at (buf : list Z) i z :
  0 <= i ->
  buf !! Z.to_nat i = Some (u8 z) ->
  buf !! Z.to_nat (i + 1) = Some (u8 (Z.shiftr (u16 z) 8)) ->
  read_i16 buf i = i16 z.
Proof.
  intros Hi H0 H1. unfold read_i16.
  rewrite (rd_at buf i _ Hi H0), (rd_at buf (i + 1) _ ltac:(lia) H1).
  rewrite split_join_16. apply i16_u16.
Qed.

Lemma i8_u8_small z : -128 <= z <= 127 -> i8 (u8 z) = z.
Proof.
  intros Hz. unfold i8. cbv zeta. rewrite (u8_small (u8 z)) by apply u8_range.
  unfold u8. rewrite (mod_range3 z (2 ^ 8)) by lia.
  destruct (Z.ltb_spec z 0); [|destruct (Z.ltb_spec z (2 ^ 8)); [|lia]].
  - destruct (Z.ltb_spec (z + 2 ^ 8) (2 ^ 7)); lia.
  - destruct (Z.ltb_spec z (2 ^ 7)); lia.
Qed.

(** ** The decoded record after a frame of the emulator *)

Lemma fval_status c p d : fval (set_packet_count p (set_connected c d)) = fval d.
Proof. destruct d. reflexivity. Qed.

Lemma ival_status c p d : ival (set_packet_count p (set_connected c d)) = ival d.
Proof. destruct d. reflexivity. Qed.

Lemma packet_image_slow_id eng Uoz Period InjTime idx sp tl :
  rd (CarEmu.packet_image eng Uoz Period InjTime idx sp ++ tl) 24 = u8 idx.
Proof. apply rd_at; [lia | reflexivity]. Qed.

Lemma round_trip_decoded eng idx frame next s :
  0 <= idx < 10 ->
  CarEmu.buildAndSend eng idx = Some (frame, next) ->
  parser_wf s -> rxstate s <= 4 ->
  exists Uoz Period InjTime sp tl,
    cast_i16 (CarEmu.angleDeg eng / (1 # 4)) = Some Uoz /\
    CarEmu.rpmToPeriod (CarEmu.rpm eng) = Some Period /\
    cast_u16 (CarEmu.injTimeMs eng / (4 # 1000)) = Some InjTime /\
    CarEmu.fillSlow idx eng = Some sp /\
    fval (ecu_data (feed_bytes s frame))
    = fval (parse_slow idx (CarEmu.packet_image eng Uoz Period InjTime idx sp ++ tl)
              SLOW_PACKET_OFFSET
              (parse_fast (CarEmu.packet_image eng Uoz Period InjTime idx sp ++ tl)
                          (ecu_data s))) /\
    ival (ecu_data (feed_bytes s frame))
    = ival (parse_slow idx (CarEmu.packet_image eng Uoz Period InjTime idx sp ++ tl)
              SLOW_PACKET_OFFSET
              (parse_fast (CarEmu.packet_image eng Uoz Period InjTime idx sp ++ tl)
                          (ecu_data s))).
Proof.
  intros Hidx Hemu (Hlen & Hst0 & _) Hst.
  destruct (buildAndSend_inv eng idx frame next Hemu)
    as (Uoz & Period & InjTime & sp & body & HU & HP & HI & Hsp & Himg & Hbl & Hbb & Hf & _).
  assert (Hv : valid_frame 37 body frame).
  { unfold valid_frame. split_and!; try assumption; lia. }
  destruct s as [st buf p d fl]. cbn [rxstate rxbuf ecu_data] in *.
  destruct buf as [|b0 rest]; [discriminate Hlen|].
  assert (Hrest : length rest = 63%nat) by (cbn [length] in Hlen; lia).
  rewrite (feed_valid_frame st b0 rest p d fl 37 body frame ltac:(lia) Hrest Hv).
  set (tl := [Z.land (checksum (37 :: body)) 255; Z.shiftr (checksum (37 :: body)) 8] ++
             drop (Z.to_nat 37) rest).
  exists Uoz, Period, InjTime, sp, tl.
  split_and!; try assumption.
  all: rewrite <- Himg; unfold parse_packet; cbv zeta;
    cbn [rxbuf ecu_data set_rxstate set_new_data_flag set_ecu_data];
    rewrite packet_image_slow_id, (u8_small idx) by lia;
    unfold SLOW_PACKET_COUNT; destruct (Z.ltb_spec idx 10); [|lia].
  - apply fval_status.
  - apply ival_status.
Qed.



Ltac read_wire :=
  repeat first
    [ erewrite read_u16_at; [| lia | reflexivity | reflexivity]
    | erewrite read_i16_at; [| lia | reflexivity | reflexivity]
    | erewrite rd_at; [| lia | reflexivity] ].










(* ================================================================== *)
(** * Further properties of the code *)
(* ================================================================== *)

(** ** The checksum loses no information *)

Lemma all_from_spec n P :
  forall z0, all_from n z0 P = true ->
             forall z, z0 <= z < z0 + Z.of_nat n -> P z = true.
Proof.
  induction n as [|n IH]; intros z0 Hall z Hz; [lia|].
  cbn [all_from] in Hall. apply andb_true_iff in Hall as [Hn Hall].
  destruct (Z.eq_dec z z0) as [-> | Hne]; [exact Hn|].
  apply (IH (z0 + 1)); [exact Hall | lia].
Qed.

Lemma crc_round_zero_undone :
  all_from (Z.to_nat 65536) 0 (fun c => crc_unround (crc_round c 0) =? c) = true.
Proof. vm_compute. reflexivity. Qed.

Lemma crc_round_zero_inv c :
  0 <= c < 65536 -> crc_unround (crc_round c 0) = c.
Proof.
  intros Hc. apply Z.eqb_eq.
  apply (all_from_spec _ _ 0 crc_round_zero_undone c).
  change (Z.of_nat (Z.to_nat 65536)) with 65536. lia.
Qed.

(** The byte enters a round only through the low byte of the accumulator. *)
Lemma crc_round_xor c b :
  is_byte b -> crc_round c b = crc_round (Z.lxor c b) 0.
Proof.
  intros Hb. unfold is_byte in Hb.
  assert (H1 : u8 (Z.lxor b (u8 (Z.land c 0xFF)))
               = u8 (Z.lxor 0 (u8 (Z.land (Z.lxor c b) 0xFF)))).
  { rewrite !u8_land. apply Z.bits_inj'. intros n Hn.
    repeat first [rewrite Z.land_spec | rewrite Z.lxor_spec | rewrite Z.bits_0].
    destruct (Z.testbit b n), (Z.testbit c n), (Z.testbit 255 n); reflexivity. }
  assert (H2 : Z.land (Z.shiftr c 8) 0xFF = Z.land (Z.shiftr (Z.lxor c b) 8) 0xFF).
  { rewrite Z.shiftr_lxor.
    replace (Z.shiftr b 8) with 0; [rewrite Z.lxor_0_r; reflexivity|].
    rewrite Z.shiftr_div_pow2 by lia. symmetry. apply Z.div_small. lia. }
  unfold crc_round. cbv zeta. rewrite H1, H2. reflexivity.
Qed.

Lemma lxor_cancel_r a a' b : Z.lxor a b = Z.lxor a' b -> a = a'.
Proof.
  intros E.
  rewrite <- (Z.lxor_0_r a), <- (Z.lxor_0_r a'), <- (Z.lxor_nilpotent b).
  rewrite <- !Z.lxor_assoc, E. reflexivity.
Qed.

Lemma lxor_cancel_l a b b' : Z.lxor a b = Z.lxor a b' -> b = b'.
Proof. rewrite !(Z.lxor_comm a). apply lxor_cancel_r. Qed.

(** A round is one-to-one in the accumulator ... *)
Lemma crc_round_inj_acc c c' b :
  0 <= c < 65536 -> 0 <= c' < 65536 -> is_byte b ->
  crc_round c b = crc_round c' b -> c = c'.
Proof.
  intros Hc Hc' Hb E. rewrite !(crc_round_xor _ b Hb) in E.
  unfold is_byte in Hb.
  assert (R : 0 <= Z.lxor c b < 2 ^ 16) by (apply lxor_range; lia).
  assert (R' : 0 <= Z.lxor c' b < 2 ^ 16) by (apply lxor_range; lia).
  apply (f_equal crc_unround) in E.
  rewrite !crc_round_zero_inv in E by lia.
  exact (lxor_cancel_r _ _ _ E).
Qed.

(** ... and in the byte. *)
Lemma crc_round_inj_byte c b b' :
  0 <= c < 65536 -> is_byte b -> is_byte b' ->
  crc_round c b = crc_round c b' -> b = b'.
Proof.
  intros Hc Hb Hb' E. rewrite (crc_round_xor _ b Hb), (crc_round_xor _ b' Hb') in E.
  unfold is_byte in Hb, Hb'.
  assert (R : 0 <= Z.lxor c b < 2 ^ 16) by (apply lxor_range; lia).
  assert (R' : 0 <= Z.lxor c b' < 2 ^ 16) by (apply lxor_range; lia).
  apply (f_equal crc_unround) in E.
  rewrite !crc_round_zero_inv in E by lia.
  exact (lxor_cancel_l _ _ _ E).
Qed.

Lemma fold_left_step {A B : Type} (f : A -> B -> A) x l a :
  fold_left f (x :: l) a = fold_left f l (f a x).
Proof. reflexivity. Qed.

(** The loop of [checksum] as a fold over the bytes it reads. *)
Lemma crc_for_fold_round (buf : list Z) :
  forall (n i : nat) crc,
    (i + n <= length buf)%nat ->
    crc_for n buf (Z.of_nat i) crc = fold_left crc_round (take n (drop i buf)) crc.
Proof.
  induction n as [|n IH]; intros i crc Hlen; [reflexivity|].
  rewrite crc_for_S.
  destruct (lookup_lt_is_Some_2 buf i ltac:(lia)) as [x Hx].
  rewrite (drop_S _ _ _ Hx), firstn_cons, fold_left_step.
  rewrite (rd_lookup _ _ _ Hx).
  replace (Z.of_nat i + 1) with (Z.of_nat (S i)) by lia.
  apply IH. lia.
Qed.

Lemma checksum_fold L (body : list Z) :
  4 <= L <= 48 -> Z.of_nat (length body) = L - 2 ->
  checksum (L :: body) = fold_left crc_round body (crc_round 0xFFFF L).
Proof.
  intros HL Hlen. unfold checksum, MAX_RX_BUF. rewrite rd_0.
  unfold u8. rewrite Z.mod_small by lia.
  destruct (Z.leb_spec (64 - 2) (L - 2)); [lia|].
  rewrite (crc_for_fold_round (L :: body) (Z.to_nat (L - 2 + 1)) 0)
    by (cbn [length]; lia).
  rewrite drop_0, firstn_all2 by (cbn [length]; lia).
  apply fold_left_step.
Qed.

Lemma fold_crc_range bytes :
  forall crc, 0 <= crc < 65536 -> 0 <= fold_left crc_round bytes crc < 65536.
Proof.
  induction bytes as [|b bytes IH]; intros crc Hc; [exact Hc|].
  rewrite fold_left_step. apply IH. apply crc_round_range.
Qed.

Lemma fold_crc_inj bytes :
  Forall is_byte bytes ->
  forall c c', 0 <= c < 65536 -> 0 <= c' < 65536 ->
               fold_left crc_round bytes c = fold_left crc_round bytes c' -> c = c'.
Proof.
  induction 1 as [|b bytes Hb _ IH]; intros c c' Hc Hc' E; [exact E|].
  rewrite !fold_left_step in E.
  apply IH in E; try apply crc_round_range.
  exact (crc_round_inj_acc _ _ _ Hc Hc' Hb E).
Qed.

(** Two packets that differ in exactly one byte after the length byte have
    different checksums. *)
Lemma checksum_single_byte L (pre post : list Z) b b' :
  4 <= L <= 48 ->
  Z.of_nat (length (pre ++ b :: post)) = L - 2 ->
  Forall is_byte (pre ++ b :: post) -> is_byte b' -> b <> b' ->
  checksum (L :: pre ++ b' :: post) <> checksum (L :: pre ++ b :: post).
Proof.
  intros HL Hlen Hall Hb' Hne E.
  rewrite !checksum_fold in E by (rewrite ?length_app in *; cbn [length] in *; lia).
  rewrite !fold_left_app, !fold_left_step in E.
  apply Forall_app in Hall as [Hpre Hall].
  inversion Hall as [|? ? Hb Hpost]; subst.
  assert (R : 0 <= fold_left crc_round pre (crc_round 65535 L) < 65536)
    by (apply fold_crc_range, crc_round_range).
  apply (fold_crc_inj post Hpost) in E; try apply crc_round_range.
  apply crc_round_inj_byte in E; try assumption. congruence.
Qed.

(* ================================================================== *)
(** ** invent_ems.c: the serial decoder *)
(* ================================================================== *)

(** X1.  A frame that arrives with one byte of its packet changed is counted as
    an error and leaves the telemetry record alone: the checksum of the
    received packet differs from the transmitted one, and the decoder, in
    any of the states 0 to 4, counts one error, keeps [packet_count],
    [connected], every member and the flag, and returns to state 0. *)
Theorem single_byte_corruption_rejected (s : parser) (L : Z) (pre post : list Z)
        (b b' : Z) :
  parser_wf s -> 0 <= rxstate s <= 4 ->
  4 <= L <= 48 ->
  Z.of_nat (length (pre ++ b :: post)) = L - 2 ->
  Forall is_byte (pre ++ b :: post) -> is_byte b' -> b <> b' ->
  let sent := L :: pre ++ b :: post in
  let received := L :: pre ++ b' :: post in
  let s' := feed_bytes s (wire_frame L (pre ++ b' :: post) (checksum sent)) in
  checksum received <> checksum sent /\
  error_count (ecu_data s') = u32 (error_count (ecu_data s) + 1) /\
  packet_count (ecu_data s') = packet_count (ecu_data s) /\
  connected (ecu_data s') = connected (ecu_data s) /\
  fval (ecu_data s') = fval (ecu_data s) /\
  ival (ecu_data s') = ival (ecu_data s) /\
  new_data_flag s' = new_data_flag s /\
  rxstate s' = 0.
Proof.
  intros (Hbuf & _ & _) Hst HL Hlen Hall Hb' Hne sent received s'.
  assert (Hcrc : checksum received <> checksum sent)
    by (apply checksum_single_byte; assumption).
  split; [exact Hcrc|].
  assert (Hlen' : Z.of_nat (length (pre ++ b' :: post)) = L - 2)
    by (rewrite length_app in *; cbn [length] in *; lia).
  subst s'. destruct s as [st buf p d fl]. cbn [rxstate rxbuf ecu_data new_data_flag] in *.
  destruct buf as [|b0 rest]; [discriminate Hbuf|].
  assert (Hrest : length rest = 63%nat) by (cbn [length] in Hbuf; lia).
  unfold wire_frame.
  rewrite (feed_frame_bytes st b0 rest p d fl L _ _ _ Hst HL Hlen' Hrest).
  rewrite verify_mismatch.
  - destruct d as [c pc ec fv iv].
    cbn [set_rxstate set_ecu_data set_error_count ecu_data error_count packet_count
         connected fval ival new_data_flag rxstate].
    split_and!; reflexivity.
  - cbn [rxbuf].
    rewrite (checksum_app L _ _ HL Hlen'), (crc_rx_frame L _ _ _ _ d fl Hlen' HL).
    rewrite join_split_u16 by apply checksum_range. exact Hcrc.
Qed.

Lemma single_byte_corruption_rejected_witness :
  error_count (ecu_data (feed_bytes (invent_ems_init power_on)
                           (wire_frame 4 [1; 3] (checksum [4; 1; 2])))) = 1.
Proof.
  assert (Hst : 0 <= rxstate (invent_ems_init power_on) <= 4) by (cbn; lia).
  assert (HL : 4 <= 4 <= 48) by lia.
  assert (Hlen : Z.of_nat (length ([1] ++ 2 :: [])) = 4 - 2) by reflexivity.
  assert (Hall : Forall is_byte ([1] ++ 2 :: []))
    by (repeat constructor; unfold is_byte; lia).
  assert (Hb' : is_byte 3) by (unfold is_byte; lia).
  assert (Hne : 2 <> 3) by lia.
  exact (proj1 (proj2 (single_byte_corruption_rejected (invent_ems_init power_on) 4 [1] []
                         2 3 parser_wf_power_on Hst HL Hlen Hall Hb' Hne))).
Defined.

(** Valid frames that follow one another without a gap. *)
Lemma feed_frames frames :
  forall s, parser_wf s -> 0 <= rxstate s <= 4 ->
    Forall (fun fr => exists L body, valid_frame L body fr) frames ->
    frames <> [] ->
    let s' := feed_bytes s (concat frames) in
    parser_wf s' /\ rxstate s' = 0 /\
    packet_count (ecu_data s')
    = u32 (packet_count (ecu_data s) + Z.of_nat (length frames)) /\
    error_count (ecu_data s') = error_count (ecu_data s) /\
    connected (ecu_data s') = true /\ new_data_flag s' = true.
Proof.
  induction frames as [|fr frames IH]; intros s Hwf Hst Hall Hne; [congruence|].
  inversion Hall as [|? ? (L & body & Hv) Hall']; subst.
  rewrite concat_cons, feed_bytes_app.
  destruct (feed_valid_frame_counts s L body fr Hwf Hst Hv) as (Hp & He & Hc & Hf & H0).
  assert (Hwf1 : parser_wf (feed_bytes s fr)) by (apply parser_wf_feed_bytes, Hwf).
  destruct frames as [|fr2 frames'].
  - cbn [concat feed_bytes fold_left length]. fold (feed_bytes s fr).
    split_and!; assumption.
  - assert (Hst1 : 0 <= rxstate (feed_bytes s fr) <= 4) by lia.
    destruct (IH (feed_bytes s fr) Hwf1 Hst1 Hall' ltac:(discriminate))
      as (Hwf' & H0' & Hp' & He' & Hc' & Hf').
    split_and!; try assumption.
    + rewrite Hp', Hp. unfold u32. rewrite Zplus_mod_idemp_l.
      f_equal. cbn [length]. lia.
    + rewrite He'. exact He.
Qed.

(** X2.  Any number of valid frames sent back to back are all decoded, one count
    each and no error; and however many arrived, [invent_ems_has_new_data]
    reports them once: the first call answers true and clears the flag, the
    second answers false, and neither touches the telemetry record or the
    framing state. *)
Theorem back_to_back_frames_reported_once (s : parser) (frames : list (list Z)) :
  parser_wf s -> 0 <= rxstate s <= 4 ->
  Forall (fun fr => exists L body, valid_frame L body fr) frames ->
  frames <> [] ->
  let s1 := feed_bytes s (concat frames) in
  let poll1 := invent_ems_has_new_data s1 in
  let poll2 := invent_ems_has_new_data (fst poll1) in
  packet_count (ecu_data s1)
  = u32 (packet_count (ecu_data s) + Z.of_nat (length frames)) /\
  error_count (ecu_data s1) = error_count (ecu_data s) /\
  connected (ecu_data s1) = true /\
  rxstate s1 = 0 /\
  snd poll1 = true /\ snd poll2 = false /\
  fst poll2 = fst poll1 /\
  fst poll1 = set_new_data_flag false s1.
Proof.
  intros Hwf Hst Hall Hne s1 poll1 poll2.
  destruct (feed_frames frames s Hwf Hst Hall Hne) as (_ & H0 & Hp & He & Hc & Hf).
  fold s1 in H0, Hp, He, Hc, Hf.
  assert (E1 : poll1 = (set_new_data_flag false s1, true)).
  { subst poll1. unfold invent_ems_has_new_data. rewrite Hf. reflexivity. }
  assert (E2 : poll2 = (set_new_data_flag false s1, false)).
  { subst poll2. rewrite E1. reflexivity. }
  rewrite E2, E1. cbn [fst snd].
  split_and!; try assumption; reflexivity.
Qed.

Lemma back_to_back_frames_reported_once_witness :
  packet_count (ecu_data (feed_bytes (invent_ems_init power_on)
                            (concat [c3_frame; c6_frame; c3_frame]))) = u32 (0 + Z.of_nat 3).
Proof.
  assert (Hst : 0 <= rxstate (invent_ems_init power_on) <= 4) by (cbn; lia).
  assert (H6 : valid_frame 37 (1 :: replicate 34 0) c6_frame).
  { unfold valid_frame. split_and!; [lia | lia | reflexivity | |].
    - repeat constructor; unfold is_byte; lia.
    - vm_compute. reflexivity. }
  assert (Hall : Forall (fun fr => exists L body, valid_frame L body fr)
                        [c3_frame; c6_frame; c3_frame]).
  { repeat constructor.
    - exists 4, [1; 2]. exact c3_frame_valid.
    - exists 37, (1 :: replicate 34 0). exact H6.
    - exists 4, [1; 2]. exact c3_frame_valid. }
  assert (Hne : [c3_frame; c6_frame; c3_frame] <> []) by discriminate.
  exact (proj1 (back_to_back_frames_reported_once (invent_ems_init power_on)
                  [c3_frame; c6_frame; c3_frame] parser_wf_power_on Hst Hall Hne)).
Defined.

(** X3.  The telemetry record and the flag change on one occasion only: the byte
    that completes a frame (state 6 and the write position passing the
    length byte).  Every other byte, in whatever state, leaves both as they
    are. *)
Theorem telemetry_changes_only_at_frame_end (s : parser) (b : Z) :
  rxstate s <> 6 \/ rxptr (accumulate s b) <= rd (rxbuf (accumulate s b)) 0 ->
  ecu_data (invent_ems_feed_byte s b) = ecu_data s /\
  new_data_flag (invent_ems_feed_byte s b) = new_data_flag s.
Proof.
  intros Hcase.
  destruct (Z.eq_dec (rxstate s) 6) as [E6 | Hne].
  - destruct Hcase as [Hne | Hinc]; [contradiction|].
    rewrite (feed_byte_incomplete s b E6 Hinc).
    split; [apply accumulate_ecu_data | apply accumulate_new_data_flag].
  - assert (Hsw : ecu_data (fst (feed_switch s b)) = ecu_data s /\
                  new_data_flag (fst (feed_switch s b)) = new_data_flag s).
    { unfold feed_switch. repeat case_match; split; try reflexivity; congruence. }
    unfold invent_ems_feed_byte. cbn [feed_loop].
    destruct (feed_switch s b) as [s1 [|]] eqn:E1; cbn [fst] in Hsw; [|exact Hsw].
    apply feed_switch_retry in E1. subst s1.
    rewrite (feed_switch_state0 (set_rxstate 0 s) b eq_refl). cbn [default].
    destruct (b =? HEADER_0); split; reflexivity.
Qed.

Lemma telemetry_changes_only_at_frame_end_witness :
  ecu_data (invent_ems_feed_byte c5_state 0x54) = ecu_data c5_state.
Proof.
  assert (H : rxstate c5_state <> 6 \/
              rxptr (accumulate c5_state 0x54) <= rd (rxbuf (accumulate c5_state 0x54)) 0)
    by (left; vm_compute; discriminate).
  exact (proj1 (telemetry_changes_only_at_frame_end c5_state 0x54 H)).
Defined.

(** X4.  A header followed by a length byte outside [MIN_PACKET_LEN ..
    MAX_PACKET_LEN] is dropped without a trace: from any of the states 0 to
    4 the parser is back in state 0 with nothing else changed, no error is
    counted, and the offending byte is not looked at again, not even when it
    is the sync byte 0x55. *)
Theorem bad_length_byte_drops_header (s : parser) (b : Z) :
  0 <= rxstate s <= 4 ->
  b < MIN_PACKET_LEN \/ MAX_PACKET_LEN < b ->
  feed_bytes s [HEADER_0; HEADER_1; HEADER_2; HEADER_3; INVENT_EMS_PROTOCOL_VER; b]
  = set_rxstate 0 s.
Proof.
  intros Hst Hb. destruct s as [st buf p d fl]. cbn [rxstate] in Hst.
  change [HEADER_0; HEADER_1; HEADER_2; HEADER_3; INVENT_EMS_PROTOCOL_VER; b]
    with ([HEADER_0; HEADER_1; HEADER_2; HEADER_3; INVENT_EMS_PROTOCOL_VER] ++ [b]).
  rewrite feed_bytes_app, (feed_header st buf p d fl Hst).
  cbn [feed_bytes fold_left].
  apply feed_byte_no_retry. unfold feed_switch. cbn [rxstate].
  unfold MIN_PACKET_LEN, MAX_PACKET_LEN in *.
  destruct (Z.leb_spec 4 b), (Z.leb_spec b 48); try lia; reflexivity.
Qed.

Lemma bad_length_byte_drops_header_witness :
  rxstate (feed_bytes (invent_ems_init power_on)
             [HEADER_0; HEADER_1; HEADER_2; HEADER_3; INVENT_EMS_PROTOCOL_VER; 0x55]) = 0.
Proof.
  assert (Hst : 0 <= rxstate (invent_ems_init power_on) <= 4) by (cbn; lia).
  assert (Hb : 0x55 < MIN_PACKET_LEN \/ MAX_PACKET_LEN < 0x55)
    by (right; reflexivity).
  rewrite (bad_length_byte_drops_header (invent_ems_init power_on) 0x55 Hst Hb).
  reflexivity.
Defined.

(** X5.  [checksum] never reads outside the 64-byte receive buffer, whatever the
    length byte is: its result depends on the first 62 bytes only, and for a
    length byte below 2 (where [buf[0] - 2] wraps) or from 64 on it reads
    nothing but the length byte and returns 0. *)
Theorem checksum_stays_inside_buffer (buf junk : list Z) :
  (62 <= length buf)%nat ->
  checksum (take 62 buf ++ junk) = checksum buf /\
  (is_byte (rd buf 0) -> rd buf 0 < 2 \/ 64 <= rd buf 0 -> checksum buf = 0).
Proof.
  intros Hlen. split.
  - assert (Htake : length (take 62 buf) = 62%nat) by (rewrite length_take; lia).
    assert (E : forall tl, checksum (take 62 buf ++ tl) = checksum (take 62 buf)).
    { intros tl. unfold checksum, MAX_RX_BUF.
      rewrite (rd_app_l (take 62 buf) tl 0) by lia.
      destruct (Z.leb_spec (64 - 2) (u8 (rd (take 62 buf) 0 - 2))); [reflexivity|].
      pose proof (u8_range (rd (take 62 buf) 0 - 2)).
      apply crc_for_app; lia. }
    rewrite E. rewrite <- (take_drop 62 buf) at 2. symmetry. apply E.
  - intros Hb Hout. unfold is_byte in Hb. unfold checksum, MAX_RX_BUF.
    destruct (Z.leb_spec (64 - 2) (u8 (rd buf 0 - 2))) as [_ | Hlt]; [reflexivity|].
    exfalso. unfold u8 in Hlt.
    destruct (Z.lt_ge_cases (rd buf 0) 2) as [Hsmall | Hbig].
    + rewrite (mod_range3 (rd buf 0 - 2) (2 ^ 8)) in Hlt by lia.
      destruct (Z.ltb_spec (rd buf 0 - 2) 0); lia.
    + rewrite Z.mod_small in Hlt by lia. lia.
Qed.

Lemma checksum_stays_inside_buffer_witness :
  checksum (take 62 (replicate 64 1) ++ [7; 7]) = checksum (replicate 64 1).
Proof.
  assert (Hlen : (62 <= length (replicate 64 1))%nat) by (vm_compute; lia).
  exact (proj1 (checksum_stays_inside_buffer (replicate 64 1) [7; 7] Hlen)).
Defined.

(* ================================================================== *)
(** ** invent_ems.c: the bus decoder beside the serial decoder *)
(* ================================================================== *)

Lemma same_framing_refl s : same_framing s s.
Proof. unfold same_framing. split_and!; reflexivity. Qed.

Lemma same_framing_trans s t u : same_framing s t -> same_framing t u -> same_framing s u.
Proof.
  unfold same_framing. intros (?&?&?&?&?) (?&?&?&?&?). split_and!; congruence.
Qed.

Lemma rxptr_verify a : rxptr (verify a) = rxptr a.
Proof.
  unfold verify. cbv zeta. destruct (checksum (rxbuf a) =? crc_rx a).
  - cbn [set_rxstate rxptr]. apply parse_packet_status.
  - reflexivity.
Qed.

Lemma feed_switch_default s b :
  rxstate s < 0 \/ 6 < rxstate s -> feed_switch s b = (set_rxstate 0 s, false).
Proof. intros H. unfold feed_switch. repeat case_match; try reflexivity; lia. Qed.

(** Outside state 6 a byte moves the framing state only. *)
Lemma feed_byte_framing st buf p b :
  st <> 6 ->
  exists st' buf' p',
    forall d fl, invent_ems_feed_byte (mk_parser st buf p d fl) b
                 = mk_parser st' buf' p' d fl.
Proof.
  intros Hne.
  assert (Hc : st = 0 \/ 1 <= st <= 4 \/ st = 5 \/ (st < 0 \/ 6 < st)) by lia.
  destruct Hc as [-> | [H14 | [-> | Hout]]].
  - exists (if b =? HEADER_0 then 1 else 0), buf, p. intros d fl.
    rewrite feed_byte_state0 by reflexivity. destruct (b =? HEADER_0); reflexivity.
  - destruct (Z.eq_dec b (expected_byte st)) as [Hb | Hb].
    + exists (u8 (st + 1)), buf, p. intros d fl. apply feed_byte_no_retry.
      assert (Hcases : st = 1 \/ st = 2 \/ st = 3 \/ st = 4) by lia.
      destruct Hcases as [E1|[E1|[E1|E1]]]; subst st b; reflexivity.
    + exists (if b =? HEADER_0 then 1 else 0), buf, p. intros d fl.
      rewrite feed_byte_resync by assumption. reflexivity.
  - destruct ((MIN_PACKET_LEN <=? b) && (b <=? MAX_PACKET_LEN)) eqn:Hrange.
    + exists 6, (wr buf 0 b), 1. intros d fl. apply feed_byte_no_retry.
      unfold feed_switch. cbn [rxstate]. rewrite Hrange. reflexivity.
    + exists 0, buf, p. intros d fl. apply feed_byte_no_retry.
      unfold feed_switch. cbn [rxstate]. rewrite Hrange. reflexivity.
  - exists 0, buf, p. intros d fl. apply feed_byte_no_retry.
    apply feed_switch_default. exact Hout.
Qed.

(** The framing state and the counters after a byte depend on the framing
    state and the counters before it, and on nothing else. *)
Lemma same_framing_feed_byte s t b :
  same_framing s t ->
  same_framing (invent_ems_feed_byte s b) (invent_ems_feed_byte t b).
Proof.
  intros (Hst & Hbuf & Hptr & Hpc & Hec).
  destruct (Z.eq_dec (rxstate s) 6) as [E6 | Hne].
  - assert (E6' : rxstate t = 6) by congruence.
    rewrite (feed_byte_state6 s b E6), (feed_byte_state6 t b E6'). cbv zeta.
    assert (Hab : rxbuf (accumulate s b) = rxbuf (accumulate t b) /\
                  rxptr (accumulate s b) = rxptr (accumulate t b) /\
                  rxstate (accumulate s b) = rxstate (accumulate t b)).
    { destruct s as [st buf p d fl], t as [st' buf' p' d' fl'].
      cbn [rxstate rxbuf rxptr] in Hst, Hbuf, Hptr. subst st' buf' p'.
      unfold accumulate. cbn [rxptr rxbuf].
      destruct (p <? MAX_RX_BUF);
        cbn [set_rxptr set_rxbuf rxbuf rxptr rxstate];
        split_and!; reflexivity. }
    destruct Hab as (Hb' & Hp' & Hs').
    pose proof (accumulate_ecu_data s b) as Hds.
    pose proof (accumulate_ecu_data t b) as Hdt.
    set (a := accumulate s b) in *. set (a' := accumulate t b) in *.
    rewrite <- Hb', <- Hp'.
    destruct (rd (rxbuf a) 0 <? rxptr a).
    + assert (Hcrc : crc_rx a' = crc_rx a) by (unfold crc_rx; rewrite Hb', Hp'; reflexivity).
      destruct (verify_shape a) as (Hv0 & Hvb). destruct (verify_shape a') as (Hv0' & Hvb').
      unfold same_framing. rewrite Hv0, Hv0', Hvb, Hvb', !rxptr_verify.
      split_and!; try assumption; try reflexivity.
      * destruct (Z.eq_dec (checksum (rxbuf a)) (crc_rx a)) as [Em | Em].
        -- rewrite (proj1 (proj1 (verify_counts a) Em)).
           rewrite (proj1 (proj1 (verify_counts a') ltac:(congruence))). congruence.
        -- rewrite (proj1 (proj2 (verify_counts a) Em)).
           rewrite (proj1 (proj2 (verify_counts a') ltac:(congruence))). congruence.
      * destruct (Z.eq_dec (checksum (rxbuf a)) (crc_rx a)) as [Em | Em].
        -- rewrite (proj2 (proj1 (verify_counts a) Em)).
           rewrite (proj2 (proj1 (verify_counts a') ltac:(congruence))). congruence.
        -- rewrite (proj2 (proj2 (verify_counts a) Em)).
           rewrite (proj2 (proj2 (verify_counts a') ltac:(congruence))). congruence.
    + unfold same_framing. split_and!; congruence.
  - destruct s as [st buf p d fl], t as [st' buf' p' d' fl'].
    cbn [rxstate rxbuf rxptr ecu_data] in *. subst st' buf' p'.
    destruct (feed_byte_framing st buf p b Hne) as (st' & buf' & p' & E).
    rewrite !E. unfold same_framing. cbn [rxstate rxbuf rxptr ecu_data].
    split_and!; try assumption; reflexivity.
Qed.

Lemma same_framing_feed_bytes bytes :
  forall s t, same_framing s t -> same_framing (feed_bytes s bytes) (feed_bytes t bytes).
Proof.
  induction bytes as [|b bytes IH]; intros s t H; [exact H|].
  rewrite !feed_bytes_cons. apply IH, same_framing_feed_byte, H.
Qed.

Lemma same_framing_can_frame s id d dlc :
  same_framing (fst (invent_ems_feed_can_frame s id d dlc)) s.
Proof.
  destruct s as [st buf p [c pc ec fv iv] fl].
  unfold invent_ems_feed_can_frame, same_framing. cbv zeta.
  repeat case_match; simplify_eq; cbn; split_and!; reflexivity.
Qed.

(** X6.  A bus frame handed to [invent_ems_feed_can_frame] in the middle of a
    serial byte stream does not disturb the reception of the stream: the
    framing state, the receive buffer and both counters end up as if the bus
    frame had not been there.  Bus frames are never counted in
    [packet_count]. *)
Theorem can_frame_keeps_serial_framing (s : parser) (bytes1 bytes2 : list Z)
        (id : Z) (d : list Z) (dlc : Z) :
  let with_can :=
    feed_bytes (fst (invent_ems_feed_can_frame (feed_bytes s bytes1) id d dlc)) bytes2 in
  let without := feed_bytes s (bytes1 ++ bytes2) in
  rxstate with_can = rxstate without /\
  rxbuf with_can = rxbuf without /\
  rxptr with_can = rxptr without /\
  packet_count (ecu_data with_can) = packet_count (ecu_data without) /\
  error_count (ecu_data with_can) = error_count (ecu_data without).
Proof.
  intros with_can without. subst with_can without.
  rewrite feed_bytes_app.
  apply same_framing_feed_bytes, same_framing_can_frame.
Qed.

(** X7.  A bus frame with one of the seven identifiers the decoder knows is
    answered with true, sets [connected] and the new-data flag, and changes
    neither counter nor the serial framing state; of the integer members
    only [gear] can change; and the [dlc] argument is ignored, a short frame
    is decoded like a full one. *)
Theorem known_can_id_sets_status (s : parser) (id : Z) (d : list Z) (dlc dlc' : Z) :
  In id can_ids ->
  let r := invent_ems_feed_can_frame s id d dlc in
  snd r = true /\
  connected (ecu_data (fst r)) = true /\
  new_data_flag (fst r) = true /\
  packet_count (ecu_data (fst r)) = packet_count (ecu_data s) /\
  error_count (ecu_data (fst r)) = error_count (ecu_data s) /\
  (forall g, g <> gear -> ival (ecu_data (fst r)) g = ival (ecu_data s) g) /\
  invent_ems_feed_can_frame s id d dlc' = r.
Proof.
  intros Hid. destruct s as [st buf p [c pc ec fv iv] fl].
  unfold can_ids in Hid. cbn [In] in Hid.
  destruct Hid as [<- | [<- | [<- | [<- | [<- | [<- | [<- | []]]]]]]];
    cbn; split_and!; try reflexivity; intros g Hg;
    try reflexivity; apply fn_lookup_insert_ne; congruence.
Qed.

Lemma known_can_id_sets_status_witness :
  connected (ecu_data (fst (invent_ems_feed_can_frame (invent_ems_init power_on)
                              0x305 [3; 0; 0; 0; 0; 0; 0; 0] 8))) = true.
Proof.
  assert (Hid : In 0x305 can_ids) by (cbn; tauto).
  exact (proj1 (proj2 (known_can_id_sets_status (invent_ems_init power_on) 0x305
                         [3; 0; 0; 0; 0; 0; 0; 0] 8 8 Hid))).
Defined.

(** X8.  From start-up on the receive buffer is never written out of bounds: the
    array keeps its 64 bytes, and whenever a frame is being accumulated the
    write position lies between 1 and the length byte, which is at most
    [MAX_PACKET_LEN]; so the guard [rxptr < MAX_RX_BUF] always holds and the
    next byte is stored at [rxbuf[rxptr]]. *)
Theorem receive_buffer_never_overflows (bytes : list Z) (b : Z) :
  let s := feed_bytes (invent_ems_init power_on) bytes in
  length (rxbuf s) = 64%nat /\
  (rxstate s = 6 ->
   1 <= rxptr s <= rd (rxbuf s) 0 /\
   rd (rxbuf s) 0 <= MAX_PACKET_LEN /\
   rxptr s < MAX_RX_BUF /\
   rd (rxbuf (invent_ems_feed_byte s b)) (rxptr s) = b).
Proof.
  intros s.
  assert (Hwf : parser_wf s) by (apply parser_wf_feed_bytes, parser_wf_power_on).
  destruct Hwf as (Hlen & _ & H6). split; [exact Hlen|].
  intros E6. destruct (H6 E6) as (HL & Hp).
  unfold MAX_PACKET_LEN, MAX_RX_BUF. split_and!; try lia.
  assert (Hacc : rxbuf (accumulate s b) = wr (rxbuf s) (rxptr s) b).
  { unfold accumulate, MAX_RX_BUF. destruct (Z.ltb_spec (rxptr s) 64); [|lia].
    reflexivity. }
  rewrite (feed_byte_state6 s b E6). cbv zeta.
  destruct (rd (rxbuf (accumulate s b)) 0 <? rxptr (accumulate s b)).
  - rewrite (proj2 (verify_shape _)), Hacc. apply rd_wr_same. lia.
  - rewrite Hacc. apply rd_wr_same. lia.
Qed.

Lemma receive_buffer_never_overflows_witness :
  rd (rxbuf (invent_ems_feed_byte
               (feed_bytes (invent_ems_init power_on) [0x55; 0x00; 0xAA; 0x00; 0x54; 4; 1]) 9))
     (rxptr (feed_bytes (invent_ems_init power_on) [0x55; 0x00; 0xAA; 0x00; 0x54; 4; 1]))
  = 9.
Proof.
  assert (E6 : rxstate (feed_bytes (invent_ems_init power_on)
                          [0x55; 0x00; 0xAA; 0x00; 0x54; 4; 1]) = 6)
    by (vm_compute; reflexivity).
  destruct (proj2 (receive_buffer_never_overflows [0x55; 0x00; 0xAA; 0x00; 0x54; 4; 1] 9) E6)
    as (_ & _ & _ & H).
  exact H.
Defined.

(* ================================================================== *)
(** ** pico_dashboard.cpp and bsp_can.c: from the interrupt to the decoder *)
(* ================================================================== *)

Lemma uart_wrap x : 0 <= x < UART_RX_BUF_SIZE -> u16 x = x.
Proof. unfold UART_RX_BUF_SIZE. intros Hx. apply u16_small. lia. Qed.

Lemma can_wrap x : 0 <= x < CAN_RX_BUF_SIZE -> u8 x = x.
Proof. unfold CAN_RX_BUF_SIZE. intros Hx. apply u8_small. lia. Qed.

Lemma uart_size : 1 < UART_RX_BUF_SIZE.
Proof. reflexivity. Qed.

Lemma can_size : 1 < CAN_RX_BUF_SIZE.
Proof. reflexivity. Qed.

(** The number of queued items goes down by one with a pop. *)
Lemma count_pop {A : Type} `{Inhabited A} SIZE wrap (r r' : Ring.ring A) x :
  1 < SIZE -> (forall i, 0 <= i < SIZE -> wrap i = i) ->
  Ring.wf SIZE r -> Ring.pop SIZE wrap r = Some (x, r') ->
  Ring.count SIZE r = Ring.count SIZE r' + 1.
Proof.
  intros Hsize Hwrap Hwf Hpop.
  destruct (pop_some SIZE wrap Hsize Hwrap r x r' Hwf Hpop) as (_ & Hc & _).
  rewrite <- !(length_contents SIZE Hsize), Hc. cbn [length]. lia.
Qed.

Lemma empty_ring_shape {A : Type} (r : Ring.ring A) :
  Ring.tail r = Ring.head r ->
  r = Ring.mk_ring (Ring.slots r) (Ring.head r) (Ring.head r).
Proof. destruct r as [sl h t]. cbn. intros ->. reflexivity. Qed.

(** The drain loop hands the queued bytes to the decoder, oldest first, and
    stops with the ring empty. *)
Lemma uart_drain_loop_spec fuel :
  forall (r : Ring.ring Z) (s : parser),
    Ring.wf UART_RX_BUF_SIZE r ->
    Ring.count UART_RX_BUF_SIZE r < Z.of_nat fuel ->
    uart_drain_loop fuel (Ring.head r) r s
    = Some (Ring.mk_ring (Ring.slots r) (Ring.head r) (Ring.head r),
            feed_bytes s (Ring.contents UART_RX_BUF_SIZE r)).
Proof.
  induction fuel as [|fuel IH]; intros r s Hwf Hfuel.
  - pose proof (count_range UART_RX_BUF_SIZE uart_size r Hwf). lia.
  - cbn [uart_drain_loop].
    destruct (Ring.pop UART_RX_BUF_SIZE u16 r) as [[x r']|] eqn:Hpop.
    + pose proof Hpop as Hpop'. unfold Ring.pop in Hpop'.
      destruct (Ring.tail r =? Ring.head r); [discriminate|].
      injection Hpop' as Hx Hr'. cbn [negb]. rewrite Hx, Hr'.
      destruct (pop_some UART_RX_BUF_SIZE u16 uart_size uart_wrap r x r' Hwf Hpop)
        as (Hwf' & Hc & Hh & Hs & _).
      pose proof (count_pop UART_RX_BUF_SIZE u16 r r' x uart_size uart_wrap Hwf Hpop).
      rewrite <- Hh, (IH r' _ Hwf') by lia.
      rewrite Hs, Hc. reflexivity.
    + pose proof (proj1 (pop_empty UART_RX_BUF_SIZE u16 uart_size r Hwf) Hpop) as Hc.
      unfold Ring.pop in Hpop.
      destruct (Ring.tail r =? Ring.head r) eqn:Ht; [|discriminate].
      cbn [negb]. apply Z.eqb_eq in Ht. rewrite <- (empty_ring_shape r Ht), Hc.
      reflexivity.
Qed.

(** X9.  One pass of the super-loop with enough fuel for the queued bytes: the
    decoder has received the queued bytes in their order of arrival, the
    ring is empty with the producer index untouched, the decoder's flag has
    been consumed, and [ecu_data_ready] is raised if a frame was completed
    (it is never lowered here). *)
Theorem main_loop_poll_feeds_queued_bytes (fuel : nat) (r : Ring.ring Z) (s : parser)
        (ecu_data_ready : bool) :
  Ring.wf UART_RX_BUF_SIZE r ->
  Ring.count UART_RX_BUF_SIZE r < Z.of_nat fuel ->
  let s1 := feed_bytes s (Ring.contents UART_RX_BUF_SIZE r) in
  let r1 := Ring.mk_ring (Ring.slots r) (Ring.head r) (Ring.head r) in
  main_loop_poll fuel r s ecu_data_ready
  = Some (r1, set_new_data_flag false s1, new_data_flag s1 || ecu_data_ready) /\
  Ring.contents UART_RX_BUF_SIZE r1 = [] /\
  Ring.wf UART_RX_BUF_SIZE r1.
Proof.
  intros Hwf Hfuel s1 r1. split_and!.
  - unfold main_loop_poll. rewrite (uart_drain_loop_spec fuel r s Hwf Hfuel).
    cbn [mbind option_bind]. fold s1 r1. unfold invent_ems_has_new_data.
    destruct s1 as [st buf p d [|]]; reflexivity.
  - unfold Ring.contents, Ring.count. subst r1. cbn [Ring.head Ring.tail].
    rewrite Z.sub_diag. reflexivity.
  - destruct Hwf as (Hl & Hh & _). subst r1. unfold Ring.wf. cbn [Ring.slots Ring.head Ring.tail].
    split_and!; assumption || lia.
Qed.

Lemma main_loop_poll_feeds_queued_bytes_witness :
  main_loop_poll 2 (uart0_irq_handler [0x55] uart_ring_init) (invent_ems_init power_on) false
  = Some (Ring.mk_ring (<[0%nat := 0x55]> (replicate 256 0)) 1 1,
          set_rxstate 1 (invent_ems_init power_on), false).
Proof.
  assert (Hwf : Ring.wf UART_RX_BUF_SIZE (uart0_irq_handler [0x55] uart_ring_init))
    by (unfold Ring.wf; split_and!; vm_compute; reflexivity || discriminate).
  assert (Hfuel : Ring.count UART_RX_BUF_SIZE (uart0_irq_handler [0x55] uart_ring_init)
                  < Z.of_nat 2) by (vm_compute; reflexivity).
  exact (proj1 (main_loop_poll_feeds_queued_bytes 2 _ (invent_ems_init power_on) false
                  Hwf Hfuel)).
Defined.

(** Bytes the interrupt handler reads while there is room are queued behind
    the bytes already waiting, none lost and none reordered; each is cut to
    8 bits on the way. *)
Lemma uart0_irq_handler_contents fifo :
  forall (r : Ring.ring Z),
    Ring.wf UART_RX_BUF_SIZE r ->
    Ring.count UART_RX_BUF_SIZE r + Z.of_nat (length fifo) < UART_RX_BUF_SIZE ->
    Ring.wf UART_RX_BUF_SIZE (uart0_irq_handler fifo r) /\
    Ring.contents UART_RX_BUF_SIZE (uart0_irq_handler fifo r)
    = Ring.contents UART_RX_BUF_SIZE r ++ map u8 fifo.
Proof.
  induction fifo as [|ch fifo IH]; intros r Hwf Hroom.
  - cbn [uart0_irq_handler fold_left map]. rewrite app_nil_r. split; [exact Hwf | reflexivity].
  - change (uart0_irq_handler (ch :: fifo) r)
      with (uart0_irq_handler fifo (Ring.push UART_RX_BUF_SIZE u16 (u8 ch) r)).
    cbn [length map] in *.
    assert (Hnf : Ring.full UART_RX_BUF_SIZE u16 r = false).
    { destruct (Ring.full UART_RX_BUF_SIZE u16 r) eqn:Hf; [|reflexivity].
      apply (full_count UART_RX_BUF_SIZE u16 uart_size uart_wrap r Hwf) in Hf. lia. }
    pose proof (contents_push UART_RX_BUF_SIZE u16 uart_size uart_wrap r (u8 ch) Hwf Hnf) as Hc.
    pose proof (push_wf UART_RX_BUF_SIZE u16 uart_size uart_wrap r (u8 ch) Hwf) as Hwf'.
    destruct (IH (Ring.push UART_RX_BUF_SIZE u16 (u8 ch) r) Hwf') as (Hwf'' & Hc'').
    { pose proof (length_contents UART_RX_BUF_SIZE uart_size r) as L1.
      pose proof (length_contents UART_RX_BUF_SIZE uart_size
                    (Ring.push UART_RX_BUF_SIZE u16 (u8 ch) r)) as L2.
      rewrite Hc, length_app in L2. cbn [length] in L2. lia. }
    split; [exact Hwf''|]. rewrite Hc'', Hc, <- app_assoc. reflexivity.
Qed.

(** X10.  End to end on the serial side: a burst that fits into the free part of
    the ring (at most 255 bytes can wait) reaches the decoder complete and in
    order with the next pass of the super-loop. *)
Theorem uart_burst_reaches_decoder (fifo : list Z) (r : Ring.ring Z) (s : parser)
        (ecu_data_ready : bool) :
  Ring.wf UART_RX_BUF_SIZE r ->
  Ring.count UART_RX_BUF_SIZE r + Z.of_nat (length fifo) < UART_RX_BUF_SIZE ->
  exists r1 s1 ready1,
    main_loop_poll 256 (uart0_irq_handler fifo r) s ecu_data_ready = Some (r1, s1, ready1) /\
    ecu_data s1 = ecu_data (feed_bytes s (Ring.contents UART_RX_BUF_SIZE r ++ map u8 fifo)) /\
    rxstate s1 = rxstate (feed_bytes s (Ring.contents UART_RX_BUF_SIZE r ++ map u8 fifo)) /\
    ready1 = new_data_flag (feed_bytes s (Ring.contents UART_RX_BUF_SIZE r ++ map u8 fifo))
             || ecu_data_ready /\
    Ring.contents UART_RX_BUF_SIZE r1 = [].
Proof.
  intros Hwf Hroom.
  destruct (uart0_irq_handler_contents fifo r Hwf Hroom) as (Hwf' & Hc).
  assert (Hfuel : Ring.count UART_RX_BUF_SIZE (uart0_irq_handler fifo r) < Z.of_nat 256).
  { pose proof (count_range UART_RX_BUF_SIZE uart_size _ Hwf') as Hr.
    assert (Hs : UART_RX_BUF_SIZE = 256) by reflexivity.
    change (Z.of_nat 256) with 256. lia. }
  unfold main_loop_poll.
  rewrite (uart_drain_loop_spec 256 _ s Hwf' Hfuel), Hc. cbn [mbind option_bind].
  set (s1 := feed_bytes s _).
  unfold invent_ems_has_new_data.
  destruct (new_data_flag s1) eqn:Hf;
    (eexists _, _, _; split; [reflexivity|];
     cbn [set_new_data_flag ecu_data rxstate orb];
     split_and!; try reflexivity;
     unfold Ring.contents, Ring.count; cbn [Ring.head Ring.tail];
     rewrite Z.sub_diag; reflexivity).
Qed.

Lemma uart_burst_reaches_decoder_witness :
  exists r1 s1 ready1,
    main_loop_poll 256 (uart0_irq_handler c3_frame uart_ring_init)
                   (invent_ems_init power_on) false = Some (r1, s1, ready1) /\
    ready1 = true.
Proof.
  assert (Hwf : Ring.wf UART_RX_BUF_SIZE uart_ring_init)
    by (unfold Ring.wf; split_and!; vm_compute; reflexivity || discriminate).
  assert (Hroom : Ring.count UART_RX_BUF_SIZE uart_ring_init + Z.of_nat (length c3_frame)
                  < UART_RX_BUF_SIZE) by (vm_compute; reflexivity).
  destruct (uart_burst_reaches_decoder c3_frame uart_ring_init (invent_ems_init power_on)
              false Hwf Hroom) as (r1 & s1 & ready1 & Hp & _ & _ & Hr & _).
  exists r1, s1, ready1. split; [exact Hp|].
  rewrite Hr. vm_compute. reflexivity.
Defined.

(** X11.  The time the super-loop sleeps lies between one tick and 500 ms whatever
    the timer handler returned (the value is first cut to 16 bits), and a
    value inside that interval is taken as it is. *)
Theorem sleep_time_is_clamped (handler_result : Z) :
  LVGL_TICK_PERIOD_MS <= next_sleep_ms handler_result <= 500 /\
  (LVGL_TICK_PERIOD_MS <= handler_result <= 500 ->
   next_sleep_ms handler_result = handler_result) /\
  (next_sleep_ms (handler_result + 65536) = next_sleep_ms handler_result).
Proof.
  assert (E : forall x, next_sleep_ms x = Z.max 1 (Z.min 500 (u16 x))).
  { intros x. unfold next_sleep_ms, LVGL_TICK_PERIOD_MS. cbv zeta.
    pose proof (u16_range x).
    destruct (Z.ltb_spec 500 (u16 x)); cbv iota.
    - destruct (Z.ltb_spec 500 1); lia.
    - destruct (Z.ltb_spec (u16 x) 1); lia. }
  unfold LVGL_TICK_PERIOD_MS. rewrite !E. split; [|split].
  - lia.
  - intros Hr. rewrite u16_small by lia. lia.
  - unfold u16. change 65536 with (1 * 2 ^ 16). rewrite Z.mod_add by lia. reflexivity.
Qed.

Lemma sleep_time_is_clamped_witness :
  next_sleep_ms 33 = 33 /\ next_sleep_ms 70000 = 500.
Proof.
  assert (Hr : LVGL_TICK_PERIOD_MS <= 33 <= 500) by (unfold LVGL_TICK_PERIOD_MS; lia).
  split; [exact (proj1 (proj2 (sleep_time_is_clamped 33)) Hr) | reflexivity].
Defined.

(** The inner loop of [core1_entry] hands the queued bus frames to the
    decoder, oldest first, until [bsp_can_recv] finds the ring empty. *)
Lemma can_drain_loop_spec fuel :
  forall (r : Ring.ring bsp_can_frame_t) (s : parser),
    Ring.wf CAN_RX_BUF_SIZE r ->
    Ring.count CAN_RX_BUF_SIZE r < Z.of_nat fuel ->
    exists r',
      can_drain_loop fuel r s
      = Some (r', feed_can_frames s (Ring.contents CAN_RX_BUF_SIZE r)) /\
      Ring.wf CAN_RX_BUF_SIZE r' /\
      Ring.contents CAN_RX_BUF_SIZE r' = [] /\
      Ring.head r' = Ring.head r.
Proof.
  induction fuel as [|fuel IH]; intros r s Hwf Hfuel.
  - pose proof (count_range CAN_RX_BUF_SIZE can_size r Hwf). lia.
  - cbn [can_drain_loop]. unfold bsp_can_recv.
    destruct (Ring.pop CAN_RX_BUF_SIZE u8 r) as [[x r1]|] eqn:Hpop.
    + destruct (pop_some CAN_RX_BUF_SIZE u8 can_size can_wrap r x r1 Hwf Hpop)
        as (Hwf' & Hc & Hh & _).
      pose proof (count_pop CAN_RX_BUF_SIZE u8 r r1 x can_size can_wrap Hwf Hpop).
      destruct (IH r1 (fst (invent_ems_feed_can_frame s (frame_id x) (frame_data x)
                                                      (frame_dlc x))) Hwf')
        as (r' & Hrun & Hwf'' & Hempty & Hhead); [lia|].
      exists r'. rewrite Hrun, Hc. split_and!; try assumption; [reflexivity | congruence].
    + pose proof (proj1 (pop_empty CAN_RX_BUF_SIZE u8 can_size r Hwf) Hpop) as Hc.
      exists r. rewrite Hc. split_and!; try assumption; reflexivity.
Qed.

Lemma feed_can_frames_app s fs1 fs2 :
  feed_can_frames s (fs1 ++ fs2) = feed_can_frames (feed_can_frames s fs1) fs2.
Proof. unfold feed_can_frames. apply fold_left_app. Qed.

Lemma same_framing_can_frames frames :
  forall s, same_framing (feed_can_frames s frames) s.
Proof.
  induction frames as [|f frames IH]; intros s; [apply same_framing_refl|].
  change (feed_can_frames s (f :: frames))
    with (feed_can_frames
            (fst (invent_ems_feed_can_frame s (frame_id f) (frame_data f) (frame_dlc f)))
            frames).
  eapply same_framing_trans; [apply IH | apply same_framing_can_frame].
Qed.

(** X12.  End to end on the bus side.  A message the library reports with
    [CAN2040_NOTIFY_RX] while the ring has room (at most 31 frames can wait)
    is queued with its identifier, its eight data bytes and its length, and
    the loop of [core1_entry] hands it to the decoder after the frames that
    were waiting and leaves the ring empty; with any other notification the
    message is not queued.  Neither counter and no part of the serial
    framing state changes on this path. *)
Theorem can_message_reaches_decoder (NOTIFY_RX notify : Z) (msg : can2040_msg)
        (r : Ring.ring bsp_can_frame_t) (s : parser) :
  Ring.wf CAN_RX_BUF_SIZE r ->
  Ring.count CAN_RX_BUF_SIZE r < CAN_RX_BUF_SIZE - 1 ->
  let waiting := feed_can_frames s (Ring.contents CAN_RX_BUF_SIZE r) in
  let expected :=
    if notify =? NOTIFY_RX
    then fst (invent_ems_feed_can_frame waiting (msg_id msg) (take 8 (msg_data msg))
                                        (u8 (msg_dlc msg)))
    else waiting in
  exists r',
    can_drain_loop 32 (can_rx_cb NOTIFY_RX notify msg r) s = Some (r', expected) /\
    Ring.contents CAN_RX_BUF_SIZE r' = [] /\
    Ring.wf CAN_RX_BUF_SIZE r' /\
    same_framing expected s.
Proof.
  intros Hwf Hroom waiting expected.
  assert (Hfuel : forall q : Ring.ring bsp_can_frame_t, Ring.wf CAN_RX_BUF_SIZE q ->
                            Ring.count CAN_RX_BUF_SIZE q < Z.of_nat 32).
  { intros q Hq. pose proof (count_range CAN_RX_BUF_SIZE can_size q Hq) as Hr.
    assert (Hs : CAN_RX_BUF_SIZE = 32) by reflexivity.
    change (Z.of_nat 32) with 32. lia. }
  unfold can_rx_cb. subst expected.
  destruct (notify =? NOTIFY_RX).
  - set (x := mk_frame (msg_id msg) (take 8 (msg_data msg)) (u8 (msg_dlc msg))).
    assert (Hnf : Ring.full CAN_RX_BUF_SIZE u8 r = false).
    { destruct (Ring.full CAN_RX_BUF_SIZE u8 r) eqn:Hf; [|reflexivity].
      apply (full_count CAN_RX_BUF_SIZE u8 can_size can_wrap r Hwf) in Hf. lia. }
    pose proof (contents_push CAN_RX_BUF_SIZE u8 can_size can_wrap r x Hwf Hnf) as Hc.
    pose proof (push_wf CAN_RX_BUF_SIZE u8 can_size can_wrap r x Hwf) as Hwf'.
    destruct (can_drain_loop_spec 32 _ s Hwf' (Hfuel _ Hwf')) as (r' & Hrun & Hw & He & _).
    exists r'. rewrite Hrun, Hc, feed_can_frames_app. fold waiting.
    split_and!; try assumption; [reflexivity|].
    eapply same_framing_trans; [apply same_framing_can_frame|].
    apply same_framing_can_frames.
  - destruct (can_drain_loop_spec 32 r s Hwf (Hfuel _ Hwf)) as (r' & Hrun & Hw & He & _).
    exists r'. rewrite Hrun. fold waiting.
    split_and!; try assumption; [reflexivity|].
    apply same_framing_can_frames.
Qed.

Lemma can_message_reaches_decoder_witness :
  exists r',
    can_drain_loop 32 (can_rx_cb 7 7 (mk_msg 0x305 8 [3; 0; 0; 0; 0; 0; 0; 0]) can_ring_init)
                   (invent_ems_init power_on)
    = Some (r', fst (invent_ems_feed_can_frame (invent_ems_init power_on) 0x305
                       [3; 0; 0; 0; 0; 0; 0; 0] 8)).
Proof.
  assert (Hwf : Ring.wf CAN_RX_BUF_SIZE can_ring_init)
    by (unfold Ring.wf; split_and!; vm_compute; reflexivity || discriminate).
  assert (Hroom : Ring.count CAN_RX_BUF_SIZE can_ring_init < CAN_RX_BUF_SIZE - 1)
    by (vm_compute; reflexivity).
  destruct (can_message_reaches_decoder 7 7 (mk_msg 0x305 8 [3; 0; 0; 0; 0; 0; 0; 0])
              can_ring_init (invent_ems_init power_on) Hwf Hroom) as (r' & Hrun & _).
  exists r'. exact Hrun.
Defined.

(* ================================================================== *)
(** ** ui_dashboard.c: what the gauges show *)
(* ================================================================== *)

(** The two clamps of [value_to_arc_angle]. *)
Lemma clamp_unit n :
  let c := if Qltb 1 (if Qltb n 0 then 0%Q else n) then 1%Q
           else (if Qltb n 0 then 0%Q else n) in
  (0 <= c <= 1)%Q /\ ((n <= 0)%Q -> (c == 0)%Q) /\ ((1 <= n)%Q -> (c == 1)%Q) /\
  ((0 <= n <= 1)%Q -> (c == n)%Q).
Proof.
  cbv zeta.
  destruct (Qltb_spec n 0) as [Hn | Hn].
  - destruct (Qltb_spec 1 0) as [H10 | H10]; [lra|].
    split_and!; intros; lra.
  - destruct (Qltb_spec 1 n) as [H1 | H1]; split_and!; intros; lra.
Qed.

Lemma Qtrunc_inject z : Qtrunc (inject_Z z) = z.
Proof.
  unfold Qtrunc. destruct (Qltb (inject_Z z) 0); [apply Qceiling_Z | apply Qfloor_Z].
Qed.

Lemma Qtrunc_mono q q' : (0 <= q)%Q -> (q <= q')%Q -> Qtrunc q <= Qtrunc q'.
Proof.
  intros H0 Hle. rewrite !Qtrunc_nonneg by lra. apply Qfloor_resp_le, Hle.
Qed.

Lemma arc_angle_of_unit c :
  (0 <= c <= 1)%Q -> cast_i32 (c * 270) = Some (Qtrunc (c * 270)) /\
                     0 <= Qtrunc (c * 270) <= 270.
Proof.
  intros Hc.
  assert (R : 0 <= Qtrunc (c * 270) <= 270).
  { assert (E0 : Qtrunc 0 = 0) by reflexivity.
    assert (E270 : Qtrunc 270 = 270) by reflexivity.
    pose proof (Qtrunc_mono 0 (c * 270) ltac:(lra) ltac:(lra)).
    pose proof (Qtrunc_mono (c * 270) 270 ltac:(lra) ltac:(lra)). lia. }
  split; [|exact R]. unfold cast_i32, cast_int.
  destruct (Z.leb_spec (- 2 ^ 31) (Qtrunc (c * 270)));
    destruct (Z.leb_spec (Qtrunc (c * 270)) (2 ^ 31 - 1)); try reflexivity; lia.
Qed.

Lemma normalized_sign v min max :
  (min < max)%Q ->
  let n := ((v - min) / (max - min))%Q in
  ((v <= min)%Q -> (n <= 0)%Q) /\ ((max <= v)%Q -> (1 <= n)%Q) /\
  (forall v', (v <= v')%Q -> (n <= (v' - min) / (max - min))%Q).
Proof.
  intros Hlt n. subst n.
  assert (Hd : (0 < max - min)%Q) by lra.
  split_and!.
  - intros Hv. apply Qle_shift_div_r; [exact Hd | lra].
  - intros Hv. apply Qle_shift_div_l; [exact Hd | lra].
  - intros v' Hv. unfold Qdiv. apply Qmult_le_compat_r; [lra|].
    apply Qlt_le_weak, Qinv_lt_0_compat, Hd.
Qed.

Lemma clamp_unit_mono n n' :
  (n <= n')%Q ->
  ((if Qltb 1 (if Qltb n 0 then 0%Q else n) then 1%Q else (if Qltb n 0 then 0%Q else n))
   <= (if Qltb 1 (if Qltb n' 0 then 0%Q else n') then 1%Q
       else (if Qltb n' 0 then 0%Q else n')))%Q.
Proof.
  intros Hle.
  destruct (Qltb_spec n 0), (Qltb_spec n' 0);
    repeat match goal with
           | |- context [Qltb ?a ?b] => destruct (Qltb_spec a b)
           end; lra.
Qed.

(** X13.  [value_to_arc_angle] on a finite value and a range [min < max]: the
    result exists and lies in the sweep [0 .. 270] of the arc; it is 0 for
    every value up to [min], 270 for every value from [max] on, and it never
    decreases when the value grows. *)
Theorem arc_angle_saturates_and_grows (v v' : Q) (min max : Q) :
  (min < max)%Q ->
  exists a a',
    value_to_arc_angle (Fin v) min max = Some a /\
    value_to_arc_angle (Fin v') min max = Some a' /\
    0 <= a <= 270 /\
    ((v <= min)%Q -> a = 0) /\
    ((max <= v)%Q -> a = 270) /\
    ((v <= v')%Q -> a <= a').
Proof.
  intros Hlt. unfold value_to_arc_angle. cbv zeta.
  destruct (normalized_sign v min max Hlt) as (Hlo & Hhi & Hmono).
  cbv zeta in Hlo, Hhi, Hmono.
  set (n := ((v - min) / (max - min))%Q) in *.
  set (n' := ((v' - min) / (max - min))%Q) in *.
  destruct (clamp_unit n) as (Hc & Hc0 & Hc1 & _).
  destruct (clamp_unit n') as (Hc' & _).
  cbv zeta in Hc, Hc0, Hc1, Hc'.
  pose proof (clamp_unit_mono n n') as Hcm.
  set (c := if Qltb 1 (if Qltb n 0 then 0%Q else n) then 1%Q
            else (if Qltb n 0 then 0%Q else n)) in *.
  set (c' := if Qltb 1 (if Qltb n' 0 then 0%Q else n') then 1%Q
             else (if Qltb n' 0 then 0%Q else n')) in *.
  destruct (arc_angle_of_unit c Hc) as (Ea & Ra).
  destruct (arc_angle_of_unit c' Hc') as (Ea' & _).
  exists (Qtrunc (c * 270)), (Qtrunc (c' * 270)).
  split_and!; try assumption; try lia.
  - intros Hv. rewrite (Qtrunc_comp (c * 270) 0); [reflexivity|].
    rewrite (Hc0 (Hlo Hv)). lra.
  - intros Hv. rewrite (Qtrunc_comp (c * 270) 270); [reflexivity|].
    rewrite (Hc1 (Hhi Hv)). lra.
  - intros Hv. apply Qtrunc_mono; [lra|].
    specialize (Hcm (Hmono v' Hv)). lra.
Qed.

Lemma arc_angle_saturates_and_grows_witness :
  exists a a',
    value_to_arc_angle (Fin 35) COOLANT_TEMP_MIN COOLANT_TEMP_MAX = Some a /\
    value_to_arc_angle (Fin 90) COOLANT_TEMP_MIN COOLANT_TEMP_MAX = Some a' /\
    0 <= a <= 270.
Proof.
  assert (Hlt : (COOLANT_TEMP_MIN < COOLANT_TEMP_MAX)%Q) by reflexivity.
  destruct (arc_angle_saturates_and_grows 35 90 COOLANT_TEMP_MIN COOLANT_TEMP_MAX Hlt)
    as (a & a' & Ha & Ha' & Hr & _).
  exists a, a'. split; [exact Ha | split; [exact Ha' | exact Hr]].
Defined.

Lemma set_gauge_shows x min max text :
  (min < max)%Q ->
  exists g,
    match x with
    | NaN => Some (mk_gauge 0 text_dashes)
    | Fin _ => a ← value_to_arc_angle x min max; Some (mk_gauge a (text x))
    end = Some g /\
    gauge_shows g x text.
Proof.
  intros Hlt. destruct x as [|v].
  - exists (mk_gauge 0 text_dashes). split; reflexivity.
  - unfold value_to_arc_angle. cbv zeta.
    destruct (clamp_unit ((v - min) / (max - min))) as (Hc & _). cbv zeta in Hc.
    destruct (arc_angle_of_unit _ Hc) as (Ea & Ra).
    eexists. rewrite Ea. split; [reflexivity|].
    split; [reflexivity | exact Ra].
Qed.

(** X14.  Whatever the telemetry record holds, [dashboard_update_cb] succeeds and
    clears [ecu_data_ready].  Without the flag the screen stays as it is;
    with it every gauge shows its member of the record: two dashes and an
    empty arc for not-a-number (the state after [invent_ems_init]), the
    value as text and an arc value inside [0 .. 270] otherwise. *)
Theorem dashboard_update_shows_record (ecu_data_ready : bool)
        (ecu : invent_ems_data_t) (ui : dashboard) :
  exists ui',
    dashboard_update_cb ecu_data_ready ecu ui = Some (false, ui') /\
    (ecu_data_ready = false -> ui' = ui) /\
    (ecu_data_ready = true ->
     gauge_shows (gauge_oil_pressure ui') (fval ecu oil_pressure) text_bar /\
     gauge_shows (gauge_coolant_temp ui') (fval ecu clt) text_celsius /\
     gauge_shows (gauge_oil_temp ui') (fval ecu oil_temp) text_celsius).
Proof.
  unfold dashboard_update_cb. destruct ecu_data_ready; cbn [negb].
  - assert (H1 : (OIL_PRESSURE_MIN < OIL_PRESSURE_MAX)%Q) by reflexivity.
    assert (H2 : (COOLANT_TEMP_MIN < COOLANT_TEMP_MAX)%Q) by reflexivity.
    assert (H3 : (OIL_TEMP_MIN < OIL_TEMP_MAX)%Q) by reflexivity.
    destruct (set_gauge_shows (fval ecu oil_pressure) _ _ text_bar H1) as (g1 & E1 & S1).
    destruct (set_gauge_shows (fval ecu clt) _ _ text_celsius H2) as (g2 & E2 & S2).
    destruct (set_gauge_shows (fval ecu oil_temp) _ _ text_celsius H3) as (g3 & E3 & S3).
    exists (mk_dashboard g1 g2 g3).
    unfold ui_dashboard_set_oil_pressure, ui_dashboard_set_coolant_temp,
      ui_dashboard_set_oil_temp.
    rewrite E1, E2, E3. cbn [mbind option_bind].
    split_and!; [reflexivity | discriminate |].
    intros _. cbn [gauge_oil_pressure gauge_coolant_temp gauge_oil_temp].
    split_and!; assumption.
  - exists ui. split_and!; [reflexivity | reflexivity | discriminate].
Qed.

Lemma dashboard_update_shows_record_witness :
  exists ui',
    dashboard_update_cb true (ecu_data (invent_ems_init power_on))
      (mk_dashboard (mk_gauge 5 text_dashes) (mk_gauge 5 text_dashes) (mk_gauge 5 text_dashes))
    = Some (false, ui') /\
    gauge_oil_pressure ui' = mk_gauge 0 text_dashes.
Proof.
  destruct (dashboard_update_shows_record true (ecu_data (invent_ems_init power_on))
              (mk_dashboard (mk_gauge 5 text_dashes) (mk_gauge 5 text_dashes)
                            (mk_gauge 5 text_dashes)))
    as (ui' & Hrun & _ & Hshow).
  exists ui'. split; [exact Hrun|].
  destruct (Hshow eq_refl) as (H1 & _). exact H1.
Defined.

(* ================================================================== *)
(** ** CarEmu.c: the CAN error streak *)
(* ================================================================== *)

Lemma can_errors_run TX ERR (notifies : list Z) :
  Forall (fun n => Z.land n TX = 0 /\ Z.land n ERR <> 0) notifies ->
  forall c,
    0 <= canErrors c ->
    canErrors c + Z.of_nat (length notifies) < 2 ^ 32 ->
    (50 < canErrors c -> canRunning c = false) ->
    let c' := fold_left (fun c n => can2040_cb TX ERR n c) notifies c in
    canErrors c' = canErrors c + Z.of_nat (length notifies) /\
    canTxOk c' = canTxOk c /\
    canRunning c' = canRunning c && (canErrors c + Z.of_nat (length notifies) <=? 50).
Proof.
  induction 1 as [|n notifies (Htx & Herr) _ IH]; intros c H0 Hlen Hinv.
  - cbn [fold_left length Z.of_nat]. rewrite Z.add_0_r. split_and!; try reflexivity.
    destruct (Z.leb_spec (canErrors c) 50); [rewrite andb_true_r; reflexivity|].
    rewrite (Hinv ltac:(lia)). reflexivity.
  - cbn [fold_left]. cbn [length] in Hlen |- *.
    assert (Estep : can2040_cb TX ERR n c
              = mk_can_status (canRunning c && (canErrors c + 1 <=? 50))
                              (canTxOk c) (canErrors c + 1)).
    { unfold can2040_cb. rewrite Htx. cbn [Z.eqb negb].
      destruct (Z.eqb_spec (Z.land n ERR) 0) as [E | _]; [contradiction|]. cbn [negb].
      cbv zeta. cbn [canErrors canTxOk canRunning].
      unfold u32. rewrite Z.mod_small by lia.
      destruct (Z.ltb_spec 50 (canErrors c + 1)), (Z.leb_spec (canErrors c + 1) 50); try lia.
      - rewrite andb_false_r. reflexivity.
      - rewrite andb_true_r. destruct c; reflexivity. }
    rewrite Estep.
    set (c1 := mk_can_status (canRunning c && (canErrors c + 1 <=? 50))
                             (canTxOk c) (canErrors c + 1)).
    assert (H0' : 0 <= canErrors c1) by (cbn; lia).
    assert (Hlen' : canErrors c1 + Z.of_nat (length notifies) < 2 ^ 32) by (cbn; lia).
    assert (Hinv' : 50 < canErrors c1 -> canRunning c1 = false).
    { cbn. intros Hbig. destruct (Z.leb_spec (canErrors c + 1) 50); [lia|].
      apply andb_false_r. }
    destruct (IH c1 H0' Hlen' Hinv') as (He & Ht & Hr).
    rewrite He, Ht, Hr. cbn [c1 canErrors canTxOk canRunning].
    split_and!; try reflexivity; try lia.
    rewrite <- andb_assoc. f_equal.
    destruct (Z.leb_spec (canErrors c + 1) 50),
             (Z.leb_spec (canErrors c + 1 + Z.of_nat (length notifies)) 50),
             (Z.leb_spec (canErrors c + Z.of_nat (S (length notifies))) 50);
      try reflexivity; lia.
Qed.

(** X15.  The error streak of the emulator's CAN callback.  A notification with
    the TX bit (and without the error bit) counts one transmission and
    resets the streak; [k] notifications with the error bit alone that
    follow leave [canErrors = k], and the bus is switched off exactly when
    the streak exceeds 50: [canRunning] keeps its value while [k <= 50] and
    is false from the 51st error on. *)
Theorem can_bus_stops_after_51_errors (TX ERR tx_notify : Z) (errors : list Z)
        (c : can_status) :
  Z.land tx_notify TX <> 0 -> Z.land tx_notify ERR = 0 ->
  Forall (fun n => Z.land n TX = 0 /\ Z.land n ERR <> 0) errors ->
  Z.of_nat (length errors) < 2 ^ 32 ->
  let c' := fold_left (fun c n => can2040_cb TX ERR n c) (tx_notify :: errors) c in
  canErrors c' = Z.of_nat (length errors) /\
  canTxOk c' = u32 (canTxOk c + 1) /\
  canRunning c' = canRunning c && (Z.of_nat (length errors) <=? 50).
Proof.
  intros Htx Herr Hall Hlen. cbn [fold_left].
  assert (Estep : can2040_cb TX ERR tx_notify c
            = mk_can_status (canRunning c) (u32 (canTxOk c + 1)) 0).
  { unfold can2040_cb.
    destruct (Z.eqb_spec (Z.land tx_notify TX) 0) as [E | _]; [contradiction|].
    rewrite Herr. reflexivity. }
  rewrite Estep.
  destruct (can_errors_run TX ERR errors Hall
              (mk_can_status (canRunning c) (u32 (canTxOk c + 1)) 0))
    as (He & Ht & Hr); cbn [canErrors canTxOk canRunning] in *; try lia.
  rewrite He, Ht, Hr. split_and!; reflexivity.
Qed.

Lemma can_bus_stops_after_51_errors_witness :
  canRunning (fold_left (fun c n => can2040_cb 2 8 n c) (2 :: replicate 51 8)
                        (mk_can_status true 0 7)) = false.
Proof.
  assert (Htx : Z.land 2 2 <> 0) by discriminate.
  assert (Herr : Z.land 2 8 = 0) by reflexivity.
  assert (Hall : Forall (fun n => Z.land n 2 = 0 /\ Z.land n 8 <> 0) (replicate 51 8)).
  { apply Forall_replicate. split; [reflexivity | discriminate]. }
  assert (Hlen : Z.of_nat (length (replicate 51 8)) < 2 ^ 32)
    by (rewrite length_replicate; reflexivity).
  destruct (can_bus_stops_after_51_errors 2 8 2 (replicate 51 8) (mk_can_status true 0 7)
              Htx Herr Hall Hlen) as (_ & _ & Hr).
  rewrite Hr. rewrite length_replicate. reflexivity.
Defined.

(* ================================================================== *)
(** ** CarEmu.c: the command line *)
(* ================================================================== *)

Lemma c_string_prefix (pre rest : list Z) :
  Forall (fun x => x <> 0) pre -> c_string (pre ++ 0 :: rest) = pre.
Proof.
  induction 1 as [|x pre Hx _ IH]; [reflexivity|].
  cbn [app c_string]. destruct (Z.eqb_spec x 0); [contradiction|].
  rewrite IH. reflexivity.
Qed.

Lemma c_string_terminated (buf : list Z) :
  forall k, (k < length buf)%nat -> (length (c_string (<[k := 0%Z]> buf)) <= k)%nat.
Proof.
  induction buf as [|c buf IH]; intros k Hk; [cbn in Hk; lia|].
  destruct k as [|k]; [reflexivity|].
  change (<[S k := 0]> (c :: buf)) with (c :: <[k := 0]> buf). cbn [c_string].
  destruct (c =? 0); [cbn; lia|].
  cbn [length] in Hk |- *. specialize (IH k ltac:(lia)). lia.
Qed.

Lemma serial_char_wf c calls ch :
  cmdline_wf c -> Forall (fun cmd => (length cmd <= 63)%nat) calls ->
  cmdline_wf (fst (serial_char (c, calls) ch)) /\
  Forall (fun cmd => (length cmd <= 63)%nat) (snd (serial_char (c, calls) ch)).
Proof.
  intros (Hlen & Hpos) Hcalls. unfold CMD_BUF_SIZE in Hpos.
  unfold serial_char, cmdline_wf, CMD_BUF_SIZE.
  destruct ((ch =? 10) || (ch =? 13)).
  - destruct (Z.ltb_spec 0 (cmdPos c)); cbn [fst snd cmdBuf cmdPos].
    + rewrite length_wr. split; [split; [exact Hlen | lia]|].
      apply Forall_app. split; [exact Hcalls|]. constructor; [|constructor].
      unfold wr. destruct (Z.ltb_spec (cmdPos c) 0); [lia|].
      pose proof (c_string_terminated (cmdBuf c) (Z.to_nat (cmdPos c)) ltac:(lia)). lia.
    + split; [split; [exact Hlen | lia] | exact Hcalls].
  - destruct (Z.ltb_spec (cmdPos c) (64 - 1)); cbn [fst snd cmdBuf cmdPos].
    + rewrite length_wr. split; [split; [exact Hlen | lia] | exact Hcalls].
    + split; [split; [exact Hlen | lia] | exact Hcalls].
Qed.

(** X16.  Whatever arrives on the command line, [cmdBuf] is never written outside
    its 64 characters: the write position stays between 0 and 63, so both
    the characters and the final NUL land inside the array, and no command
    handed to [parseCommand] is longer than 63 characters. *)
Theorem command_buffer_never_overflows (chars : list Z) (c : cmdline) :
  cmdline_wf c ->
  cmdline_wf (fst (processSerialCommands chars c)) /\
  Forall (fun cmd => (length cmd <= 63)%nat) (snd (processSerialCommands chars c)).
Proof.
  intros Hwf. unfold processSerialCommands.
  assert (Hgen : forall st,
             cmdline_wf (fst st) -> Forall (fun cmd => (length cmd <= 63)%nat) (snd st) ->
             cmdline_wf (fst (fold_left serial_char chars st)) /\
             Forall (fun cmd => (length cmd <= 63)%nat)
                    (snd (fold_left serial_char chars st))).
  { induction chars as [|ch chars IH]; intros st H1 H2; [split; assumption|].
    cbn [fold_left]. destruct st as [c0 calls].
    destruct (serial_char_wf c0 calls ch H1 H2) as (H1' & H2').
    apply IH; assumption. }
  apply Hgen; [exact Hwf | constructor].
Qed.

Lemma command_buffer_never_overflows_witness :
  cmdline_wf (fst (processSerialCommands (replicate 100 65 ++ [10; 66])
                                          (mk_cmdline (replicate 64 0) 0))).
Proof.
  assert (Hwf : cmdline_wf (mk_cmdline (replicate 64 0) 0))
    by (split; [reflexivity | unfold CMD_BUF_SIZE; cbn; lia]).
  exact (proj1 (command_buffer_never_overflows (replicate 100 65 ++ [10; 66])
                  (mk_cmdline (replicate 64 0) 0) Hwf)).
Defined.

(** The characters of a line fill the buffer up to position 63. *)
Lemma serial_chars_fill line :
  Forall line_char line ->
  forall buf k calls,
    length buf = 64%nat -> (k <= 63)%nat ->
    exists buf',
      fold_left serial_char line (mk_cmdline buf (Z.of_nat k), calls)
      = (mk_cmdline buf' (Z.of_nat (Nat.min 63 (k + length line))), calls) /\
      length buf' = 64%nat /\
      take (Nat.min 63 (k + length line)) buf' = take 63 (take k buf ++ line).
Proof.
  induction 1 as [|ch line (Hch & Hn10 & Hn13) _ IH]; intros buf k calls Hlen Hk.
  - exists buf. cbn [fold_left length]. rewrite Nat.add_0_r, Nat.min_r by lia.
    split_and!; try reflexivity; [exact Hlen|].
    rewrite app_nil_r, take_take, Nat.min_r by lia. reflexivity.
  - cbn [fold_left]. unfold serial_char at 2. cbn [cmdPos cmdBuf].
    destruct (Z.eqb_spec ch 10); [contradiction|].
    destruct (Z.eqb_spec ch 13); [contradiction|]. cbn [orb].
    unfold CMD_BUF_SIZE. destruct (Z.ltb_spec (Z.of_nat k) (64 - 1)) as [Hroom | Hfull].
    + unfold wr. destruct (Z.ltb_spec (Z.of_nat k) 0); [lia|].
      rewrite Nat2Z.id, u8_small by lia.
      replace (Z.of_nat k + 1) with (Z.of_nat (S k)) by lia.
      destruct (IH (<[k := ch]> buf) (S k) calls) as (buf' & Hrun & Hlen' & Htake);
        [rewrite length_insert; exact Hlen | lia |].
      exists buf'. cbn [length].
      replace (k + S (length line))%nat with (S k + length line)%nat by lia.
      split_and!; try assumption.
      rewrite Htake. f_equal.
      rewrite (take_S_r _ _ ch) by (apply list_lookup_insert_eq; lia).
      rewrite take_insert_ge by lia. rewrite <- app_assoc. reflexivity.
    + assert (k = 63%nat) by lia. subst k.
      destruct (IH buf 63%nat calls Hlen ltac:(lia)) as (buf' & Hrun & Hlen' & Htake).
      exists buf'. cbn [length].
      rewrite !Nat.min_l in * by lia.
      split_and!; try assumption.
      rewrite Htake.
      rewrite !take_app_le by (rewrite length_take; lia).
      reflexivity.
Qed.

(** X17.  A typed line reaches [parseCommand] as typed.  From an empty buffer, a
    non-empty line of ASCII characters followed by a line feed or a carriage
    return makes exactly one call of [parseCommand], with the first 63
    characters of the line (the whole line when it is that short), and the
    buffer is empty again afterwards; line ends alone make no call. *)
Theorem command_line_is_dispatched (line : list Z) (nl : Z) (buf : list Z)
        (blank : list Z) :
  length buf = 64%nat ->
  Forall line_char line -> line <> [] ->
  nl = 10 \/ nl = 13 ->
  Forall (fun ch => ch = 10 \/ ch = 13) blank ->
  (exists buf',
     processSerialCommands (line ++ [nl]) (mk_cmdline buf 0)
     = (mk_cmdline buf' 0, [take 63 line]) /\ length buf' = 64%nat) /\
  processSerialCommands blank (mk_cmdline buf 0) = (mk_cmdline buf 0, []).
Proof.
  intros Hlen Hline Hne Hnl Hblank. split.
  - unfold processSerialCommands. rewrite fold_left_app.
    destruct (serial_chars_fill line Hline buf 0%nat [] Hlen ltac:(lia))
      as (buf' & Hrun & Hlen' & Htake).
    change (Z.of_nat 0) with 0 in Hrun. cbn [take app Nat.add] in Htake, Hrun.
    rewrite Hrun. cbn [fold_left].
    set (p := Nat.min 63 (length line)) in *.
    assert (Hp : (0 < p <= 63)%nat).
    { subst p. destruct line; [congruence|]. cbn [length]. lia. }
    unfold serial_char. cbn [cmdPos cmdBuf].
    assert (Enl : (nl =? 10) || (nl =? 13) = true)
      by (destruct Hnl as [-> | ->]; reflexivity).
    rewrite Enl. destruct (Z.ltb_spec 0 (Z.of_nat p)); [|lia].
    unfold wr. destruct (Z.ltb_spec (Z.of_nat p) 0); [lia|]. rewrite Nat2Z.id.
    exists (<[p := 0]> buf'). split; [|rewrite length_insert; exact Hlen'].
    f_equal. cbn [app]. f_equal.
    rewrite insert_take_drop by lia. rewrite Htake, take_0. cbn [app].
    apply c_string_prefix.
    assert (Hnz : Forall (fun x => x <> 0) line).
    { clear -Hline. induction Hline as [|x l (Hx & _) _ IH]; constructor; [lia | exact IH]. }
    apply Forall_take, Hnz.
  - unfold processSerialCommands.
    induction Hblank as [|ch blank Hch _ IH]; [reflexivity|].
    cbn [fold_left]. unfold serial_char at 2. cbn [cmdPos].
    assert (E : (ch =? 10) || (ch =? 13) = true)
      by (destruct Hch as [-> | ->]; reflexivity).
    rewrite E. exact IH.
Qed.

Lemma command_line_is_dispatched_witness :
  exists buf',
    processSerialCommands ([114; 112; 109; 61; 57] ++ [10]) (mk_cmdline (replicate 64 0) 0)
    = (mk_cmdline buf' 0, [take 63 [114; 112; 109; 61; 57]]).
Proof.
  assert (Hlen : length (replicate 64 0) = 64%nat) by reflexivity.
  assert (Hline : Forall line_char [114; 112; 109; 61; 57])
    by (repeat constructor; unfold line_char; lia).
  assert (Hne : [114; 112; 109; 61; 57] <> []) by discriminate.
  assert (Hnl : 10 = 10 \/ 10 = 13) by (left; reflexivity).
  assert (Hblank : Forall (fun ch => ch = 10 \/ ch = 13) (@nil Z)) by constructor.
  destruct (proj1 (command_line_is_dispatched [114; 112; 109; 61; 57] 10 (replicate 64 0) []
                     Hlen Hline Hne Hnl Hblank)) as (buf' & Hrun & _).
  exists buf'. exact Hrun.
Defined.

(* ================================================================== *)
(** ** CarEmu.c: the helpers of the encoder *)
(* ================================================================== *)

Lemma Qtrunc_below q n : (0 <= q)%Q -> (q < inject_Z n)%Q -> Qtrunc q < n.
Proof.
  intros H0 Hlt. destruct (proj1 (Qtrunc_bounds q) H0) as (Hlo & _).
  rewrite Zlt_Qlt. lra.
Qed.

Lemma Qtrunc_above q n : (0 <= q)%Q -> (inject_Z n <= q)%Q -> n <= Qtrunc q.
Proof.
  intros H0 Hle. destruct (proj1 (Qtrunc_bounds q) H0) as (_ & Hhi & _).
  assert (n < Qtrunc q + 1); [|lia].
  rewrite Zlt_Qlt, inject_Z_plus. change (inject_Z 1) with 1%Q. lra.
Qed.

(** X18.  [rpmToPeriod] at its edges (in exact arithmetic).  A speed of zero or
    less gives period 0.  For a positive speed the period is the integer
    part of [1e7 / rpm] cut off at 65535: it is 65535 for every speed up to
    [1e7 / 65536] (about 152.6 rpm), and 0 for every speed above [1e7],
    which the decoder shows as 0 rpm.  For a positive speed so small that
    [1e7 / rpm] does not fit 32 bits the cast has no defined result. *)
Theorem rpmToPeriod_edges (rpm : Q) :
  ((rpm <= 0)%Q -> CarEmu.rpmToPeriod rpm = Some 0) /\
  ((0 < rpm)%Q -> (10000000 / rpm < 4294967296)%Q ->
   exists p, CarEmu.rpmToPeriod rpm = Some p /\ 0 <= p <= 65535 /\
             ((65536 <= 10000000 / rpm)%Q -> p = 65535) /\
             ((10000000 < rpm)%Q -> p = 0)) /\
  ((0 < rpm)%Q -> (4294967296 <= 10000000 / rpm)%Q -> CarEmu.rpmToPeriod rpm = None).
Proof.
  unfold CarEmu.rpmToPeriod. split_and!.
  - intros Hle. apply Qle_bool_iff in Hle. rewrite Hle. reflexivity.
  - intros Hpos Hfit.
    destruct (Qle_bool rpm 0) eqn:Hle;
      [apply Qle_bool_iff in Hle; exfalso; apply (Qlt_not_le _ _ Hpos), Hle|].
    set (q := (10000000 / rpm)%Q) in *.
    assert (Hq : (0 <= q)%Q).
    { subst q. apply Qle_shift_div_l; [exact Hpos | lra]. }
    pose proof (Qtrunc_below q 4294967296 Hq Hfit) as Hhi.
    pose proof (Qtrunc_above q 0 Hq Hq) as Hlo.
    unfold cast_u32, cast_int.
    destruct (Z.leb_spec 0 (Qtrunc q)); [|lia].
    destruct (Z.leb_spec (Qtrunc q) 4294967295); [|lia].
    cbn [andb mbind option_bind].
    eexists. split; [reflexivity|].
    destruct (Z.ltb_spec 65535 (Qtrunc q)) as [Hbig | Hsmall].
    + split; [lia|]. split; [intros _; reflexivity|].
      intros Hfast. exfalso.
      assert (Hq1 : (q < 1)%Q).
      { subst q. apply Qlt_shift_div_r; [exact Hpos | lra]. }
      pose proof (Qtrunc_below q 1 Hq Hq1). lia.
    + rewrite u16_small by lia. split; [lia|]. split.
      * intros H65536. pose proof (Qtrunc_above q 65536 Hq H65536). lia.
      * intros Hfast.
        assert (Hq1 : (q < 1)%Q).
        { subst q. apply Qlt_shift_div_r; [exact Hpos | lra]. }
        pose proof (Qtrunc_below q 1 Hq Hq1). lia.
  - intros Hpos Hbig.
    destruct (Qle_bool rpm 0) eqn:Hle;
      [apply Qle_bool_iff in Hle; exfalso; apply (Qlt_not_le _ _ Hpos), Hle|].
    set (q := (10000000 / rpm)%Q) in *.
    assert (Hq : (0 <= q)%Q) by lra.
    pose proof (Qtrunc_above q 4294967296 Hq Hbig) as Hhi.
    unfold cast_u32, cast_int.
    destruct (Z.leb_spec (Qtrunc q) 4294967295); [lia|].
    rewrite andb_false_r. reflexivity.
Qed.

Lemma rpmToPeriod_edges_witness :
  exists p, CarEmu.rpmToPeriod 100 = Some p /\ 0 <= p <= 65535.
Proof.
  assert (Hpos : (0 < 100)%Q) by reflexivity.
  assert (Hfit : (10000000 / 100 < 4294967296)%Q) by reflexivity.
  destruct (proj1 (proj2 (rpmToPeriod_edges 100)) Hpos Hfit) as (p & Hp & Hr & _).
  exists p. split; assumption.
Defined.

(** X19.  [clampU8]: the result is a byte; it is 0 below zero and 255 above 255;
    an integer from 0 to 255 is returned as it is; and the result never
    decreases when the argument grows. *)
Theorem clampU8_saturates_and_grows (v v' : Q) (n : Z) :
  0 <= CarEmu.clampU8 v <= 255 /\
  ((v < 0)%Q -> CarEmu.clampU8 v = 0) /\
  ((255 < v)%Q -> CarEmu.clampU8 v = 255) /\
  (0 <= n <= 255 -> CarEmu.clampU8 (inject_Z n) = n) /\
  ((v <= v')%Q -> CarEmu.clampU8 v <= CarEmu.clampU8 v').
Proof.
  assert (Hmid : forall x, (0 <= x)%Q -> (x <= 255)%Q ->
                           CarEmu.clampU8 x = Qtrunc (x + 1 / 2) /\
                           0 <= Qtrunc (x + 1 / 2) <= 255).
  { intros x H0 H255. unfold CarEmu.clampU8.
    destruct (Qltb_spec x 0); [lra|]. destruct (Qltb_spec 255 x); [lra|].
    change (1 / 2)%Q with (1 # 2)%Q.
    assert (Hx : (0 <= x + (1 # 2))%Q) by lra.
    pose proof (Qtrunc_above (x + (1 # 2)) 0 Hx Hx).
    assert (Hlt : (x + (1 # 2) < inject_Z 256)%Q)
      by (change (inject_Z 256) with 256%Q; lra).
    pose proof (Qtrunc_below (x + (1 # 2)) 256 Hx Hlt).
    rewrite u8_small by lia. split; [reflexivity | lia]. }
  pose proof (clampU8_range v) as Hr.
  split_and!; try lia.
  - intros Hv. unfold CarEmu.clampU8. destruct (Qltb_spec v 0); [reflexivity | lra].
  - intros Hv. unfold CarEmu.clampU8.
    destruct (Qltb_spec v 0); [lra|]. destruct (Qltb_spec 255 v); [reflexivity | lra].
  - intros Hn.
    assert (H0 : (0 <= inject_Z n)%Q)
      by (change 0%Q with (inject_Z 0); rewrite <- Zle_Qle; lia).
    assert (H255 : (inject_Z n <= 255)%Q)
      by (change 255%Q with (inject_Z 255); rewrite <- Zle_Qle; lia).
    destruct (Hmid _ H0 H255) as (E & _). rewrite E.
    change (1 / 2)%Q with (1 # 2)%Q.
    assert (Hx : (0 <= inject_Z n + (1 # 2))%Q) by lra.
    assert (Hlo : (inject_Z n <= inject_Z n + (1 # 2))%Q) by lra.
    assert (Hhi : (inject_Z n + (1 # 2) < inject_Z (n + 1))%Q).
    { rewrite inject_Z_plus. change (inject_Z 1) with 1%Q. lra. }
    pose proof (Qtrunc_above _ n Hx Hlo). pose proof (Qtrunc_below _ (n + 1) Hx Hhi). lia.
  - intros Hle. pose proof (clampU8_range v') as Hr'.
    destruct (Qlt_le_dec v 0) as [Hneg | Hnn].
    + unfold CarEmu.clampU8 at 1. destruct (Qltb_spec v 0); [lia | lra].
    + destruct (Qlt_le_dec 255 v') as [Hbig | Hsm].
      * unfold CarEmu.clampU8 at 2.
        destruct (Qltb_spec v' 0); [lra|]. destruct (Qltb_spec 255 v'); [lia | lra].
      * destruct (Hmid v Hnn ltac:(lra)) as (E & _).
        destruct (Hmid v' ltac:(lra) Hsm) as (E' & _).
        rewrite E, E'. change (1 / 2)%Q with (1 # 2)%Q. apply Qtrunc_mono; lra.
Qed.

(** X20.  [slowPacketIndex] stays a valid index: after every frame it lies in
    [0 .. 9]; from an index below 9 it moves to the next one and from 9 back
    to 0; every frame has 43 bytes and carries the index it was built with
    in the byte at offset 29 of the frame (offset 24 of the packet). *)
Theorem slow_packet_index_rotates (eng : CarEmu.EngineState) (idx : Z) (frame : list Z)
        (next : Z) :
  CarEmu.buildAndSend eng idx = Some (frame, next) ->
  0 <= next < CarEmu.TOTAL_SLOW_PACKETS /\
  (0 <= idx < 9 -> next = idx + 1) /\
  (idx = 9 -> next = 0) /\
  rd frame 29 = u8 idx /\
  length frame = 43%nat.
Proof.
  intros Hemu.
  destruct (buildAndSend_inv eng idx frame next Hemu)
    as (Uoz & Period & InjTime & sp & body & _ & _ & _ & _ & Himg & Hbl & _ & Hf & Hn).
  unfold CarEmu.TOTAL_SLOW_PACKETS, CarEmu.SLOW_PACKETS_COUNT,
    CarEmu.VERY_SLOW_PACKETS_COUNT in *.
  change (4 + 6) with 10 in *.
  pose proof (u8_range (idx + 1)) as Hu.
  split_and!.
  - subst next. destruct (Z.leb_spec 10 (u8 (idx + 1))); lia.
  - subst next. destruct (Z.leb_spec 10 (u8 (idx + 1))); lia.
  - intros Hi. subst next. rewrite u8_small by lia.
    destruct (Z.leb_spec 10 (idx + 1)); lia.
  - intros ->. subst next. reflexivity.
  - pose proof (packet_image_slow_id eng Uoz Period InjTime idx sp []) as Hid.
    rewrite app_nil_r, Himg in Hid.
    subst frame. unfold wire_frame.
    rewrite rd_app_r by (cbn [length]; lia). cbn [length].
    change (29 - Z.of_nat 6) with 23.
    rewrite rd_cons_pos in Hid by lia. change (24 - 1) with 23 in Hid.
    rewrite rd_app_l by lia. exact Hid.
  - subst frame. unfold wire_frame. rewrite !length_app, Hbl. reflexivity.
Qed.

Lemma slow_packet_index_rotates_witness :
  rd c2_frame 29 = u8 0 /\ length c2_frame = 43%nat.
Proof.
  assert (Hemu : CarEmu.buildAndSend initEngineState 0 = Some (c2_frame, 1))
    by (vm_compute; reflexivity).
  destruct (slow_packet_index_rotates initEngineState 0 c2_frame 1 Hemu)
    as (_ & _ & _ & Hid & Hlen).
  split; assumption.
Defined.

Lemma clampU8_saturates_and_grows_witness :
  CarEmu.clampU8 (inject_Z 200) = 200.
Proof.
  assert (Hn : 0 <= 200 <= 255) by lia.
  destruct (clampU8_saturates_and_grows 0 0 200) as (_ & _ & _ & H & _).
  exact (H Hn).
Defined.

(* ================================================================== *)
(** ** CarEmu.c and invent_ems.c: a full rotation of the slow packets *)
(* ================================================================== *)

Lemma no_new_nan_feed_bytes bytes :
  forall s, no_new_nan (ecu_data s) (ecu_data (feed_bytes s bytes)).
Proof.
  induction bytes as [|b bytes IH]; intros s; [apply no_new_nan_refl|].
  rewrite feed_bytes_cons. intros f Hf.
  apply (feed_byte_no_new_nan s b), (IH _ f), Hf.
Qed.

Lemma is_fin_kept s bytes f :
  is_fin (fval (ecu_data s) f) -> is_fin (fval (ecu_data (feed_bytes s bytes)) f).
Proof.
  intros Hfin. pose proof (no_new_nan_feed_bytes bytes s f) as Hn.
  destruct (fval (ecu_data (feed_bytes s bytes)) f); [|exact I].
  rewrite (Hn eq_refl) in Hfin. exact Hfin.
Qed.

Ltac eval_float :=
  match goal with
  | |- is_fin ?t =>
      let v := eval cbv - [rd read_u16 read_i16 fmul_int fdiv_int of_int i8
                           Qdiv Qmult Qinv Z.ltb inject_Z] in t in
      change (is_fin v)
  end.

(** A frame of the emulator brings a value for every float member of the
    fast block and of the slow packet it carries. *)
Lemma frame_receives_group eng idx frame next s f :
  0 <= idx < 10 ->
  CarEmu.buildAndSend eng idx = Some (frame, next) ->
  parser_wf s -> rxstate s <= 4 ->
  ffield_valid f ->
  float_group f = None \/ float_group f = Some idx ->
  is_fin (fval (ecu_data (feed_bytes s frame)) f).
Proof.
  intros Hidx Hemu Hwf Hst Hf Hgroup.
  destruct (round_trip_decoded eng idx frame next s Hidx Hemu Hwf Hst)
    as (Uoz & Period & InjTime & sp & tl & _ & _ & _ & _ & Hfv & _).
  rewrite Hfv. clear Hfv.
  set (B := CarEmu.packet_image eng Uoz Period InjTime idx sp ++ tl). clearbody B.
  destruct (ecu_data s) as [c p e fv iv].
  assert (Hcases : idx = 0 \/ idx = 1 \/ idx = 2 \/ idx = 3 \/ idx = 4 \/
                   idx = 5 \/ idx = 6 \/ idx = 7 \/ idx = 8 \/ idx = 9) by lia.
  destruct f; cbn [float_group ffield_valid] in Hgroup, Hf;
    try (do 6 (try destruct i as [|i]); try lia);
    destruct Hgroup as [Hg | Hg]; try discriminate Hg;
    try (injection Hg as Hg; subst idx);
    try (destruct Hcases as [->|[->|[->|[->|[->|[->|[->|[->|[->| ->]]]]]]]]]);
    eval_float; unfold fmul_int, of_int;
    try exact I;
    match goal with |- is_fin (if ?b then _ else _) => destruct b; exact I end.
Qed.

Lemma float_group_range f :
  float_group f = None \/ exists k, float_group f = Some k /\ 0 <= k < 10.
Proof.
  destruct f; cbn [float_group]; (left; reflexivity) || (right; eexists; split; [reflexivity | lia]).
Qed.

(** A run of consecutive frames, starting with slow packet [idx]. *)
Lemma rotation_run engs :
  forall idx frames last s,
    send_frames engs idx = Some (frames, last) ->
    0 <= idx < 10 -> idx + Z.of_nat (length engs) <= 10 ->
    parser_wf s -> 0 <= rxstate s <= 4 ->
    let s' := feed_bytes s (concat frames) in
    parser_wf s' /\ 0 <= rxstate s' <= 4 /\
    last = (idx + Z.of_nat (length engs)) mod 10 /\
    length frames = length engs /\
    Forall (fun fr => exists L body, valid_frame L body fr) frames /\
    (forall f, ffield_valid f ->
               is_fin (fval (ecu_data s) f) \/
               (engs <> [] /\ float_group f = None) \/
               (exists k, float_group f = Some k /\
                          idx <= k < idx + Z.of_nat (length engs)) ->
               is_fin (fval (ecu_data s') f)).
Proof.
  induction engs as [|eng engs IH]; intros idx frames last s Hrun Hidx Hlen Hwf Hst.
  - cbn [send_frames] in Hrun. injection Hrun as <- <-.
    cbn [concat feed_bytes fold_left length Z.of_nat]. rewrite Z.add_0_r.
    split; [assumption|]. split; [lia|]. split; [rewrite Z.mod_small; lia|].
    split; [reflexivity|]. split; [constructor|].
    intros f Hf [Hfin | [[Hne _] | (k & _ & Hk)]]; [exact Hfin | congruence | lia].
  - cbn [send_frames] in Hrun. cbn [length] in Hlen.
    apply bind_Some in Hrun as ([fr next] & Hemu & Hrun).
    apply bind_Some in Hrun as ([frames' last'] & Hrest & Hrun).
    injection Hrun as <- <-.
    pose proof Hidx as Hidx'.
    destruct (buildAndSend_inv eng idx fr next Hemu)
      as (Uoz & Period & InjTime & sp & body & _ & _ & _ & _ & _ & Hbl & Hbb & Hf & Hn).
    assert (Hv : valid_frame 37 body fr).
    { unfold valid_frame. split_and!; try assumption; lia. }
    destruct (feed_valid_frame_counts s 37 body fr Hwf Hst Hv) as (_ & _ & _ & _ & H0).
    assert (Hwf1 : parser_wf (feed_bytes s fr)) by (apply parser_wf_feed_bytes, Hwf).
    assert (Hst1 : 0 <= rxstate (feed_bytes s fr) <= 4) by lia.
    assert (Hnext : next = (idx + 1) mod 10 /\ (engs <> [] -> next = idx + 1)).
    { subst next. unfold CarEmu.TOTAL_SLOW_PACKETS, CarEmu.SLOW_PACKETS_COUNT,
        CarEmu.VERY_SLOW_PACKETS_COUNT. change (4 + 6) with 10.
      rewrite u8_small by lia.
      destruct (Z.leb_spec 10 (idx + 1)).
      - assert (idx = 9) by lia. subst idx. split; [reflexivity|].
        intros Hne. destruct engs; [congruence | cbn [length] in Hlen; lia].
      - rewrite Z.mod_small by lia. split; [reflexivity | intros _; reflexivity]. }
    destruct Hnext as (Hnmod & Hnsucc).
    cbn [concat length]. rewrite feed_bytes_app.
    destruct engs as [|eng2 engs'].
    + cbn [send_frames] in Hrest. injection Hrest as <- <-.
      cbn [concat feed_bytes fold_left length Z.of_nat]. fold (feed_bytes s fr).
      split; [assumption|]. split; [lia|]. split; [exact Hnmod|].
      split; [reflexivity|].
      split; [constructor; [exists 37, body; exact Hv | constructor]|].
      intros f Hfv [Hfin | [[_ Hg] | (k & Hg & Hk)]].
      * apply is_fin_kept, Hfin.
      * apply (frame_receives_group eng idx fr next s f Hidx' Hemu Hwf ltac:(lia) Hfv).
        left. exact Hg.
      * apply (frame_receives_group eng idx fr next s f Hidx' Hemu Hwf ltac:(lia) Hfv).
        right. rewrite Hg. f_equal. cbn [length] in Hk. lia.
    + specialize (Hnsucc ltac:(discriminate)). clear Hn Hnmod. subst next.
      destruct (IH (idx + 1) frames' last' (feed_bytes s fr) Hrest
                   ltac:(cbn [length] in *; lia)
                   ltac:(cbn [length] in *; lia) Hwf1 Hst1)
        as (Hwf' & Hst' & Hlast & Hlenf & Hall & Hfin').
      split; [assumption|]. split; [assumption|].
      split; [rewrite Hlast; f_equal; cbn [length]; lia|].
      split; [cbn [length]; rewrite Hlenf; reflexivity|].
      split; [constructor; [exists 37, body; exact Hv | exact Hall]|].
      intros f Hfv Hcase. apply Hfin'; [exact Hfv|].
      destruct Hcase as [Hfin | [[_ Hg] | (k & Hg & Hk)]].
      * left. apply is_fin_kept, Hfin.
      * right. left. split; [discriminate | exact Hg].
      * destruct (Z.eq_dec k idx) as [-> | Hne].
        -- left. apply (frame_receives_group eng idx fr (idx + 1) s f Hidx' Hemu Hwf
                          ltac:(lia) Hfv). right. exact Hg.
        -- right. right. exists k. split; [exact Hg|]. cbn [length] in Hk |- *. lia.
Qed.

(** X21.  After one full rotation of the emulator, ten frames starting with slow
    packet 0 with whatever engine states, no float member of the telemetry
    record is left at not-a-number: every one of them has been received.
    The ten frames count as ten packets and no error, and the emulator is
    back at slow packet 0. *)
Theorem full_rotation_receives_every_float (engs : list CarEmu.EngineState)
        (frames : list (list Z)) (last : Z) (s : parser) (f : ffield) :
  length engs = 10%nat ->
  send_frames engs 0 = Some (frames, last) ->
  parser_wf s -> 0 <= rxstate s <= 4 ->
  ffield_valid f ->
  let s' := feed_bytes s (concat frames) in
  last = 0 /\
  length frames = 10%nat /\
  packet_count (ecu_data s') = u32 (packet_count (ecu_data s) + 10) /\
  error_count (ecu_data s') = error_count (ecu_data s) /\
  is_fin (fval (ecu_data s') f).
Proof.
  intros Hlen Hrun Hwf Hst Hf s'.
  destruct (rotation_run engs 0 frames last s Hrun ltac:(lia) ltac:(lia) Hwf Hst)
    as (_ & _ & Hlast & Hlenf & Hall & Hfin).
  fold s' in Hfin. rewrite Hlen in *.
  assert (Hne : frames <> []) by (destruct frames; [discriminate Hlenf | discriminate]).
  destruct (feed_frames frames s Hwf Hst Hall Hne) as (_ & _ & Hp & He & _).
  fold s' in Hp, He. rewrite Hlenf in Hp.
  split; [rewrite Hlast; reflexivity|]. split; [exact Hlenf|].
  split; [exact Hp|]. split; [exact He|].
  apply Hfin; [exact Hf|].
  destruct (float_group_range f) as [Hg | (k & Hg & Hk)].
  - right. left. split; [|exact Hg]. destruct engs; discriminate.
  - right. right. exists k. split; [exact Hg|]. change (Z.of_nat 10) with 10. lia.
Qed.

Lemma full_rotation_receives_every_float_witness :
  exists frames,
    send_frames (replicate 10 initEngineState) 0 = Some (frames, 0) /\
    is_fin (fval (ecu_data (feed_bytes (invent_ems_init power_on) (concat frames)))
                 oil_pressure).
Proof.
  assert (E : exists frames last,
             send_frames (replicate 10 initEngineState) 0 = Some (frames, last))
    by (vm_compute; eexists _, _; reflexivity).
  destruct E as (frames & last & E).
  assert (Hlen : length (replicate 10 initEngineState) = 10%nat) by reflexivity.
  assert (Hst : 0 <= rxstate (invent_ems_init power_on) <= 4) by (cbn; lia).
  destruct (full_rotation_receives_every_float (replicate 10 initEngineState) frames last
              (invent_ems_init power_on) oil_pressure Hlen E parser_wf_power_on Hst I)
    as (Hlast & _ & _ & _ & Hfin).
  exists frames. subst last. split; [exact E | exact Hfin].
Defined.

(* ================================================================== *)
(** ** CarEmu.c and invent_ems.c: the CAN frames *)
(* ================================================================== *)

Lemma Qtrunc_tenths n : Qtrunc (fdiv_of_int n (1 # 10)) = 10 * n.
Proof.
  unfold fdiv_of_int.
  rewrite (Qtrunc_comp _ (inject_Z (10 * n))).
  - apply Qtrunc_inject.
  - rewrite inject_Z_mult. change (inject_Z 10) with 10%Q. field.
Qed.

Lemma cast_tenths lo hi n w :
  cast_int lo hi (fdiv_of_int n (1 # 10)) = Some w -> w = 10 * n /\ lo <= 10 * n <= hi.
Proof.
  intros H. apply cast_int_inv in H as [-> Hr]. rewrite Qtrunc_tenths in *.
  split; [reflexivity | exact Hr].
Qed.

Lemma cast_tenths_none lo hi n :
  hi < 10 * n -> cast_int lo hi (fdiv_of_int n (1 # 10)) = None.
Proof.
  intros Hbig. unfold cast_int. rewrite Qtrunc_tenths.
  destruct (Z.leb_spec (10 * n) hi); [lia|]. rewrite andb_false_r. reflexivity.
Qed.

Lemma shows_int_tenths n : shows_int (fmul_int (10 * n) (1 # 10)) n.
Proof.
  unfold shows_int, fmul_int. rewrite inject_Z_mult. change (inject_Z 10) with 10%Q. field.
Qed.

Lemma shows_int_of_int n : shows_int (of_int n) n.
Proof. unfold shows_int, of_int. reflexivity. Qed.

(** Reading a member of the decoded record after a bus frame. *)
Ltac can_member :=
  unfold feed_can_msg, can_msg_4x16; cbn [msg_id msg_data msg_dlc];
  unfold invent_ems_feed_can_frame; cbv zeta;
  cbn [fst set_new_data_flag set_ecu_data ecu_data set_connected setf seti fval ival];
  repeat (rewrite fn_lookup_insert_ne by discriminate);
  rewrite fn_lookup_insert;
  read_wire;
  rewrite ?i16_small, ?u16_small by lia.

(** X22.  The integer members of the engine state come back exactly over the bus
    (the temperatures, the speed, the gear, the dwell time, the knock count,
    the fuel pressure and the exhaust temperatures; the engine speed comes
    back cut to an integer): for each message the emulator builds, the
    decoder's member holds the engine's value. *)
Theorem can_round_trip_integer_channels (eng : CarEmu.EngineState) (s : parser) :
  engine_typed eng ->
  (forall m, buildCAN_ME1_1 eng = Some m ->
     let d := ecu_data (fst (feed_can_msg s m)) in
     shows_int (fval d rpm) (Qtrunc (CarEmu.rpm eng)) /\
     shows_int (fval d iat) (CarEmu.iat eng)) /\
  (forall m, buildCAN_ME1_3 eng = Some m ->
     let d := ecu_data (fst (feed_can_msg s m)) in
     shows_int (fval d dwell_ms) (CarEmu.dwellTime eng)) /\
  (forall m, buildCAN_ME1_5 eng = Some m ->
     let d := ecu_data (fst (feed_can_msg s m)) in
     shows_int (fval d oil_temp) (CarEmu.oilT eng) /\
     shows_int (fval d clt) (CarEmu.clt eng)) /\
  (forall m, buildCAN_ME1_6 eng = Some m ->
     let d := ecu_data (fst (feed_can_msg s m)) in
     ival d gear = CarEmu.gearNo eng /\
     shows_int (fval d speed) (CarEmu.speed eng)) /\
  (forall m, buildCAN_ME1_7 eng = Some m ->
     let d := ecu_data (fst (feed_can_msg s m)) in
     shows_int (fval d knock_v) (CarEmu.knockV eng) /\
     shows_int (fval d fuel_pressure_kpa) (CarEmu.fuelPKpa eng) /\
     shows_int (fval d fuel_temp) (CarEmu.fuelT eng)) /\
  (forall m, buildCAN_ME1_8 eng = Some m ->
     let d := ecu_data (fst (feed_can_msg s m)) in
     shows_int (fval d egt1) (CarEmu.egt1 eng) /\
     shows_int (fval d egt2) (CarEmu.egt2 eng)) /\
  (forall m, buildCAN_ME1_In1 eng = Some m ->
     let d := ecu_data (fst (feed_can_msg s m)) in
     shows_int (fval d speed) (CarEmu.speed eng)).
Proof.
  intros (Hiat & Hclt & HfuelT & Hgear & HoilT & Hspeed & Hknock & Hdwell & HfuelP &
          Hegt1 & Hegt2).
  destruct s as [st buf p [c pc ec fv iv] fl].
  split_and!; intros m Hb d; subst d.
  - unfold buildCAN_ME1_1 in Hb.
    apply bind_Some in Hb as (w0 & H0 & Hb). apply bind_Some in Hb as (w1 & H1 & Hb).
    apply bind_Some in Hb as (w2 & H2 & Hb). apply bind_Some in Hb as (w3 & H3 & Hb).
    injection Hb as <-.
    apply cast_int_inv in H0 as [-> R0]. apply cast_tenths in H3 as [-> R3].
    split; can_member; [apply shows_int_of_int | apply shows_int_tenths].
  - unfold buildCAN_ME1_3 in Hb.
    apply bind_Some in Hb as (w0 & H0 & Hb). apply bind_Some in Hb as (w2 & H2 & Hb).
    apply bind_Some in Hb as (w3 & H3 & Hb). injection Hb as <-.
    assert (E : u16 (CarEmu.dwellTime eng * 10) = 10 * CarEmu.dwellTime eng)
      by (rewrite u16_small by lia; lia).
    can_member. rewrite (Z.mul_comm _ 10). apply shows_int_tenths.
  - unfold buildCAN_ME1_5 in Hb.
    apply bind_Some in Hb as (w0 & H0 & Hb). apply bind_Some in Hb as (w1 & H1 & Hb).
    apply bind_Some in Hb as (w2 & H2 & Hb). apply bind_Some in Hb as (w3 & H3 & Hb).
    injection Hb as <-.
    apply cast_tenths in H0 as [-> R0]. apply cast_tenths in H2 as [-> R2].
    split; can_member; apply shows_int_tenths.
  - unfold buildCAN_ME1_6 in Hb.
    apply bind_Some in Hb as (w1 & H1 & Hb). apply bind_Some in Hb as (w2 & H2 & Hb).
    injection Hb as <-.
    apply cast_tenths in H2 as [-> R2].
    split; can_member; [|apply shows_int_tenths].
    rewrite !(i16_small (CarEmu.gearNo eng)) by lia.
    rewrite <- (i8_u8_small (CarEmu.gearNo eng)) at 2 by lia.
    unfold i8. rewrite (u8_small (u8 _)) by apply u8_range. reflexivity.
  - unfold buildCAN_ME1_7 in Hb.
    apply bind_Some in Hb as (w0 & H0 & Hb). cbv zeta in Hb.
    apply bind_Some in Hb as (w2 & H2 & Hb). apply bind_Some in Hb as (w3 & H3 & Hb).
    injection Hb as <-.
    apply cast_tenths in H0 as [-> R0]. apply cast_tenths in H2 as [-> R2].
    apply cast_tenths in H3 as [-> R3].
    split_and!; can_member; apply shows_int_tenths.
  - unfold buildCAN_ME1_8 in Hb.
    apply bind_Some in Hb as (w0 & H0 & Hb). apply bind_Some in Hb as (w1 & H1 & Hb).
    injection Hb as <-.
    apply cast_tenths in H0 as [-> R0]. apply cast_tenths in H1 as [-> R1].
    split; can_member; apply shows_int_tenths.
  - unfold buildCAN_ME1_In1 in Hb.
    apply bind_Some in Hb as (w0 & H0 & Hb). injection Hb as <-.
    apply cast_tenths in H0 as [-> R0].
    unfold feed_can_msg; cbn [msg_id msg_data msg_dlc].
    unfold invent_ems_feed_can_frame; cbv zeta.
    cbn [fst set_new_data_flag set_ecu_data ecu_data set_connected setf fval].
    rewrite fn_lookup_insert. read_wire. rewrite u16_small by lia.
    apply shows_int_tenths.
Qed.

Lemma can_round_trip_integer_channels_witness :
  exists m,
    buildCAN_ME1_5 initEngineState = Some m /\
    shows_int (fval (ecu_data (fst (feed_can_msg (invent_ems_init power_on) m))) clt) 85.
Proof.
  assert (Ht : engine_typed initEngineState) by (unfold engine_typed; cbn; lia).
  assert (E : exists m, buildCAN_ME1_5 initEngineState = Some m)
    by (vm_compute; eexists; reflexivity).
  destruct E as (m & E). exists m. split; [exact E|].
  destruct (can_round_trip_integer_channels initEngineState (invent_ems_init power_on) Ht)
    as (_ & _ & H5 & _).
  exact (proj2 (H5 m E)).
Defined.

(** X23.  Where the casts of the CAN builders stop being defined: the values are
    scaled by ten before they are cast to 16 bits, so an exhaust temperature
    from 3277 on does not fit the [int16_t] of message 0x307 and a fuel
    pressure from 6554 kPa on does not fit the [uint16_t] of message 0x306,
    although both are legal values of the engine state's [uint16_t] members.
    The whole cycle of [sendAllCAN] has no defined result then. *)
Theorem can_builder_cast_limits (eng : CarEmu.EngineState) :
  (3277 <= CarEmu.egt1 eng \/ 3277 <= CarEmu.egt2 eng -> buildCAN_ME1_8 eng = None) /\
  (6554 <= CarEmu.fuelPKpa eng -> buildCAN_ME1_7 eng = None) /\
  (3277 <= CarEmu.egt1 eng \/ 3277 <= CarEmu.egt2 eng \/ 6554 <= CarEmu.fuelPKpa eng ->
   sendAllCAN true eng = None).
Proof.
  assert (H8 : 3277 <= CarEmu.egt1 eng \/ 3277 <= CarEmu.egt2 eng ->
               buildCAN_ME1_8 eng = None).
  { intros Hbig. unfold buildCAN_ME1_8, cast_i16.
    destruct Hbig as [Hbig | Hbig].
    - rewrite (cast_tenths_none _ _ (CarEmu.egt1 eng)) by lia. reflexivity.
    - destruct (cast_int _ _ (fdiv_of_int (CarEmu.egt1 eng) _)); [|reflexivity].
      cbn [mbind option_bind].
      rewrite (cast_tenths_none _ _ (CarEmu.egt2 eng)) by lia. reflexivity. }
  assert (H7 : 6554 <= CarEmu.fuelPKpa eng -> buildCAN_ME1_7 eng = None).
  { intros Hbig. unfold buildCAN_ME1_7, cast_i16, cast_u16.
    destruct (cast_int _ _ (fdiv_of_int (CarEmu.knockV eng) _)); [|reflexivity].
    cbn [mbind option_bind]. cbv zeta.
    rewrite (cast_tenths_none _ _ (CarEmu.fuelPKpa eng)) by lia. reflexivity. }
  split; [exact H8|]. split; [exact H7|].
  intros Hbig.
  destruct (sendAllCAN true eng) as [msgs|] eqn:E; [|reflexivity]. exfalso.
  unfold sendAllCAN, canBuilders in E. cbn [negb] in E.
  apply mapM_Some in E.
  repeat match goal with
         | H : Forall2 _ (_ :: _) _ |- _ => inversion H; clear H; subst
         end.
  destruct Hbig as [Hbig | [Hbig | Hbig]].
  - rewrite (H8 (or_introl Hbig)) in *. discriminate.
  - rewrite (H8 (or_intror Hbig)) in *. discriminate.
  - rewrite (H7 Hbig) in *. discriminate.
Qed.

Lemma can_builder_cast_limits_witness :
  buildCAN_ME1_8 (with_exhaust initEngineState 4000 640) = None.
Proof.
  assert (Hbig : 3277 <= CarEmu.egt1 (with_exhaust initEngineState 4000 640) \/
                 3277 <= CarEmu.egt2 (with_exhaust initEngineState 4000 640))
    by (left; cbn; lia).
  exact (proj1 (can_builder_cast_limits (with_exhaust initEngineState 4000 640)) Hbig).
Defined.

Ltac invert_builder H :=
  unfold buildCAN_ME1_1, buildCAN_ME1_2, buildCAN_ME1_3, buildCAN_ME1_4,
    buildCAN_ME1_5, buildCAN_ME1_6, buildCAN_ME1_7, buildCAN_ME1_8,
    buildCAN_ME1_In1 in H;
  cbv zeta in H;
  repeat (let w := fresh "w" in let Hw := fresh "Hw" in
          apply bind_Some in H as (w & Hw & H); cbv zeta in H);
  injection H as <-.

Lemma can_msg_4x16_shape id w0 w1 w2 w3 :
  msg_id (can_msg_4x16 id w0 w1 w2 w3) = id /\
  msg_dlc (can_msg_4x16 id w0 w1 w2 w3) = 8 /\
  length (msg_data (can_msg_4x16 id w0 w1 w2 w3)) = 8%nat /\
  Forall is_byte (msg_data (can_msg_4x16 id w0 w1 w2 w3)).
Proof.
  split_and!; try reflexivity.
  unfold can_msg_4x16. cbn [msg_data]. repeat apply Forall_app_2; apply le16_bytes.
Qed.

(** X24.  One cycle of [sendAllCAN] while the bus is running: nine messages with
    the identifiers 0x300 to 0x307 and 0x340 in this order, each with length
    8 and eight data bytes.  The decoder of the dashboard answers seven of
    them with true and two with false: it has no case for 0x301 and 0x303,
    so those two leave its state untouched.  While the bus is not running
    nothing is sent. *)
Theorem can_cycle_two_messages_ignored (eng : CarEmu.EngineState)
        (msgs : list can2040_msg) (s : parser) :
  sendAllCAN true eng = Some msgs ->
  map msg_id msgs = [0x300; 0x301; 0x302; 0x303; 0x304; 0x305; 0x306; 0x307; 0x340] /\
  Forall (fun m => msg_dlc m = 8 /\ length (msg_data m) = 8%nat /\
                   Forall is_byte (msg_data m)) msgs /\
  map (fun m => snd (feed_can_msg s m)) msgs
  = [true; false; true; false; true; true; true; true; true] /\
  Forall (fun m => snd (feed_can_msg s m) = false -> fst (feed_can_msg s m) = s) msgs /\
  sendAllCAN false eng = Some [].
Proof.
  intros E. unfold sendAllCAN, canBuilders in E. cbn [negb] in E.
  apply mapM_Some in E.
  repeat match goal with
         | H : Forall2 _ (_ :: _) _ |- _ => inversion H; clear H; subst
         | H : Forall2 _ [] _ |- _ => inversion H; clear H; subst
         end.
  repeat match goal with
         | H : _ eng = Some _ |- _ => invert_builder H
         end.
  split; [reflexivity|].
  split.
  { repeat apply Forall_cons_2; try apply Forall_nil_2;
      try (match goal with
           | |- context [can_msg_4x16 ?i ?a ?b ?c ?d] =>
               destruct (can_msg_4x16_shape i a b c d) as (_ & Hd & Hl & Hb);
               split; [exact Hd | split; [exact Hl | exact Hb]]
           end).
    split; [reflexivity|]. split; [reflexivity|].
    cbn [msg_data]. repeat apply Forall_cons_2; try apply Forall_nil_2;
      unfold is_byte; try apply u8_range; lia. }
  split; [reflexivity|].
  split; [|reflexivity].
  repeat apply Forall_cons_2; try apply Forall_nil_2; intros Hans;
    try reflexivity; discriminate Hans.
Qed.

Lemma can_cycle_two_messages_ignored_witness :
  exists msgs,
    sendAllCAN true initEngineState = Some msgs /\
    map msg_id msgs = [0x300; 0x301; 0x302; 0x303; 0x304; 0x305; 0x306; 0x307; 0x340].
Proof.
  assert (E : exists msgs, sendAllCAN true initEngineState = Some msgs)
    by (vm_compute; eexists; reflexivity).
  destruct E as (msgs & E). exists msgs. split; [exact E|].
  exact (proj1 (can_cycle_two_messages_ignored initEngineState msgs
                  (invent_ems_init power_on) E)).
Defined.

(* ================================================================== *)
(** ** invent_ems.c: what a frame leaves alone *)
(* ================================================================== *)

Ltac eval_kept :=
  match goal with
  | |- ?t = _ =>
      let v := eval cbv - [rd read_u16 read_i16 fmul_int fdiv_int of_int i8
                           Qdiv Qmult Qinv Z.ltb inject_Z] in t in
      change t with v
  end.

(** X25.  The members of a slow packet keep their values until that packet comes
    round again: a frame of the emulator with slow packet [idx] changes no
    float and no integer member that belongs to another slow packet. *)
Theorem slow_members_persist (eng : CarEmu.EngineState) (idx : Z) (frame : list Z)
        (next : Z) (s : parser) :
  0 <= idx < 10 ->
  CarEmu.buildAndSend eng idx = Some (frame, next) ->
  parser_wf s -> rxstate s <= 4 ->
  let d := ecu_data (feed_bytes s frame) in
  (forall f k, float_group f = Some k -> k <> idx -> fval d f = fval (ecu_data s) f) /\
  (forall g k, int_group g = Some k -> k <> idx -> ival d g = ival (ecu_data s) g).
Proof.
  intros Hidx Hemu Hwf Hst d. subst d.
  destruct (round_trip_decoded eng idx frame next s Hidx Hemu Hwf Hst)
    as (Uoz & Period & InjTime & sp & tl & _ & _ & _ & _ & Hfv & Hiv).
  rewrite Hfv, Hiv. clear Hfv Hiv.
  set (B := CarEmu.packet_image eng Uoz Period InjTime idx sp ++ tl). clearbody B.
  destruct (ecu_data s) as [c p e fv iv]. cbn [fval ival].
  assert (Hcases : idx = 0 \/ idx = 1 \/ idx = 2 \/ idx = 3 \/ idx = 4 \/
                   idx = 5 \/ idx = 6 \/ idx = 7 \/ idx = 8 \/ idx = 9) by lia.
  split.
  - intros f k Hg Hk.
    destruct f; cbn [float_group] in Hg; try discriminate Hg;
      injection Hg as <-;
      destruct Hcases as [->|[->|[->|[->|[->|[->|[->|[->|[->| ->]]]]]]]]];
      try (exfalso; apply Hk; reflexivity);
      eval_kept; reflexivity.
  - intros g k Hg Hk.
    destruct g; cbn [int_group] in Hg; try discriminate Hg;
      injection Hg as <-;
      destruct Hcases as [->|[->|[->|[->|[->|[->|[->|[->|[->| ->]]]]]]]]];
      try (exfalso; apply Hk; reflexivity);
      eval_kept; reflexivity.
Qed.

Lemma slow_members_persist_witness :
  fval (ecu_data (feed_bytes (invent_ems_init power_on) c2_frame)) oil_pressure
  = fval (ecu_data (invent_ems_init power_on)) oil_pressure.
Proof.
  assert (Hidx : 0 <= 0 < 10) by lia.
  assert (Hemu : CarEmu.buildAndSend initEngineState 0 = Some (c2_frame, 1))
    by (vm_compute; reflexivity).
  assert (Hst : rxstate (invent_ems_init power_on) <= 4) by (vm_compute; discriminate).
  destruct (slow_members_persist initEngineState 0 c2_frame 1 (invent_ems_init power_on)
              Hidx Hemu parser_wf_power_on Hst) as (Hf & _).
  apply (Hf oil_pressure 8); [reflexivity | lia].
Defined.

(* ================================================================== *)
(** ** ui_debug_console.c: the rates of the overlay *)
(* ================================================================== *)

Lemma u32_delta prev n :
  0 <= n < 2 ^ 32 -> u32 (u32 (prev + n) - prev) = n.
Proof.
  intros Hn. unfold u32. rewrite Zminus_mod_idemp_l.
  replace (prev + n - prev) with n by lia. apply Z.mod_small. lia.
Qed.

(** X26.  The rates of the statistics overlay are right across the wrap-around of
    the 32-bit counters: while the overlay is visible, an update after [n]
    more packets and [m] more bus frames shows the rates [5 n] and [5 m]
    (as long as these fit 32 bits) and remembers the new counters.  While
    the overlay is hidden an update changes nothing, so the counters kept
    for the next rate are those of the last visible update. *)
Theorem console_rates_survive_wrap (c : console) (n m errs : Z) (conn : bool)
        (can : bsp_can_stats_t) :
  0 <= n -> 5 * n < 2 ^ 32 -> 0 <= m -> 5 * m < 2 ^ 32 ->
  rx_total can = u32 (prev_can_rx c + m) ->
  let pkts := u32 (prev_uart_pkts c + n) in
  let c' := ui_debug_console_update_stats pkts errs conn can c in
  (console_visible c = true ->
   exists t, console_label c' = Some t /\
             shown_uart_rate t = 5 * n /\ shown_can_rate t = 5 * m /\
             prev_uart_pkts c' = pkts /\ prev_can_rx c' = rx_total can) /\
  (console_visible c = false -> c' = c).
Proof.
  intros Hn Hn5 Hm Hm5 Hrx pkts c'. subst c' pkts.
  unfold ui_debug_console_update_stats. split; intros Hvis; rewrite Hvis; cbn [negb].
  - eexists. split; [reflexivity|].
    cbn [shown_uart_rate shown_can_rate prev_uart_pkts prev_can_rx].
    rewrite Hrx, !u32_delta by lia.
    unfold u32. rewrite !Z.mod_small by lia.
    split_and!; try reflexivity; lia.
  - reflexivity.
Qed.

Lemma console_rates_survive_wrap_witness :
  exists t,
    console_label (ui_debug_console_update_stats (u32 (4294967290 + 10)) 0 true
                     (mk_stats (u32 (7 + 3)) 0 0 0 240000000 0 true 1 0)
                     (mk_console true 4294967290 7 None)) = Some t /\
    shown_uart_rate t = 5 * 10.
Proof.
  assert (Hn : 0 <= 10) by lia.
  assert (Hn5 : 5 * 10 < 2 ^ 32) by lia.
  assert (Hm : 0 <= 3) by lia.
  assert (Hm5 : 5 * 3 < 2 ^ 32) by lia.
  assert (Hrx : rx_total (mk_stats (u32 (7 + 3)) 0 0 0 240000000 0 true 1 0)
                = u32 (prev_can_rx (mk_console true 4294967290 7 None) + 3))
    by reflexivity.
  destruct (proj1 (console_rates_survive_wrap (mk_console true 4294967290 7 None) 10 3 0 true
                     (mk_stats (u32 (7 + 3)) 0 0 0 240000000 0 true 1 0)
                     Hn Hn5 Hm Hm5 Hrx) eq_refl) as (t & Ht & Hr & _).
  exists t. split; assumption.
Defined.

(** X27.  Closing the overlay freezes its counters: an update that arrives while
    it is hidden is ignored, and the first update after it has been opened
    again shows five times all the packets counted since the last visible
    update, the hidden time included, not the rate of the last 200 ms. *)
Theorem console_rate_spans_hidden_time (c : console) (n1 n2 errs1 errs2 : Z)
        (conn1 conn2 : bool) (can1 can2 : bsp_can_stats_t) :
  console_visible c = true ->
  0 <= n1 -> 0 <= n2 -> 5 * (n1 + n2) < 2 ^ 32 ->
  let closed := panel_click_cb c in
  let ignored :=
    ui_debug_console_update_stats (u32 (prev_uart_pkts c + n1)) errs1 conn1 can1 closed in
  let opened := dashboard_click_cb ignored in
  let shown :=
    ui_debug_console_update_stats (u32 (prev_uart_pkts c + n1 + n2)) errs2 conn2 can2
                                  opened in
  console_visible closed = false /\
  ignored = closed /\
  console_visible opened = true /\
  exists t, console_label shown = Some t /\ shown_uart_rate t = 5 * (n1 + n2).
Proof.
  intros Hvis Hn1 Hn2 Hfit closed ignored opened shown.
  subst shown opened ignored closed.
  destruct c as [vis prev prevcan lbl]. cbn [console_visible prev_uart_pkts] in *.
  subst vis. unfold panel_click_cb. cbn [console_visible].
  unfold ui_debug_console_update_stats at 2. cbn [console_visible negb].
  unfold dashboard_click_cb. cbn [console_visible negb prev_uart_pkts prev_can_rx console_label].
  unfold ui_debug_console_update_stats. cbn [console_visible negb prev_uart_pkts].
  split_and!; try reflexivity.
  eexists. split; [reflexivity|]. cbn [shown_uart_rate].
  rewrite <- Z.add_assoc, u32_delta by lia.
  unfold u32. rewrite Z.mod_small by lia. lia.
Qed.

Lemma console_rate_spans_hidden_time_witness :
  exists t,
    console_label
      (ui_debug_console_update_stats (u32 (100 + 50 + 10)) 0 true
         (mk_stats 0 0 0 0 240000000 0 false 1 0)
         (dashboard_click_cb
            (ui_debug_console_update_stats (u32 (100 + 50)) 0 true
               (mk_stats 0 0 0 0 240000000 0 false 1 0)
               (panel_click_cb (mk_console true 100 0 None))))) = Some t /\
    shown_uart_rate t = 5 * (50 + 10).
Proof.
  assert (H1 : 0 <= 50) by lia.
  assert (H2 : 0 <= 10) by lia.
  assert (H3 : 5 * (50 + 10) < 2 ^ 32) by lia.
  destruct (console_rate_spans_hidden_time (mk_console true 100 0 None) 50 10 0 0 true true
              (mk_stats 0 0 0 0 240000000 0 false 1 0)
              (mk_stats 0 0 0 0 240000000 0 false 1 0) eq_refl H1 H2 H3)
    as (_ & _ & _ & t & Ht & Hr).
  exists t. split; assumption.
Defined.

(* ================================================================== *)
(** ** invent_ems.c: starting over *)
(* ================================================================== *)

(** X28.  [invent_ems_init] forgets whatever a byte stream left behind: from any
    state, in the middle of a frame or not, it gives the start-up record
    (counters at 0, not connected, no new data) and the framing state 0, and
    a valid frame that follows is decoded as the first packet. *)
Theorem init_recovers_from_any_state (s : parser) (L : Z) (body frame : list Z) :
  length (rxbuf s) = 64%nat ->
  valid_frame L body frame ->
  let s0 := invent_ems_init s in
  let s' := feed_bytes s0 frame in
  ecu_data s0 = ecu_data (invent_ems_init power_on) /\
  rxstate s0 = 0 /\ rxptr s0 = 0 /\ new_data_flag s0 = false /\
  packet_count (ecu_data s') = 1 /\
  error_count (ecu_data s') = 0 /\
  connected (ecu_data s') = true /\
  new_data_flag s' = true /\
  rxstate s' = 0.
Proof.
  intros Hlen Hv s0 s'.
  assert (Hwf : parser_wf s0) by (apply parser_wf_init, Hlen).
  assert (Hst : 0 <= rxstate s0 <= 4) by (cbn; lia).
  destruct (feed_valid_frame_counts s0 L body frame Hwf Hst Hv) as (Hp & He & Hc & Hf & H0).
  fold s' in Hp, He, Hc, Hf, H0.
  split; [reflexivity|]. split; [reflexivity|]. split; [reflexivity|].
  split; [reflexivity|]. split; [rewrite Hp; reflexivity|].
  split; [rewrite He; reflexivity|].
  split; [exact Hc|]. split; [exact Hf | exact H0].
Qed.

Lemma init_recovers_from_any_state_witness :
  packet_count (ecu_data (feed_bytes (invent_ems_init c4_state) c3_frame)) = 1.
Proof.
  assert (Hlen : length (rxbuf c4_state) = 64%nat) by (vm_compute; reflexivity).
  destruct (init_recovers_from_any_state c4_state 4 [1; 2] c3_frame Hlen c3_frame_valid)
    as (_ & _ & _ & _ & Hp & _).
  exact Hp.
Defined.
